(** * version_updater: a release checker and artifact replacer

    Shallow embedding of [src/version_updater.py].  The program reads a list
    of repository configurations, extracts a version from the name of a local
    file, asks a release API for the latest tag, compares the two versions
    and, when the remote one is newer, downloads the matching asset to
    [<local_file>.tmp] and moves it over the local file.

    Python features that matter for the properties below are modelled
    explicitly: exceptions (an error monad), the filesystem and the console
    (a state), and the local variables of a function call (a frame), which
    the [except] block of [update_repository] inspects through [locals()]. *)

From Stdlib Require Import ZArith Ascii String List Lia Bool.
From stdpp Require Import base gmap strings list fin_maps.

Local Open Scope Z_scope.
Local Open Scope string_scope.

(** ** Strings *)

Module Str.

Fixpoint contains (c : ascii) (s : string) : bool :=
  match s with
  | EmptyString => false
  | String d r => if Ascii.eqb c d then true else contains c r
  end.

(** [s.lstrip(chars)]: drops every leading character of [s] that occurs in
    [chars]. *)
Fixpoint lstrip (chars : string) (s : string) : string :=
  match s with
  | EmptyString => EmptyString
  | String c r => if contains c chars then lstrip chars r else s
  end.

(** [s.startswith(p)]. *)
Fixpoint startswith (p s : string) : bool :=
  match p, s with
  | EmptyString, _ => true
  | String c p', String d s' => Ascii.eqb c d && startswith p' s'
  | String _ _, EmptyString => false
  end.

(** Removing exactly one leading [c], as the spec words the stripping of
    the tag: [s[1:]] when [s] starts with [c], [s] otherwise. *)
Definition remove_one (c : ascii) (s : string) : string :=
  match s with
  | EmptyString => EmptyString
  | String d r => if Ascii.eqb c d then r else s
  end.

(** [n] copies of the character [c]. *)
Fixpoint replicate (n : nat) (c : ascii) : string :=
  match n with
  | O => EmptyString
  | S k => String c (replicate k c)
  end.

End Str.

(** ** os.path *)

Module OsPath.

(** [posixpath.basename(p)] is [p[p.rfind('/') + 1:]]: the text after the
    last slash, the whole of [p] when it has none. *)
Fixpoint basename (p : string) : string :=
  match p with
  | EmptyString => EmptyString
  | String c r =>
      if Str.contains "/"%char r then basename r
      else if Ascii.eqb c "/"%char then r
      else p
  end.

End OsPath.

(** ** Lexicographic comparison

    Python compares tuples (and strings) lexicographically: the first
    position where the two differ decides, and a proper prefix is smaller. *)

Module Cmp.

Class Lawful {A : Type} (cmp : A -> A -> comparison) : Prop := {
  cmp_eq : forall x y, cmp x y = Eq <-> x = y;
  cmp_opp : forall x y, cmp y x = CompOpp (cmp x y);
  cmp_lt_trans : forall x y z, cmp x y = Lt -> cmp y z = Lt -> cmp x z = Lt
}.

Definition pair_cmp {A B : Type} (ca : A -> A -> comparison)
    (cb : B -> B -> comparison) (x y : A * B) : comparison :=
  match ca (fst x) (fst y) with
  | Eq => cb (snd x) (snd y)
  | o => o
  end.

Fixpoint list_cmp {A : Type} (c : A -> A -> comparison)
    (l1 l2 : list A) : comparison :=
  match l1, l2 with
  | [], [] => Eq
  | [], _ :: _ => Lt
  | _ :: _, [] => Gt
  | x :: r1, y :: r2 =>
      match c x y with
      | Eq => list_cmp c r1 r2
      | o => o
      end
  end.

(** A 3-tuple against a 4-tuple with the same first three components: the
    shorter one is smaller.  [None] stands for the missing component. *)
Definition option_cmp {A : Type} (c : A -> A -> comparison)
    (o1 o2 : option A) : comparison :=
  match o1, o2 with
  | None, None => Eq
  | None, Some _ => Lt
  | Some _, None => Gt
  | Some x, Some y => c x y
  end.

Definition ascii_cmp (c d : ascii) : comparison :=
  N.compare (N_of_ascii c) (N_of_ascii d).

Definition str_cmp (s1 s2 : string) : comparison :=
  list_cmp ascii_cmp (list_ascii_of_string s1) (list_ascii_of_string s2).

End Cmp.

(** ** packaging.version *)

(** Backtracking matchers: a matcher returns every way of matching a prefix
    of its input, most preferred first, the way a backtracking regular
    expression engine explores them. *)
Module Matcher.

Definition t (A : Type) : Type := list ascii -> list (A * list ascii).

Definition ret {A : Type} (x : A) : t A := fun s => [(x, s)].

Definition bind {A B : Type} (p : t A) (f : A -> t B) : t B :=
  fun s => flat_map (fun xr => f (fst xr) (snd xr)) (p s).

Definition alt {A : Type} (p q : t A) : t A := fun s => (p s ++ q s)%list.

Definition fail {A : Type} : t A := fun _ => [].

(** [p?] *)
Definition opt {A : Type} (p : t A) : t (option A) :=
  alt (bind p (fun x => ret (Some x))) (ret None).

Fixpoint strip_prefix (w s : list ascii) : option (list ascii) :=
  match w, s with
  | [], _ => Some s
  | c :: w', d :: s' => if Ascii.eqb c d then strip_prefix w' s' else None
  | _ :: _, [] => None
  end.

(** A literal word. *)
Definition lit (w : string) : t unit :=
  fun s => match strip_prefix (list_ascii_of_string w) s with
           | Some r => [(tt, r)]
           | None => []
           end.

(** Alternation of literal words, [w1|w2|...], returning the word matched. *)
Fixpoint words (ws : list string) : t string :=
  match ws with
  | [] => fail
  | w :: r => alt (bind (lit w) (fun _ => ret w)) (words r)
  end.

(** Zero or more characters of a class, greedy: the longest run first,
    then each shorter one. *)
Fixpoint many (ok : ascii -> bool) (s : list ascii)
    : list (list ascii * list ascii) :=
  match s with
  | [] => [([], [])]
  | c :: r =>
      if ok c
      then (map (fun mr => (c :: fst mr, snd mr)) (many ok r) ++ [([], s)])%list
      else [([], s)]
  end.

(** [[class]+] *)
Definition many1 (ok : ascii -> bool) : t (list ascii) :=
  fun s => List.filter (fun mr => negb (Nat.eqb (length (fst mr)) 0)) (many ok s).

(** [[class]?] *)
Definition one_opt (ok : ascii -> bool) : t unit :=
  fun s => match s with
           | c :: r => if ok c then [(tt, r); (tt, s)] else [(tt, s)]
           | [] => [(tt, [])]
           end.

(** [[class]] *)
Definition one (ok : ascii -> bool) : t unit :=
  fun s => match s with
           | c :: r => if ok c then [(tt, r)] else []
           | [] => []
           end.

Fixpoint star_fuel {A : Type} (fuel : nat) (p : t A) : t (list A) :=
  match fuel with
  | O => ret []
  | S n =>
      alt (bind p (fun x => bind (star_fuel n p) (fun xs => ret (x :: xs))))
          (ret [])
  end.

(** Zero or more rounds of [p], greedy, for a [p] that consumes at least
    one character per round. *)
Definition star {A : Type} (p : t A) : t (list A) :=
  fun s => star_fuel (length s) p s.

(** [fullmatch]: the first way of matching that consumes the whole input. *)
Definition fullmatch {A : Type} (p : t A) (s : list ascii) : option A :=
  match List.filter (fun xr => Nat.eqb (length (snd xr)) 0) (p s) with
  | xr :: _ => Some (fst xr)
  | [] => None
  end.

End Matcher.

Module Version.

Import Matcher.

(** The normalised pre-release letters, [Literal["a", "b", "rc"]]. *)
Inductive pre_letter : Type := a | b | rc.

(** A local version segment: [int | str]. *)
Inductive local_seg : Type :=
| LocalInt (n : Z)
| LocalStr (s : string).

(** The parsed fields of a [Version] object. *)
Record t : Type := mk {
  epoch : Z;
  release : list Z;
  pre : option (pre_letter * Z);
  post : option Z;
  dev : option Z;
  local : option (list local_seg)
}.

(** *** Parsing *)

Definition code (c : ascii) : N := N_of_ascii c.

Definition is_digit (c : ascii) : bool :=
  ((48 <=? code c) && (code c <=? 57))%N.

Definition is_lower (c : ascii) : bool :=
  ((97 <=? code c) && (code c <=? 122))%N.

Definition is_upper (c : ascii) : bool :=
  ((65 <=? code c) && (code c <=? 90))%N.

(** [\s] *)
Definition is_space (c : ascii) : bool :=
  (((9 <=? code c) && (code c <=? 13))
   || ((28 <=? code c) && (code c <=? 32)))%N.

(** [[._-]] *)
Definition is_sep (c : ascii) : bool :=
  (Ascii.eqb c "." || Ascii.eqb c "_" || Ascii.eqb c "-")%char.

(** [[a-z0-9]] *)
Definition is_alnum (c : ascii) : bool := is_lower c || is_digit c.

Definition lower (c : ascii) : ascii :=
  if is_upper c then ascii_of_N (code c + 32) else c.

(** [int(digits)] *)
Definition to_int (ds : list ascii) : Z :=
  fold_left (fun n d => 10 * n + (Z.of_N (code d) - 48)) ds 0.

(** [_LETTER_NORMALIZATION] on the words the pre-release group admits. *)
Definition normalize_pre (w : string) : pre_letter :=
  if String.eqb w "alpha" || String.eqb w "a" then a
  else if String.eqb w "beta" || String.eqb w "b" then b
  else rc.

(** [int(number or 0)] *)
Definition number_or_0 (n : option (list ascii)) : Z :=
  match n with
  | Some ds => to_int ds
  | None => 0
  end.

(** The groups of [VERSION_PATTERN], as the regular expression captures
    them. *)
Record groups : Type := mk_groups {
  g_epoch : option (list ascii);
  g_release : list (list ascii);
  g_pre : option (string * option (list ascii));
  g_post : option (option string * option (list ascii));
  g_dev : option (option (list ascii));
  g_local : option (list (list ascii))
}.

Definition digits1 : Matcher.t (list ascii) := many1 is_digit.

(** [(?:(?P<epoch>[0-9]+)!)?] *)
Definition p_epoch : Matcher.t (option (list ascii)) :=
  opt (bind digits1 (fun d => bind (lit "!") (fun _ => ret d))).

(** The release group: [[0-9]+], then any number of [\.[0-9]+]; returned already split at the dots. *)
Definition p_release : Matcher.t (list (list ascii)) :=
  bind digits1 (fun d =>
  bind (star (bind (lit ".") (fun _ => digits1))) (fun ds =>
  ret (d :: ds))).

(** [(?P<pre>[._-]?(?P<pre_l>alpha|a|beta|b|preview|pre|c|rc)[._-]?(?P<pre_n>[0-9]+)?)?] *)
Definition p_pre : Matcher.t (option (string * option (list ascii))) :=
  opt (bind (one_opt is_sep) (fun _ =>
       bind (words ["alpha"; "a"; "beta"; "b"; "preview"; "pre"; "c"; "rc"])
         (fun l =>
       bind (one_opt is_sep) (fun _ =>
       bind (opt digits1) (fun n =>
       ret (l, n)))))).

(** [(?P<post>(?:-(?P<post_n1>[0-9]+))|(?:[._-]?(?P<post_l>post|rev|r)[._-]?(?P<post_n2>[0-9]+)?))?] *)
Definition p_post
    : Matcher.t (option (option string * option (list ascii))) :=
  opt (alt
         (bind (lit "-") (fun _ =>
          bind digits1 (fun n => ret (None, Some n))))
         (bind (one_opt is_sep) (fun _ =>
          bind (words ["post"; "rev"; "r"]) (fun l =>
          bind (one_opt is_sep) (fun _ =>
          bind (opt digits1) (fun n =>
          ret (Some l, n))))))).

(** [(?P<dev>[._-]?(?P<dev_l>dev)[._-]?(?P<dev_n>[0-9]+)?)?] *)
Definition p_dev : Matcher.t (option (option (list ascii))) :=
  opt (bind (one_opt is_sep) (fun _ =>
       bind (lit "dev") (fun _ =>
       bind (one_opt is_sep) (fun _ =>
       opt digits1)))).

(** The optional local group: [\+], [[a-z0-9]+], then any number of
    [[._-][a-z0-9]+]; returned already split at the separators. *)
Definition p_local : Matcher.t (option (list (list ascii))) :=
  opt (bind (lit "+") (fun _ =>
       bind (many1 is_alnum) (fun seg =>
       bind (star (bind (one is_sep) (fun _ => many1 is_alnum))) (fun segs =>
       ret (seg :: segs))))).

(** The whole pattern between optional white space, with its optional
    leading [v]; case-insensitive (the input is lower-cased first). *)
Definition _regex : Matcher.t groups :=
  bind (many is_space) (fun _ =>
  bind (opt (lit "v")) (fun _ =>
  bind p_epoch (fun e =>
  bind p_release (fun r =>
  bind p_pre (fun pr =>
  bind p_post (fun po =>
  bind p_dev (fun d =>
  bind p_local (fun l =>
  bind (many is_space) (fun _ =>
  ret (mk_groups e r pr po d l)))))))))).

(** [_parse_letter_version] for the three places it is called from. *)
Definition parse_pre (g : option (string * option (list ascii)))
    : option (pre_letter * Z) :=
  match g with
  | Some (l, n) => Some (normalize_pre l, number_or_0 n)
  | None => None
  end.

Definition parse_post (g : option (option string * option (list ascii)))
    : option Z :=
  match g with
  | Some (Some _, n) => Some (number_or_0 n)
  | Some (None, Some n) => Some (to_int n)
  | Some (None, None) => None
  | None => None
  end.

Definition parse_dev (g : option (option (list ascii))) : option Z :=
  match g with
  | Some n => Some (number_or_0 n)
  | None => None
  end.

(** [_parse_local_version] *)
Definition parse_local_seg (part : list ascii) : local_seg :=
  if forallb is_digit part then LocalInt (to_int part)
  else LocalStr (string_of_list_ascii part).

Definition of_groups (g : groups) : t :=
  {| epoch := number_or_0 (g_epoch g);
     release := map to_int (g_release g);
     pre := parse_pre (g_pre g);
     post := parse_post (g_post g);
     dev := parse_dev (g_dev g);
     local := option_map (map parse_local_seg) (g_local g) |}.

(** Modelled from the spec: [packaging.version.parse] is a third-party
    library function that is not under src/.  The spec asks for "standard
    dotted release-version semantics (numeric segments compared
    numerically, with pre-release/post-release qualifiers ordered per
    common versioning convention)"; the model follows the library's
    PEP 440 grammar.  [None] stands for [InvalidVersion]. *)
Definition parse (version : string) : option t :=
  option_map of_groups
    (fullmatch _regex (map lower (list_ascii_of_string version))).

(** *** Comparison *)

(** The comparison key: [(epoch, release, suffix)] or
    [(epoch, release, suffix, local)]. *)
Definition key : Type := Z * list Z * list Z * option (list (Z * string)).

Fixpoint drop_zeros (l : list Z) : list Z :=
  match l with
  | [] => []
  | x :: r => if (x =? 0)%Z then drop_zeros r else l
  end.

(** Trailing zeros do not count: [1.0.0] compares equal to [1]. *)
Definition trim (release : list Z) : list Z :=
  rev (drop_zeros (rev release)).

(** [_PRE_RANK] *)
Definition pre_rank (l : pre_letter) : Z :=
  match l with
  | a => 0
  | b => 1
  | rc => 2
  end.

Definition cmp_local_seg (seg : local_seg) : Z * string :=
  match seg with
  | LocalInt n => (n, "")
  | LocalStr s => (-1, s)
  end.

(** Modelled from the spec: [packaging.version._cmpkey], the key that
    orders versions, is not under src/.  A release with only a dev segment
    sorts before its pre-releases, a pre-release before the plain release,
    a post-release after it. *)
Definition _cmpkey (v : t) : key :=
  let pre_part :=
    match pre v, post v, dev v with
    | None, None, Some _ => (-1, 0)
    | None, _, _ => (3, 0)
    | Some (l, n), _, _ => (pre_rank l, n)
    end in
  let post_part := match post v with None => (0, 0) | Some n => (1, n) end in
  let dev_part := match dev v with None => (1, 0) | Some n => (0, n) end in
  (epoch v, trim (release v),
   [fst pre_part; snd pre_part; fst post_part; snd post_part;
    fst dev_part; snd dev_part],
   option_map (map cmp_local_seg) (local v)).

(** Tuple comparison of two keys. *)
Definition key_cmp : key -> key -> comparison :=
  Cmp.pair_cmp
    (Cmp.pair_cmp
       (Cmp.pair_cmp Z.compare (Cmp.list_cmp Z.compare))
       (Cmp.list_cmp Z.compare))
    (Cmp.option_cmp (Cmp.list_cmp (Cmp.pair_cmp Z.compare Cmp.str_cmp))).

Definition compare (v w : t) : comparison := key_cmp (_cmpkey v) (_cmpkey w).

(** Modelled from the spec: the comparison operators of
    [packaging.version.Version] (not under src/) compare the keys:
    [__le__], [__lt__], [__gt__] and [__eq__]. *)
Definition le (v w : t) : bool :=
  match compare v w with Gt => false | _ => true end.

Definition lt (v w : t) : bool :=
  match compare v w with Lt => true | _ => false end.

Definition gt (v w : t) : bool :=
  match compare v w with Gt => true | _ => false end.

Definition eq (v w : t) : bool :=
  match compare v w with Eq => true | _ => false end.

(** Comparison of two version strings, when both parse. *)
Definition compare_str (s1 s2 : string) : option comparison :=
  match parse s1, parse s2 with
  | Some v, Some w => Some (compare v w)
  | _, _ => None
  end.

End Version.

(** ** Exceptions, state and the monad of Python code *)

(** The exceptions the program can meet; all derive from [Exception]. *)
Inductive exn : Type :=
| FileNotFoundError (path : string)
| JSONDecodeError
| KeyError (key : string)
| NameError (var : string)
| IndexError
| ReError (pattern : string)
| InvalidVersion (text : string)
| ConnectionError (url : string)
| HTTPError (status : Z)
| ChunkedEncodingError (url : string)
| OSError (path : string).

Inductive result (A : Type) : Type :=
| Ok (x : A)
| Raise (e : exn).
Arguments Ok {A} x.
Arguments Raise {A} e.

Abbreviation bytes := (list Byte.byte).

(** A repository configuration is a JSON object with string values; keys
    may be absent. *)
Abbreviation repo_config := (gmap string string).

(** The configuration document: a JSON object whose values are sequences of
    repository configurations. *)
Abbreviation document := (gmap string (list (gmap string string))).

(** An asset of a release and the release itself, as the release API
    returns them. *)
Record asset : Type := {
  name : string;
  browser_download_url : string
}.

Record release : Type := {
  tag_name : string;
  assets : list asset
}.

(** What [print] writes, one constructor per message of the program. *)
Inductive message : Type :=
| MsgChecking (repo_name : string)
| MsgNoLocalVersion (local_file : string)
| MsgLocalVersion (local_ver : Version.t)
| MsgCheckingLatest
| MsgLatestVersion (remote_ver : Version.t)
| MsgUpToDate
| MsgNoAsset
| MsgDownloading (asset_url : string)
| MsgUpdating (local_file : string)
| MsgDone (repo_name : string)
| MsgRepoError (repo_name : string) (e : exn)
| MsgFound (n : nat)
| MsgAllDone
| MsgProgramError (e : exn).

(** The functions of the program; entering one is recorded. *)
Inductive func : Type :=
| F_load_repositories (config_path : string)
| F_get_local_version (file_path version_pattern : string)
| F_get_latest_release (repo : string)
| F_find_asset_url (asset_pattern : string)
| F_download_file (url save_path : string)
| F_update_repository (cfg : gmap string string)
| F_main.

(** What a run does, in the order it does it. *)
Inductive event : Type :=
| Enter (f : func)
| Print (m : message)
| HttpGet (url : string)
| OpenW (path : string)
| WriteChunk (path : string) (chunk : bytes)
| Remove (path : string)
| Rename (src dst : string).

(** The filesystem maps a path to the content of the file there; the trace
    lists the events so far, oldest first. *)
Record state : Type := State {
  fs : gmap string bytes;
  trace : list event
}.

(** The local variables of the running function that hold strings. *)
Abbreviation frame := (gmap string string).

(** A computation runs in a frame and a state; an exception leaves both as
    they were when it was raised. *)
Definition M (A : Type) : Type := frame -> state -> result A * frame * state.

Definition ret {A : Type} (x : A) : M A := fun f s => (Ok x, f, s).

Definition bind {A B : Type} (m : M A) (k : A -> M B) : M B :=
  fun f s =>
    match m f s with
    | (Ok x, f', s') => k x f' s'
    | (Raise e, f', s') => (Raise e, f', s')
    end.

Definition raise {A : Type} (e : exn) : M A := fun f s => (Raise e, f, s).

(** [try: m  except Exception as e: h e] *)
Definition try_except {A : Type} (m : M A) (h : exn -> M A) : M A :=
  fun f s =>
    match m f s with
    | (Ok x, f', s') => (Ok x, f', s')
    | (Raise e, f', s') => h e f' s'
    end.

Definition lift {A : Type} (r : result A) : M A := fun f s => (r, f, s).

Declare Scope py_scope.
Delimit Scope py_scope with py.
Notation "x <- m ;; k" := (bind m (fun x => k))
  (at level 100, m at next level, right associativity) : py_scope.
Notation "m ;; k" := (bind m (fun _ => k))
  (at level 100, right associativity) : py_scope.

Definition emit (e : event) : M unit :=
  fun f s => (Ok tt, f, {| fs := fs s; trace := (trace s ++ [e])%list |}).

Definition print (m : message) : M unit := emit (Print m).

(** [x = v] for a local variable. *)
Definition assign (x v : string) : M unit :=
  fun f s => (Ok tt, <[x := v]> f, s).

(** Reading a local variable; unbound ones raise. *)
Definition load (x : string) : M string :=
  fun f s =>
    match f !! x with
    | Some v => (Ok v, f, s)
    | None => (Raise (NameError x), f, s)
    end.

(** ['x' in locals()] *)
Definition in_locals (x : string) : M bool :=
  fun f s => (Ok (bool_decide (is_Some (f !! x))), f, s).

(** Calling a function: the body runs in a frame of its own, and the caller's
    frame is back when it returns or raises. *)
Definition call {A : Type} (fn : func) (body : M A) : M A :=
  fun f s =>
    match body ∅ {| fs := fs s; trace := (trace s ++ [Enter fn])%list |} with
    | (r, _, s') => (r, f, s')
    end.

(** Running a computation from an empty frame. *)
Definition run {A : Type} (m : M A) (s : state) : result A * state :=
  match m ∅ s with
  | (r, _, s') => (r, s')
  end.

(** [d[k]] *)
Definition getitem {V : Type} (d : gmap string V) (k : string) : M V :=
  match d !! k with
  | Some v => ret v
  | None => raise (KeyError k)
  end.

(** [for x in l: body x] *)
Fixpoint for_each {A : Type} (l : list A) (body : A -> M unit) : M unit :=
  match l with
  | [] => ret tt
  | x :: r => (body x ;; for_each r body)%py
  end.

(** *** Files *)

(** [os.path.exists(p)] *)
Definition path_exists (p : string) : M bool :=
  fun f s => (Ok (bool_decide (is_Some (fs s !! p))), f, s).

(** Reading a whole file. *)
Definition read_file (p : string) : M bytes :=
  fun f s =>
    match fs s !! p with
    | Some content => (Ok content, f, s)
    | None => (Raise (FileNotFoundError p), f, s)
    end.

(** ** The environment of a run *)

(** What a streamed HTTP response delivers: its status, its body decoded as
    the JSON of a release when it is one, the chunks of the body that arrive,
    and whether the stream breaks after the last of them. *)
Record response : Type := {
  status_code : Z;
  json_body : option release;
  chunks : list bytes;
  interrupted : bool
}.

Inductive http_result : Type :=
| Unreachable
| Response (r : response).

(** Faults of the disk below a path: none, [open] fails, or the write of
    chunk number [n] fails. *)
Inductive disk_fault : Type :=
| NoFault
| OpenFails
| WriteFails (n : nat).

#[export] Instance disk_fault_eq_dec : EqDecision disk_fault.
Proof. solve_decision. Defined.

(** The libraries and the outside world the program relies on: the regular
    expression engine of [re] (a pattern compiles or is rejected; a search
    gives no match, or the groups of the leftmost match, group 0 first, a
    group that took no part being [None]), the decoder of [json], the
    network and the disk.  Of the disk: the faults of [open] and [write]
    below a path, the existing paths whose removal the system refuses (a
    directory, a missing permission, a read-only disk), and the renamings
    it refuses. *)
Class Env : Type := {
  regex : Type;
  re_compile : string -> option regex;
  regex_search : regex -> string -> option (list (option string));
  json_loads : bytes -> option document;
  net : string -> http_result;
  disk : string -> disk_fault;
  remove_fails : string -> bool;
  rename_fails : string -> string -> bool
}.

(** ** The program *)

(** [f"https://api.github.com/repos/{repo}/releases/latest"] *)
Definition api_url (repo : string) : string :=
  "https://api.github.com/repos/" +:+ repo +:+ "/releases/latest".

Section Program.

Context `{Env}.

Local Open Scope py_scope.

(** [re.search(pattern, text)]: the groups of the match, or [None]. *)
Definition re_search (pattern text : string)
    : result (option (list (option string))) :=
  match re_compile pattern with
  | Some r => Ok (regex_search r text)
  | None => Raise (ReError pattern)
  end.

(** [match.group(i)] *)
Definition group (m : list (option string)) (i : nat)
    : result (option string) :=
  match m !! i with
  | Some g => Ok g
  | None => Raise IndexError
  end.

(** [requests.get(url)] *)
Definition requests_get (url : string) : M response :=
  emit (HttpGet url) ;;
  match net url with
  | Response r => ret r
  | Unreachable => raise (ConnectionError url)
  end.

(** [response.raise_for_status()] *)
Definition raise_for_status (r : response) : M unit :=
  if ((400 <=? status_code r) && (status_code r <? 600))%Z
  then raise (HTTPError (status_code r))
  else ret tt.

(** [response.json()] *)
Definition response_json (r : response) : M release :=
  match json_body r with
  | Some j => ret j
  | None => raise JSONDecodeError
  end.

(** [os.remove(p)]: raises when there is nothing at [p], and when the
    system refuses to remove what is there. *)
Definition os_remove (p : string) : M unit :=
  fun f s =>
    match fs s !! p with
    | Some _ =>
        if remove_fails p then (Raise (OSError p), f, s)
        else
          (Ok tt, f,
           {| fs := delete p (fs s); trace := (trace s ++ [Remove p])%list |})
    | None => (Raise (FileNotFoundError p), f, s)
    end.

(** [os.rename(src, dst)]: raises when there is nothing at [src], and when
    the system refuses the renaming. *)
Definition os_rename (src dst : string) : M unit :=
  fun f s =>
    match fs s !! src with
    | Some content =>
        if rename_fails src dst then (Raise (OSError src), f, s)
        else
          (Ok tt, f,
           {| fs := <[dst := content]> (delete src (fs s));
              trace := (trace s ++ [Rename src dst])%list |})
    | None => (Raise (FileNotFoundError src), f, s)
    end.

(** [open(path, 'wb')]: the file is created, or emptied when it exists. *)
Definition open_wb (path : string) : M unit :=
  match disk path with
  | OpenFails => raise (OSError path)
  | _ =>
      fun f s =>
        (Ok tt, f,
         {| fs := <[path := []]> (fs s);
            trace := (trace s ++ [OpenW path])%list |})
  end.

(** [f.write(chunk)] for chunk number [i] of the file at [path]. *)
Definition file_write (path : string) (i : nat) (chunk : bytes) : M unit :=
  let write : M unit :=
    fun f s =>
      (Ok tt, f,
       {| fs := <[path := (default [] (fs s !! path) ++ chunk)%list]> (fs s);
          trace := (trace s ++ [WriteChunk path chunk])%list |}) in
  match disk path with
  | WriteFails n => if Nat.eqb n i then raise (OSError path) else write
  | _ => write
  end.

Fixpoint write_chunks (path : string) (i : nat) (cs : list bytes) : M unit :=
  match cs with
  | [] => ret tt
  | c :: r => file_write path i c ;; write_chunks path (S i) r
  end.

Definition load_repositories (config_path : string)
    : M (list (gmap string string)) :=
  call (F_load_repositories config_path) (
    e <- path_exists config_path ;;
    if negb e then raise (FileNotFoundError config_path)
    else
      content <- read_file config_path ;;
      match json_loads content with
      | Some doc => getitem doc "repositories"
      | None => raise JSONDecodeError
      end).

Definition get_local_version (file_path version_pattern : string)
    : M (option string) :=
  call (F_get_local_version file_path version_pattern) (
    e <- path_exists file_path ;;
    if negb e then ret None
    else
      m <- lift (re_search version_pattern (OsPath.basename file_path)) ;;
      match m with
      | Some groups => lift (group groups 1)
      | None => ret None
      end).

Definition get_latest_release (repo : string) : M release :=
  call (F_get_latest_release repo) (
    r <- requests_get (api_url repo) ;;
    raise_for_status r ;;
    response_json r).

(** The loop of [find_asset_url]; a match object is always true. *)
Fixpoint find_first_asset (l : list asset) (asset_pattern : string)
    : result (option string) :=
  match l with
  | [] => Ok None
  | x :: r =>
      match re_search asset_pattern (name x) with
      | Raise e => Raise e
      | Ok (Some _) => Ok (Some (browser_download_url x))
      | Ok None => find_first_asset r asset_pattern
      end
  end.

Definition find_asset_url (rel : release) (asset_pattern : string)
    : M (option string) :=
  call (F_find_asset_url asset_pattern)
    (lift (find_first_asset (assets rel) asset_pattern)).

Definition download_file (url save_path : string) : M string :=
  call (F_download_file url save_path) (
    r <- requests_get url ;;
    raise_for_status r ;;
    open_wb save_path ;;
    write_chunks save_path 0 (chunks r) ;;
    (if interrupted r then raise (ChunkedEncodingError url) else ret tt) ;;
    ret save_path).

(** [version.parse(text)] *)
Definition version_parse (text : string) : M Version.t :=
  match Version.parse text with
  | Some v => ret v
  | None => raise (InvalidVersion text)
  end.

(** The version string of a release: [release['tag_name'].lstrip('v')]. *)
Definition remote_version_string (rel : release) : string :=
  Str.lstrip "v" (tag_name rel).

(** Lines 81 to 99 of the [try] block of [update_repository]: find the
    download link, download the new version, replace the old file.  The
    arguments are the local variables the block reads. *)
Definition download_and_replace (rel : release)
    (asset_pattern local_file repo_name : string) : M bool :=
  asset_url <- find_asset_url rel asset_pattern ;;
  match asset_url with
  | None | Some EmptyString =>
      print MsgNoAsset ;;
      ret false
  | Some asset_url =>
      print (MsgDownloading asset_url) ;;
      let temp_file := local_file +:+ ".tmp" in
      assign "temp_file" temp_file ;;
      download_file asset_url temp_file ;;
      print (MsgUpdating local_file) ;;
      e <- path_exists local_file ;;
      (if e then os_remove local_file else ret tt) ;;
      os_rename temp_file local_file ;;
      print (MsgDone repo_name) ;;
      ret true
  end.

(** The [try] block of [update_repository].  Of its local variables, the
    two that the [except] block reads, [repo_name] and [temp_file], are
    recorded in the frame when they are assigned. *)
Definition update_repository_try (repo_config : gmap string string) : M bool :=
  repo <- getitem repo_config "github_repo" ;;
  local_file <- getitem repo_config "local_file" ;;
  version_pattern <- getitem repo_config "version_pattern" ;;
  let asset_pattern := default version_pattern (repo_config !! "asset_pattern") in
  repo_name <- getitem repo_config "name" ;;
  assign "repo_name" repo_name ;;
  print (MsgChecking repo_name) ;;
  local_ver_str <- get_local_version local_file version_pattern ;;
  match local_ver_str with
  | None | Some EmptyString =>
      print (MsgNoLocalVersion local_file) ;;
      ret false
  | Some local_ver_str =>
      local_ver <- version_parse local_ver_str ;;
      print (MsgLocalVersion local_ver) ;;
      print MsgCheckingLatest ;;
      rel <- get_latest_release repo ;;
      let remote_ver_str := remote_version_string rel in
      remote_ver <- version_parse remote_ver_str ;;
      print (MsgLatestVersion remote_ver) ;;
      if Version.le remote_ver local_ver then
        print MsgUpToDate ;;
        ret true
      else
        download_and_replace rel asset_pattern local_file repo_name
  end.

(** The [except Exception as e] block of [update_repository]. *)
Definition update_repository_except (e : exn) : M bool :=
  repo_name <- load "repo_name" ;;
  print (MsgRepoError repo_name e) ;;
  bound <- in_locals "temp_file" ;;
  (if bound then
     temp_file <- load "temp_file" ;;
     ex <- path_exists temp_file ;;
     if ex then os_remove temp_file else ret tt
   else ret tt) ;;
  ret false.

Definition update_repository (repo_config : gmap string string) : M bool :=
  call (F_update_repository repo_config)
    (try_except (update_repository_try repo_config) update_repository_except).

Definition main : M unit :=
  call F_main
    (try_except
       (repositories <- load_repositories "repo.json" ;;
        print (MsgFound (length repositories)) ;;
        for_each repositories (fun repo => update_repository repo ;; ret tt) ;;
        print MsgAllDone)
       (fun e => print (MsgProgramError e))).

End Program.

(** ** Observations on a trace *)

(** The state [s] after the events [evs], the files untouched. *)
Definition logged (s : state) (evs : list event) : state :=
  {| fs := fs s; trace := (trace s ++ evs)%list |}.

(** The configurations the Orchestrator was invoked on, in order. *)
Definition invoked (tr : list event) : list (gmap string string) :=
  omap (fun e => match e with
                 | Enter (F_update_repository cfg) => Some cfg
                 | _ => None
                 end) tr.

(** The URLs requested, in order. *)
Definition requested (tr : list event) : list string :=
  omap (fun e => match e with HttpGet url => Some url | _ => None end) tr.

(** The asset patterns the Asset Resolver was called with, in order. *)
Definition resolved (tr : list event) : list string :=
  omap (fun e => match e with
                 | Enter (F_find_asset_url p) => Some p
                 | _ => None
                 end) tr.

(** The downloads started: URL and destination, in order. *)
Definition downloads (tr : list event) : list (string * string) :=
  omap (fun e => match e with
                 | Enter (F_download_file url path) => Some (url, path)
                 | _ => None
                 end) tr.

(** The changes made to the filesystem, in order. *)
Definition file_ops (tr : list event) : list event :=
  List.filter (fun e => match e with
                        | OpenW _ | WriteChunk _ _ | Remove _ | Rename _ _ => true
                        | _ => false
                        end) tr.

(** The error messages printed, in order. *)
Definition errors (tr : list event) : list message :=
  omap (fun e => match e with
                 | Print (MsgRepoError n x) => Some (MsgRepoError n x)
                 | Print (MsgProgramError x) => Some (MsgProgramError x)
                 | _ => None
                 end) tr.

(** The events of an Orchestrator turn that reaches the comparison of the
    two versions. *)
Definition compared_events (cfg : gmap string string)
    (repo local_file version_pattern repo_name : string)
    (local_ver remote_ver : Version.t) : list event :=
  [Enter (F_update_repository cfg);
   Print (MsgChecking repo_name);
   Enter (F_get_local_version local_file version_pattern);
   Print (MsgLocalVersion local_ver);
   Print MsgCheckingLatest;
   Enter (F_get_latest_release repo);
   HttpGet (api_url repo);
   Print (MsgLatestVersion remote_ver)].

(** The keys [update_repository] looks up with [repo_config[...]]. *)
Definition has_required_keys (cfg : gmap string string) : Prop :=
  is_Some (cfg !! "github_repo") /\ is_Some (cfg !! "local_file") /\
  is_Some (cfg !! "version_pattern") /\ is_Some (cfg !! "name").

(** The system does not refuse to remove the temporary file of an entry. *)
Definition cleanup_allowed `{Env} (cfg : gmap string string) : Prop :=
  forall local_file,
    cfg !! "local_file" = Some local_file ->
    remove_fails (local_file +:+ ".tmp") = false.

(** [name] is what is left of [file_path] after its last slash. *)
Definition base_name_of (file_path name : string) : Prop :=
  Str.contains "/"%char name = false /\
  (file_path = name \/ exists dir, file_path = dir +:+ "/" +:+ name).

(** ** A concrete environment

    To run the program on examples the environment has to be supplied: a
    regular-expression engine for the fragment of [re] the examples use, a
    decoder that knows the documents of the examples, a network and a disk
    given as tables. *)

Module MiniRe.

(** One character of the subject: a given character, [\d], or [.]. *)
Inductive atom : Type :=
| Lit (c : ascii)
| Digit
| Any.

(** A pattern is a sequence of atoms, each optionally followed by [+]
    (one or more) or by a star (zero or more), with at most one group
    around a part of it; the group may be followed by a question mark, and
    is then opened by [OpenOpt]. *)
Inductive tok : Type :=
| One (x : atom)
| Many (x : atom) (least : nat)
| Open
| OpenOpt
| Close.

Definition is_special (c : ascii) : bool :=
  Str.contains c "*?+[]{}|^$".

(** The repetition a character after an atom stands for, if any. *)
Definition repetition (c : ascii) : option nat :=
  if Ascii.eqb c "+" then Some 1%nat
  else if Ascii.eqb c "*" then Some 0%nat
  else None.

(** After a backslash: [d] is the digit class, a punctuation character is
    itself; the other escapes are outside the fragment. *)
Definition escaped (c : ascii) : option atom :=
  if Ascii.eqb c "d" then Some Digit
  else if Version.is_alnum c || Version.is_upper c then None
  else Some (Lit c).

Definition plain (c : ascii) : atom :=
  if Ascii.eqb c "." then Any else Lit c.

(** Whether a closing parenthesis is followed by a question mark. *)
Fixpoint optional_group (s : list ascii) : bool :=
  match s with
  | c :: r =>
      match r with
      | q :: _ => (Ascii.eqb c ")" && Ascii.eqb q "?") || optional_group r
      | [] => false
      end
  | [] => false
  end.

(** [opt]: the group is optional; [inside]: a group is open; [seen]: the
    group has been closed. *)
Fixpoint parse (opt : bool) (s : list ascii) (inside seen : bool) {struct s}
    : option (list tok) :=
  match s with
  | [] => if inside then None else Some []
  | c :: r =>
      if Ascii.eqb c "(" then
        if inside || seen then None
        else option_map (cons (if opt then OpenOpt else Open)) (parse opt r true seen)
      else if Ascii.eqb c ")" then
        if inside then
          match r with
          | q :: r1 =>
              if Ascii.eqb q "?"
              then option_map (cons Close) (parse opt r1 false true)
              else option_map (cons Close) (parse opt r false true)
          | [] => option_map (cons Close) (parse opt r false true)
          end
        else None
      else if Ascii.eqb c "\" then
        match r with
        | [] => None
        | d :: r1 =>
            match escaped d with
            | None => None
            | Some x =>
                match r1 with
                | p :: r2 =>
                    match repetition p with
                    | Some n => option_map (cons (Many x n)) (parse opt r2 inside seen)
                    | None => option_map (cons (One x)) (parse opt r1 inside seen)
                    end
                | [] => option_map (cons (One x)) (parse opt r1 inside seen)
                end
            end
        end
      else if is_special c then None
      else
        match r with
        | p :: r2 =>
            match repetition p with
            | Some n => option_map (cons (Many (plain c) n)) (parse opt r2 inside seen)
            | None => option_map (cons (One (plain c))) (parse opt r inside seen)
            end
        | [] => option_map (cons (One (plain c))) (parse opt r inside seen)
        end
  end.

Definition compile (pattern : string) : option (list tok) :=
  let s := list_ascii_of_string pattern in
  parse (optional_group s) s false false.

Definition accepts (x : atom) (c : ascii) : bool :=
  match x with
  | Lit d => Ascii.eqb c d
  | Digit => Version.is_digit c
  | Any => negb (Ascii.eqb c "010")
  end.

(** How many leading characters of [s] the atom accepts. *)
Fixpoint span (x : atom) (s : list ascii) : nat :=
  match s with
  | c :: r => if accepts x c then S (span x r) else O
  | [] => O
  end.

(** Matching at a position: [pos] characters are behind, [opened] is where
    the group started, [closed] its extent once closed; while [skipping],
    the tokens up to the end of an optional group are passed over, the
    group taking no part in the match.  An optional group is tried first
    and passed over when the rest does not match with it.  The result is
    the position after the match and the extent of the group. *)
Fixpoint matches (ts : list tok) (s : list ascii) (pos : nat)
    (opened : nat) (closed : option (nat * nat)) (skipping : bool)
    : option (nat * option (nat * nat)) :=
  match ts with
  | [] => Some (pos, closed)
  | Open :: r => matches r s pos pos closed false
  | OpenOpt :: r =>
      match matches r s pos pos closed false with
      | Some res => Some res
      | None => matches r s pos opened closed true
      end
  | Close :: r =>
      if skipping then matches r s pos opened closed false
      else matches r s pos opened (Some (opened, pos)) false
  | One x :: r =>
      if skipping then matches r s pos opened closed true
      else
        match s with
        | c :: s' =>
            if accepts x c then matches r s' (S pos) opened closed false
            else None
        | [] => None
        end
  | Many x least :: r =>
      if skipping then matches r s pos opened closed true
      else
        (fix try (k : nat) : option (nat * option (nat * nat)) :=
           match
             (if (least <=? k)%nat
              then matches r (drop k s) (pos + k) opened closed false
              else None)
           with
           | Some res => Some res
           | None =>
               match k with
               | O => None
               | S k' => try k'
               end
           end) (span x s)
  end.

(** The leftmost match at or after position [pos]. *)
Fixpoint search_from (ts : list tok) (s : list ascii) (pos : nat)
    : option (nat * (nat * option (nat * nat))) :=
  match matches ts s pos pos None false with
  | Some res => Some (pos, res)
  | None =>
      match s with
      | _ :: s' => search_from ts s' (S pos)
      | [] => None
      end
  end.

Definition slice (s : list ascii) (from to : nat) : string :=
  string_of_list_ascii (take (to - from) (drop from s)).

Definition has_group (ts : list tok) : bool :=
  existsb (fun t => match t with Open | OpenOpt => true | _ => false end) ts.

(** The groups of the leftmost match: group 0, and group 1 when the
    pattern has a group. *)
Definition search (ts : list tok) (text : string)
    : option (list (option string)) :=
  let s := list_ascii_of_string text in
  match search_from ts s 0 with
  | Some (from, (to, g)) =>
      Some (Some (slice s from to) ::
            (if has_group ts
             then [option_map (fun ab => slice s (fst ab) (snd ab)) g]
             else []))
  | None => None
  end.

End MiniRe.

Definition bytes_eqb (x y : bytes) : bool :=
  Nat.eqb (length x) (length y) &&
  forallb (fun p => Byte.eqb (fst p) (snd p)) (combine x y).

(** A decoder that knows the documents of a table. *)
Definition table_json (tbl : list (bytes * document)) (content : bytes)
    : option document :=
  option_map snd (List.find (fun e => bytes_eqb (fst e) content) tbl).

(** A network that answers the addresses of a table. *)
Definition table_net (tbl : list (string * response)) (url : string)
    : http_result :=
  match List.find (fun e => String.eqb (fst e) url) tbl with
  | Some e => Response (snd e)
  | None => Unreachable
  end.

(** An environment whose disk refuses to remove the paths of [stuck] and to
    rename the paths of [pinned]. *)
Definition faulty_env (docs : list (bytes * document))
    (web : list (string * response)) (faults : string -> disk_fault)
    (stuck pinned : list string) : Env :=
  {| regex := list MiniRe.tok;
     re_compile := MiniRe.compile;
     regex_search := MiniRe.search;
     json_loads := table_json docs;
     net := table_net web;
     disk := faults;
     remove_fails := fun p => existsb (String.eqb p) stuck;
     rename_fails := fun src _ => existsb (String.eqb src) pinned |}.

(** An environment whose disk refuses no removal and no renaming. *)
Definition mini_env (docs : list (bytes * document))
    (web : list (string * response)) (faults : string -> disk_fault) : Env :=
  faulty_env docs web faults [] [].

(** The examples: a repository [tool] whose local file is
    [tool-1.2.0.zip], and what the release API and the asset host answer. *)
Module Demo.

Definition pattern : string := "tool-(\d+\.\d+\.\d+)\.zip".

Definition tool : gmap string string :=
  {[ "name" := "tool"; "github_repo" := "acme/tool";
     "local_file" := "tool-1.2.0.zip"; "version_pattern" := pattern ]}.

(** An entry without ["name"]. *)
Definition nameless : gmap string string :=
  {[ "github_repo" := "acme/lib"; "local_file" := "lib-0.9.0.zip";
     "version_pattern" := "lib-(\d+\.\d+\.\d+)\.zip" ]}.

Definition asset_url : string := "https://example.org/tool-1.3.0.zip".

Definition release_1_3_0 : release :=
  {| tag_name := "v1.3.0";
     assets := [ {| name := "tool-1.3.0.zip";
                    browser_download_url := asset_url |} ] |}.

(** A newer release that publishes a tarball only. *)
Definition release_tarball : release :=
  {| tag_name := "v1.3.0";
     assets := [ {| name := "tool-1.3.0.tar.gz";
                    browser_download_url := "https://example.org/tool-1.3.0.tar.gz" |} ] |}.

Definition release_1_2_0 : release :=
  {| tag_name := "v1.2.0"; assets := assets release_1_3_0 |}.

Definition json_response (rel : release) : response :=
  {| status_code := 200; json_body := Some rel; chunks := [];
     interrupted := false |}.

Definition file_response (cs : list bytes) (broken : bool) : response :=
  {| status_code := 200; json_body := None; chunks := cs;
     interrupted := broken |}.

Definition old_content : bytes := [Byte.x01; Byte.x02; Byte.x00].
Definition new_chunks : list bytes := [[Byte.x01; Byte.x03]; [Byte.x00]].

(** The bytes of two configuration files (stand-ins for their JSON text)
    and the documents they decode to. *)
Definition config_tool : bytes := [Byte.x7b; Byte.x31; Byte.x7d].
Definition config_nameless_tool : bytes := [Byte.x7b; Byte.x32; Byte.x7d].

Definition docs : list (bytes * document) :=
  [ (config_tool, {[ "repositories" := [tool] ]});
    (config_nameless_tool, {[ "repositories" := [nameless; tool] ]}) ].

Definition no_fault (path : string) : disk_fault := NoFault.

(** The release 1.3.0 is out and its asset downloads. *)
Definition env_newer : Env :=
  mini_env docs
    [ (api_url "acme/tool", json_response release_1_3_0);
      (asset_url, file_response new_chunks false) ] no_fault.

(** The same, but the stream of the asset breaks after its first chunk. *)
Definition env_broken : Env :=
  mini_env docs
    [ (api_url "acme/tool", json_response release_1_3_0);
      (asset_url, file_response [[Byte.x01; Byte.x03]] true) ] no_fault.

(** The newer release has no asset that matches the pattern. *)
Definition env_tarball : Env :=
  mini_env docs [ (api_url "acme/tool", json_response release_tarball) ] no_fault.

(** The latest release is the local one. *)
Definition env_current : Env :=
  mini_env docs [ (api_url "acme/tool", json_response release_1_2_0) ] no_fault.

Definition disk_tool : state :=
  {| fs := {[ "repo.json" := config_tool; "tool-1.2.0.zip" := old_content ]};
     trace := [] |}.

Definition disk_nameless_tool : state :=
  {| fs := {[ "repo.json" := config_nameless_tool;
              "tool-1.2.0.zip" := old_content ]};
     trace := [] |}.

Definition version_1_2_0 : Version.t := Version.mk 0 [1; 2; 0] None None None None.
Definition version_1_3_0 : Version.t := Version.mk 0 [1; 3; 0] None None None None.

(** A repository the release API does not answer for. *)
Definition ghost : gmap string string :=
  {[ "name" := "ghost"; "github_repo" := "acme/ghost";
     "local_file" := "ghost-0.1.0.zip";
     "version_pattern" := "ghost-(\d+\.\d+\.\d+)\.zip" ]}.

Definition config_three : bytes := [Byte.x7b; Byte.x33; Byte.x7d].

Definition env_three : Env :=
  mini_env [ (config_three, {[ "repositories" := [tool; ghost; tool] ]}) ]
    [ (api_url "acme/tool", json_response release_1_2_0) ] no_fault.

Definition disk_three : state :=
  {| fs := {[ "repo.json" := config_three; "tool-1.2.0.zip" := old_content;
              "ghost-0.1.0.zip" := old_content ]};
     trace := [] |}.

(** A file whose name matches with an empty version. *)
Definition blank : gmap string string :=
  {[ "name" := "blank"; "github_repo" := "acme/blank";
     "local_file" := "dist/blank-.zip";
     "version_pattern" := "blank-(\d*)\.zip" ]}.

Definition disk_blank : state :=
  {| fs := {[ "dist/blank-.zip" := old_content ]}; trace := [] |}.

End Demo.

(** More examples: a pattern without a group, a file name whose version is
    not one, and a release whose tag is not a version. *)
Module DemoMore.

(** The pattern of [Demo.tool] without its group. *)
Definition groupless : gmap string string :=
  {[ "name" := "tool"; "github_repo" := "acme/tool";
     "local_file" := "tool-1.2.0.zip";
     "version_pattern" := "tool-\d+\.\d+\.\d+\.zip" ]}.

(** Whatever stands between [tool-] and [.zip] is taken as the version. *)
Definition loose : gmap string string :=
  {[ "name" := "tool"; "github_repo" := "acme/tool";
     "local_file" := "tool-latest.zip";
     "version_pattern" := "tool-(.+)\.zip" ]}.

Definition disk_loose : state :=
  {| fs := {[ "tool-latest.zip" := Demo.old_content ]}; trace := [] |}.

Definition release_nightly : release :=
  {| tag_name := "nightly"; assets := assets Demo.release_1_3_0 |}.

(** The latest release is tagged [nightly]. *)
Definition env_nightly : Env :=
  mini_env Demo.docs
    [ (api_url "acme/tool", Demo.json_response release_nightly) ] Demo.no_fault.

(** A pattern whose group is optional, and a file it matches without the
    group. *)
Definition optional_pattern : string := "tool(-\d+)?\.zip".

Definition disk_plain : state :=
  {| fs := {[ "tool.zip" := Demo.old_content ]}; trace := [] |}.

(** A newer release whose matching asset has an empty download URL. *)
Definition release_no_url : release :=
  {| tag_name := "v1.3.0";
     assets := [ {| name := "tool-1.3.0.zip"; browser_download_url := "" |} ] |}.

Definition env_no_url : Env :=
  mini_env Demo.docs
    [ (api_url "acme/tool", Demo.json_response release_no_url) ] Demo.no_fault.

(** Two entries, [tool] and [ghost]; the path of the temporary file of
    [tool] is taken by something that can neither be opened for writing nor
    removed (a directory, for instance). *)
Definition config_tool_ghost : bytes := [Byte.x7b; Byte.x34; Byte.x7d].

Definition taken (path : string) : disk_fault :=
  if String.eqb path "tool-1.2.0.zip.tmp" then OpenFails else NoFault.

Definition env_taken : Env :=
  faulty_env
    [ (config_tool_ghost, {[ "repositories" := [Demo.tool; Demo.ghost] ]}) ]
    [ (api_url "acme/tool", Demo.json_response Demo.release_1_3_0);
      (Demo.asset_url, Demo.file_response Demo.new_chunks false) ]
    taken ["tool-1.2.0.zip.tmp"] [].

Definition disk_taken : state :=
  {| fs := {[ "repo.json" := config_tool_ghost;
              "tool-1.2.0.zip" := Demo.old_content;
              "ghost-0.1.0.zip" := Demo.old_content;
              "tool-1.2.0.zip.tmp" := [] ]};
     trace := [] |}.

(** The three entries of [Demo.env_three], the release 1.3.0 being out and
    the stream of its asset breaking after the first chunk. *)
Definition env_three_broken : Env :=
  mini_env
    [ (Demo.config_three,
       {[ "repositories" := [Demo.tool; Demo.ghost; Demo.tool] ]}) ]
    [ (api_url "acme/tool", Demo.json_response Demo.release_1_3_0);
      (Demo.asset_url, Demo.file_response [[Byte.x01; Byte.x03]] true) ]
    Demo.no_fault.

(** The release 1.3.0 downloads, and the system refuses to remove the old
    file of [tool], or to rename its temporary file. *)
Definition env_old_file_stuck : Env :=
  faulty_env Demo.docs
    [ (api_url "acme/tool", Demo.json_response Demo.release_1_3_0);
      (Demo.asset_url, Demo.file_response Demo.new_chunks false) ]
    Demo.no_fault ["tool-1.2.0.zip"] [].

(** Three entries, the second of which has no ["name"]; the latest release
    of [tool] is the local one. *)
Definition config_tool_nameless_ghost : bytes := [Byte.x7b; Byte.x35; Byte.x7d].

Definition env_middle_nameless : Env :=
  mini_env
    [ (config_tool_nameless_ghost,
       {[ "repositories" := [Demo.tool; Demo.nameless; Demo.ghost] ]}) ]
    [ (api_url "acme/tool", Demo.json_response Demo.release_1_2_0) ]
    Demo.no_fault.

Definition disk_middle_nameless : state :=
  {| fs := {[ "repo.json" := config_tool_nameless_ghost;
              "tool-1.2.0.zip" := Demo.old_content;
              "ghost-0.1.0.zip" := Demo.old_content ]};
     trace := [] |}.

Definition env_pinned : Env :=
  faulty_env Demo.docs
    [ (api_url "acme/tool", Demo.json_response Demo.release_1_3_0);
      (Demo.asset_url, Demo.file_response Demo.new_chunks false) ]
    Demo.no_fault [] ["tool-1.2.0.zip.tmp"].

End DemoMore.

(** * Properties *)

(** ** Lexicographic comparisons are total orders *)

Module CmpFacts.

Import Cmp.

Lemma lawful_refl {A : Type} (c : A -> A -> comparison) `{!Lawful c} x :
  c x x = Eq.
Proof. by apply cmp_eq. Qed.

#[export] Instance Z_lawful : Lawful Z.compare.
Proof.
  split.
  - apply Z.compare_eq_iff.
  - intros x y. apply Z.compare_antisym.
  - intros x y z. rewrite !Z.compare_lt_iff. lia.
Qed.

#[export] Instance ascii_lawful : Lawful ascii_cmp.
Proof.
  unfold ascii_cmp. split.
  - intros x y. rewrite N.compare_eq_iff. split; [|congruence].
    intros E. rewrite <- (ascii_N_embedding x), <- (ascii_N_embedding y).
    by rewrite E.
  - intros x y. apply N.compare_antisym.
  - intros x y z. rewrite !N.compare_lt_iff. lia.
Qed.

#[export] Instance pair_lawful {A B : Type} (ca : A -> A -> comparison)
    (cb : B -> B -> comparison) `{!Lawful ca, !Lawful cb} :
  Lawful (pair_cmp ca cb).
Proof.
  unfold pair_cmp. split.
  - intros [x1 x2] [y1 y2]; simpl. destruct (ca x1 y1) eqn:E.
    + apply cmp_eq in E as ->. rewrite (cmp_eq (cmp := cb)).
      split; [by intros -> | by inversion 1].
    + split; [done | inversion 1; subst].
      rewrite (lawful_refl ca) in E. done.
    + split; [done | inversion 1; subst].
      rewrite (lawful_refl ca) in E. done.
  - intros [x1 x2] [y1 y2]; simpl.
    rewrite (cmp_opp (cmp := ca) x1 y1). destruct (ca x1 y1); simpl; [|done..].
    apply cmp_opp.
  - intros [x1 x2] [y1 y2] [z1 z2]; simpl.
    destruct (ca x1 y1) eqn:E1; [| |done].
    + apply cmp_eq in E1 as ->. destruct (ca y1 z1); [|done..].
      apply cmp_lt_trans.
    + intros _. destruct (ca y1 z1) eqn:E2; [| |done].
      * apply cmp_eq in E2 as ->. by rewrite E1.
      * by rewrite (cmp_lt_trans _ _ _ E1 E2).
Qed.

#[export] Instance list_lawful {A : Type} (c : A -> A -> comparison)
    `{!Lawful c} :
  Lawful (list_cmp c).
Proof.
  split.
  - induction x as [|x1 x IH]; intros [|y1 y]; simpl; try done.
    destruct (c x1 y1) eqn:E.
    + apply cmp_eq in E as ->. rewrite IH.
      split; [by intros -> | by inversion 1].
    + split; [done | inversion 1; subst]. by rewrite (lawful_refl c) in E.
    + split; [done | inversion 1; subst]. by rewrite (lawful_refl c) in E.
  - induction x as [|x1 x IH]; intros [|y1 y]; simpl; try done.
    rewrite (cmp_opp (cmp := c) x1 y1). destruct (c x1 y1); simpl; [|done..].
    apply IH.
  - induction x as [|x1 x IH]; intros [|y1 y] [|z1 z]; simpl; try done.
    destruct (c x1 y1) eqn:E1; [| |done].
    + apply cmp_eq in E1 as ->. destruct (c y1 z1); [|done..]. apply IH.
    + intros _. destruct (c y1 z1) eqn:E2; [| |done].
      * apply cmp_eq in E2 as ->. by rewrite E1.
      * by rewrite (cmp_lt_trans _ _ _ E1 E2).
Qed.

#[export] Instance option_lawful {A : Type} (c : A -> A -> comparison)
    `{!Lawful c} :
  Lawful (option_cmp c).
Proof.
  split.
  - intros [x|] [y|]; simpl; try done.
    rewrite (cmp_eq (cmp := c)). split; [by intros -> | by inversion 1].
  - intros [x|] [y|]; simpl; try done. apply cmp_opp.
  - intros [x|] [y|] [z|]; simpl; try done. apply cmp_lt_trans.
Qed.

Lemma list_ascii_of_string_inj s1 s2 :
  list_ascii_of_string s1 = list_ascii_of_string s2 -> s1 = s2.
Proof.
  intros E. rewrite <- (string_of_list_ascii_of_string s1),
    <- (string_of_list_ascii_of_string s2). by rewrite E.
Qed.

#[export] Instance str_lawful : Lawful str_cmp.
Proof.
  unfold str_cmp. split.
  - intros x y. rewrite (cmp_eq (cmp := list_cmp ascii_cmp)).
    split; [apply list_ascii_of_string_inj | congruence].
  - intros x y. apply (cmp_opp (cmp := list_cmp ascii_cmp)).
  - intros x y z. apply (cmp_lt_trans (cmp := list_cmp ascii_cmp)).
Qed.

End CmpFacts.

Module VersionFacts.

Import Cmp CmpFacts Version.

#[export] Instance key_lawful : Lawful key_cmp.
Proof. unfold key_cmp. apply _. Qed.

Lemma le_refl v : le v v = true.
Proof. unfold le, compare. by rewrite (lawful_refl key_cmp). Qed.

Lemma le_total v w : le v w = true \/ le w v = true.
Proof.
  unfold le, compare.
  rewrite (cmp_opp (cmp := key_cmp) (_cmpkey v) (_cmpkey w)).
  destruct (key_cmp (_cmpkey v) (_cmpkey w)); simpl; auto.
Qed.

Lemma le_antisym v w :
  le v w = true -> le w v = true -> _cmpkey v = _cmpkey w /\ eq v w = true.
Proof.
  unfold le, eq, compare.
  rewrite (cmp_opp (cmp := key_cmp) (_cmpkey v) (_cmpkey w)).
  destruct (key_cmp (_cmpkey v) (_cmpkey w)) eqn:E; simpl; try done.
  apply cmp_eq in E. done.
Qed.

Lemma le_trans u v w : le u v = true -> le v w = true -> le u w = true.
Proof.
  unfold le, compare. intros H1 H2.
  destruct (key_cmp (_cmpkey u) (_cmpkey v)) eqn:E1; [| |done].
  - apply cmp_eq in E1 as ->. done.
  - destruct (key_cmp (_cmpkey v) (_cmpkey w)) eqn:E2; [| |done].
    + apply cmp_eq in E2 as <-. by rewrite E1.
    + by rewrite (cmp_lt_trans _ _ _ E1 E2).
Qed.

Lemma gt_not_le v w : gt v w = negb (le v w).
Proof. unfold gt, le. by destruct (compare v w). Qed.

Lemma lt_gt v w : lt v w = gt w v.
Proof.
  unfold lt, gt, compare.
  rewrite (cmp_opp (cmp := key_cmp) (_cmpkey v) (_cmpkey w)).
  by destruct (key_cmp (_cmpkey v) (_cmpkey w)).
Qed.

Lemma eq_le_le v w : eq v w = le v w && le w v.
Proof.
  unfold eq, le, compare.
  rewrite (cmp_opp (cmp := key_cmp) (_cmpkey v) (_cmpkey w)).
  by destruct (key_cmp (_cmpkey v) (_cmpkey w)).
Qed.

End VersionFacts.

(** C9: the version comparison the Orchestrator uses is a total order (on
    versions up to [==], which compares keys), it compares plain releases by
    their numeric segments, and "2.10.0" > "2.9.9", "1.0.0" == "1.0.0",
    "1.0.0-rc1" < "1.0.0". *)
Theorem C9_version_comparison_total_order :
  (forall v, Version.le v v = true) /\
  (forall v w, Version.le v w = true \/ Version.le w v = true) /\
  (forall v w, Version.le v w && Version.le w v = Version.eq v w) /\
  (forall u v w,
     Version.le u v && Version.le v w && negb (Version.le u w) = false) /\
  (forall v w, Version.gt v w = negb (Version.le v w)) /\
  (forall v w, Version.lt v w = Version.gt w v) /\
  (forall e r1 r2,
     Version.compare (Version.mk e r1 None None None None)
                     (Version.mk e r2 None None None None)
     = Cmp.list_cmp Z.compare (Version.trim r1) (Version.trim r2)) /\
  Version.compare_str "2.10.0" "2.9.9" = Some Gt /\
  Version.compare_str "1.0.0" "1.0.0" = Some Eq /\
  Version.compare_str "1.0.0-rc1" "1.0.0" = Some Lt.
Proof.
  repeat apply conj.
  - apply VersionFacts.le_refl.
  - apply VersionFacts.le_total.
  - intros v w. symmetry. apply VersionFacts.eq_le_le.
  - intros u v w.
    destruct (Version.le u v) eqn:E1; [|done].
    destruct (Version.le v w) eqn:E2; [|done].
    by rewrite (VersionFacts.le_trans u v w E1 E2).
  - apply VersionFacts.gt_not_le.
  - apply VersionFacts.lt_gt.
  - intros e r1 r2. unfold Version.compare, Version.key_cmp, Cmp.pair_cmp; simpl.
    rewrite Z.compare_refl.
    by destruct (Cmp.list_cmp Z.compare (Version.trim r1) (Version.trim r2)).
  - vm_compute. reflexivity.
  - vm_compute. reflexivity.
  - vm_compute. reflexivity.
Qed.

(** ** Strings and paths *)

Module StrFacts.

Import Str.

Local Arguments Ascii.eqb : simpl never.

Lemma lstrip_v_unfold c r :
  lstrip "v" (String c r) = if Ascii.eqb c "v" then lstrip "v" r else String c r.
Proof. simpl. by destruct (Ascii.eqb c "v"). Qed.

(** [lstrip('v')] removes the whole run of leading [v]s. *)
Lemma lstrip_v_spec tag :
  exists n, tag = replicate n "v" +:+ lstrip "v" tag /\
            startswith "v" (lstrip "v" tag) = false.
Proof.
  induction tag as [|c r [n [E1 E2]]].
  - by exists 0%nat.
  - rewrite lstrip_v_unfold. destruct (Ascii.eqb c "v") eqn:E.
    + apply Ascii.eqb_eq in E as ->. exists (S n). split; [|done].
      change (replicate (S n) "v" +:+ lstrip "v" r)
        with (String "v" (replicate n "v" +:+ lstrip "v" r)).
      by rewrite <- E1.
    + exists 0%nat. split; [done|]. simpl.
      rewrite Ascii.eqb_sym. by rewrite E.
Qed.

(** With at most one leading [v], [lstrip('v')] removes exactly that one. *)
Lemma lstrip_v_single tag :
  startswith "vv" tag = false -> lstrip "v" tag = remove_one "v" tag.
Proof.
  destruct tag as [|c r]; [done|]. intros Hvv.
  rewrite lstrip_v_unfold. simpl. rewrite (Ascii.eqb_sym "v" c).
  destruct (Ascii.eqb c "v") eqn:E; [|done].
  apply Ascii.eqb_eq in E as ->.
  destruct r as [|d r]; [done|]. rewrite lstrip_v_unfold.
  simpl in Hvv. rewrite (Ascii.eqb_sym "v" d) in Hvv.
  by destruct (Ascii.eqb d "v").
Qed.

Lemma length_append s1 s2 :
  String.length (s1 +:+ s2) = (String.length s1 + String.length s2)%nat.
Proof. induction s1 as [|c r IH]; simpl; [done | by rewrite IH]. Qed.

Lemma tmp_suffix_ne p : p +:+ ".tmp" <> p.
Proof.
  intros E. apply (f_equal String.length) in E.
  rewrite length_append in E. simpl in E. lia.
Qed.

Lemma contains_slash_basename p : contains "/" (OsPath.basename p) = false.
Proof.
  induction p as [|c r IH]; [done|]. simpl.
  destruct (contains "/" r) eqn:E; [done|].
  destruct (Ascii.eqb c "/") eqn:E2; [done|]. simpl.
  rewrite Ascii.eqb_sym. by rewrite E2.
Qed.

(** A path is a directory part, ending in a slash when not empty, followed
    by its base name. *)
Lemma basename_suffix p : exists d, p = d +:+ OsPath.basename p.
Proof.
  induction p as [|c r [d IH]]; [by exists ""|]. simpl.
  destruct (contains "/" r).
  - exists (String c d).
    change (String c r = String c (d +:+ OsPath.basename r)).
    by rewrite <- IH.
  - destruct (Ascii.eqb c "/"); [by exists (String c "") | by exists ""].
Qed.

Lemma contains_append c s1 s2 :
  contains c (s1 +:+ s2) = contains c s1 || contains c s2.
Proof.
  induction s1 as [|d s1 IH]; [done|].
  change (String d s1 +:+ s2) with (String d (s1 +:+ s2)).
  cbn [contains]. rewrite IH. by destruct (Ascii.eqb c d).
Qed.

Lemma basename_no_slash name :
  contains "/" name = false -> OsPath.basename name = name.
Proof.
  destruct name as [|c r]; [done|]. cbn [contains OsPath.basename].
  destruct (Ascii.eqb "/" c) eqn:E; [done|]. intros ->.
  rewrite Ascii.eqb_sym in E. by rewrite E.
Qed.

Lemma basename_join dir name :
  contains "/" name = false -> OsPath.basename (dir +:+ "/" +:+ name) = name.
Proof.
  intros Hname. induction dir as [|c dir IH].
  - change ("" +:+ "/" +:+ name) with (String "/" name).
    cbn [OsPath.basename]. by rewrite Hname.
  - change (String c dir +:+ "/" +:+ name)
      with (String c (dir +:+ "/" +:+ name)).
    cbn [OsPath.basename]. rewrite contains_append.
    change ("/" +:+ name) with (String "/" name). cbn [contains].
    rewrite Ascii.eqb_refl. by rewrite orb_true_r.
Qed.

(** The base name of a path is what [os.path.basename] returns. *)
Lemma basename_of file_path name :
  base_name_of file_path name -> OsPath.basename file_path = name.
Proof.
  intros [Hname [-> | [dir ->]]].
  - by apply basename_no_slash.
  - by apply basename_join.
Qed.

End StrFacts.

(** ** Observations distribute over a trace *)

Module TraceFacts.

Lemma invoked_app l1 l2 : invoked (l1 ++ l2) = (invoked l1 ++ invoked l2)%list.
Proof. apply omap_app. Qed.

Lemma requested_app l1 l2 :
  requested (l1 ++ l2) = (requested l1 ++ requested l2)%list.
Proof. apply omap_app. Qed.

Lemma resolved_app l1 l2 :
  resolved (l1 ++ l2) = (resolved l1 ++ resolved l2)%list.
Proof. apply omap_app. Qed.

Lemma downloads_app l1 l2 :
  downloads (l1 ++ l2) = (downloads l1 ++ downloads l2)%list.
Proof. apply omap_app. Qed.

Lemma errors_app l1 l2 : errors (l1 ++ l2) = (errors l1 ++ errors l2)%list.
Proof. apply omap_app. Qed.

Lemma file_ops_app l1 l2 :
  file_ops (l1 ++ l2) = (file_ops l1 ++ file_ops l2)%list.
Proof. apply List.filter_app. Qed.

Lemma invoked_cons e l : invoked (e :: l) = (invoked [e] ++ invoked l)%list.
Proof. apply (invoked_app [e] l). Qed.

Lemma requested_cons e l :
  requested (e :: l) = (requested [e] ++ requested l)%list.
Proof. apply (requested_app [e] l). Qed.

Lemma resolved_cons e l : resolved (e :: l) = (resolved [e] ++ resolved l)%list.
Proof. apply (resolved_app [e] l). Qed.

Lemma downloads_cons e l :
  downloads (e :: l) = (downloads [e] ++ downloads l)%list.
Proof. apply (downloads_app [e] l). Qed.

Lemma errors_cons e l : errors (e :: l) = (errors [e] ++ errors l)%list.
Proof. apply (errors_app [e] l). Qed.

Lemma file_ops_cons e l : file_ops (e :: l) = (file_ops [e] ++ file_ops l)%list.
Proof. apply (file_ops_app [e] l). Qed.

End TraceFacts.

(** Splits an observation of a trace into the observations of its parts. *)
Ltac split_trace :=
  repeat first
    [ rewrite TraceFacts.invoked_app | rewrite TraceFacts.requested_app
    | rewrite TraceFacts.resolved_app | rewrite TraceFacts.downloads_app
    | rewrite TraceFacts.errors_app | rewrite TraceFacts.file_ops_app
    | progress
        match goal with
        | |- context [invoked (?e :: ?l)] =>
            lazymatch l with [] => fail | _ => rewrite (TraceFacts.invoked_cons e l) end
        | |- context [requested (?e :: ?l)] =>
            lazymatch l with [] => fail | _ => rewrite (TraceFacts.requested_cons e l) end
        | |- context [resolved (?e :: ?l)] =>
            lazymatch l with [] => fail | _ => rewrite (TraceFacts.resolved_cons e l) end
        | |- context [downloads (?e :: ?l)] =>
            lazymatch l with [] => fail | _ => rewrite (TraceFacts.downloads_cons e l) end
        | |- context [errors (?e :: ?l)] =>
            lazymatch l with [] => fail | _ => rewrite (TraceFacts.errors_cons e l) end
        | |- context [file_ops (?e :: ?l)] =>
            lazymatch l with [] => fail | _ => rewrite (TraceFacts.file_ops_cons e l) end
        end ].

(** ** The functions of the program, one by one *)

Section StepFacts.

Context `{Env}.

Lemma logged_logged s evs1 evs2 :
  logged (logged s evs1) evs2 = logged s (evs1 ++ evs2)%list.
Proof. unfold logged; simpl. by rewrite <- app_assoc. Qed.

(** The Local Version Extractor looks at whether the file exists and at
    the base name, and changes nothing. *)
Lemma get_local_version_eq file_path version_pattern f s :
  get_local_version file_path version_pattern f s =
  ((if bool_decide (is_Some (fs s !! file_path)) then
      match re_search version_pattern (OsPath.basename file_path) with
      | Ok (Some groups) => group groups 1
      | Ok None => Ok None
      | Raise e => Raise e
      end
    else Ok None),
   f, logged s [Enter (F_get_local_version file_path version_pattern)]).
Proof.
  unfold get_local_version, call, bind, path_exists, lift, logged; simpl.
  case_bool_decide; simpl; [|done].
  by destruct (re_search _ _) as [[gs|]|e].
Qed.

(** What the Release Fetcher returns depends on the network only. *)
Lemma get_latest_release_eq repo :
  exists outcome, forall f s,
    get_latest_release repo f s =
    (outcome, f,
     logged s [Enter (F_get_latest_release repo); HttpGet (api_url repo)]).
Proof.
  unfold get_latest_release, call, bind, requests_get, emit, logged; simpl.
  destruct (net (api_url repo)) as [|r]; simpl.
  { eexists. intros f s. rewrite <- app_assoc. reflexivity. }
  unfold raise_for_status, response_json.
  destruct (_ && _); simpl.
  { eexists. intros f s. rewrite <- app_assoc. reflexivity. }
  destruct (json_body r); simpl.
  all: eexists; intros f s; rewrite <- app_assoc; reflexivity.
Qed.

Lemma find_asset_url_eq rel asset_pattern f s :
  find_asset_url rel asset_pattern f s =
  (find_first_asset (assets rel) asset_pattern, f,
   logged s [Enter (F_find_asset_url asset_pattern)]).
Proof. reflexivity. Qed.

(** Writing chunks: some number [k] of them reach the file before a fault,
    all of them when there is none. *)
Lemma write_chunks_spec path cs :
  forall i, exists k,
    (k <= length cs)%nat /\
    forall f s c,
      fs s !! path = Some c ->
      write_chunks path i cs f s =
      ((if Nat.eqb k (length cs) then Ok tt else Raise (OSError path)), f,
       {| fs := <[path := (c ++ concat (take k cs))%list]> (fs s);
          trace := (trace s ++ map (WriteChunk path) (take k cs))%list |}).
Proof.
  induction cs as [|c1 cs IH]; intros i.
  - exists 0%nat. split; [done|]. intros f s c Hc. simpl. unfold ret.
    rewrite !app_nil_r. rewrite insert_id by done. by destruct s.
  - destruct (IH (S i)) as [k [Hk IHk]].
    assert (Hwrite : forall f s c,
      fs s !! path = Some c ->
      bind (fun f s =>
              (Ok tt, f,
               {| fs := <[path := (default [] (fs s !! path) ++ c1)%list]> (fs s);
                  trace := (trace s ++ [WriteChunk path c1])%list |}))
           (fun _ => write_chunks path (S i) cs) f s =
      ((if Nat.eqb (S k) (length (c1 :: cs)) then Ok tt else Raise (OSError path)), f,
       {| fs := <[path := (c ++ concat (take (S k) (c1 :: cs)))%list]> (fs s);
          trace := (trace s ++ map (WriteChunk path) (take (S k) (c1 :: cs)))%list |})).
    { intros f s c Hc. unfold bind. rewrite Hc. simpl.
      rewrite (IHk _ _ (c ++ c1)%list) by (simpl; apply lookup_insert_eq).
      simpl. rewrite insert_insert_eq. by rewrite <- !app_assoc. }
    simpl. unfold file_write.
    destruct (disk path) as [| |n] eqn:Hd.
    + exists (S k). split; [simpl; lia | exact Hwrite].
    + exists (S k). split; [simpl; lia | exact Hwrite].
    + destruct (Nat.eqb n i) eqn:Hn.
      * exists 0%nat. split; [simpl; lia|]. intros f s c Hc.
        unfold bind, raise. simpl. rewrite !app_nil_r.
        rewrite insert_id by done. by destruct s.
      * exists (S k). split; [simpl; lia | exact Hwrite].
Qed.

(** The Downloader: its outcome depends on the network and the disk only;
    it touches no file but its destination, which it leaves absent
    ([None]: nothing was opened), partial or complete. *)
Lemma download_file_spec url path :
  exists (outcome : result string) (written : option bytes) (ops : list event),
    (forall f s,
       download_file url path f s =
       (outcome, f,
        {| fs := match written with
                 | Some content => <[path := content]> (fs s)
                 | None => fs s
                 end;
           trace := (trace s ++
                     Enter (F_download_file url path) :: HttpGet url :: ops)%list |})) /\
    (match written with
     | Some _ =>
         exists r k, net url = Response r /\
                     ops = OpenW path :: map (WriteChunk path) (take k (chunks r))
     | None => ops = []
     end) /\
    (forall x, outcome = Ok x ->
       x = path /\
       exists r, net url = Response r /\
                 written = Some (concat (chunks r)) /\
                 ops = OpenW path :: map (WriteChunk path) (chunks r)).
Proof.
  destruct (net url) as [|r] eqn:Hnet.
  { exists (Raise (ConnectionError url)), None, []. split; [|done].
    intros f s. unfold download_file, call, bind, requests_get, emit; simpl.
    rewrite Hnet. simpl. by rewrite <- app_assoc. }
  destruct ((400 <=? status_code r) && (status_code r <? 600))%Z eqn:Hst.
  { exists (Raise (HTTPError (status_code r))), None, []. split; [|done].
    intros f s.
    unfold download_file, call, bind, requests_get, emit, raise_for_status.
    simpl. rewrite Hnet. simpl. rewrite Hst. simpl. by rewrite <- app_assoc. }
  destruct (decide (disk path = OpenFails)) as [Hd|Hd].
  { exists (Raise (OSError path)), None, []. split; [|done].
    intros f s.
    unfold download_file, call, bind, requests_get, emit, raise_for_status,
      open_wb.
    simpl. rewrite Hnet. simpl. rewrite Hst. simpl. rewrite Hd. simpl.
    by rewrite <- app_assoc. }
  destruct (write_chunks_spec path (chunks r) 0) as [k [Hk Hw]].
  exists (if Nat.eqb k (length (chunks r))
          then if interrupted r then Raise (ChunkedEncodingError url) else Ok path
          else Raise (OSError path)),
         (Some (concat (take k (chunks r)))),
         (OpenW path :: map (WriteChunk path) (take k (chunks r))).
  split; [|split].
  - intros f s.
    unfold download_file, call, bind, requests_get, emit, raise_for_status,
      open_wb.
    simpl. rewrite Hnet. simpl. rewrite Hst. simpl.
    assert (Hopen : forall g t,
      match disk path with
      | OpenFails => raise (OSError path)
      | _ =>
          fun f0 s0 =>
            (Ok tt, f0,
             {| fs := <[path := []]> (fs s0);
                trace := (trace s0 ++ [OpenW path])%list |})
      end g t =
      (Ok tt, g,
       {| fs := <[path := []]> (fs t); trace := (trace t ++ [OpenW path])%list |})).
    { intros g t. by destruct (disk path). }
    rewrite Hopen. simpl.
    rewrite (Hw _ _ []) by (simpl; apply lookup_insert_eq). simpl.
    rewrite insert_insert_eq. rewrite <- !app_assoc. simpl.
    destruct (Nat.eqb k (length (chunks r))); [|done].
    by destruct (interrupted r).
  - by exists r, k.
  - intros x Hx.
    destruct (Nat.eqb k (length (chunks r))) eqn:Ek; [|done].
    apply Nat.eqb_eq in Ek. destruct (interrupted r); [done|].
    inversion Hx; subst x. split; [done|]. exists r.
    by rewrite Ek, firstn_all.
Qed.

(** The [except] block, once [repo_name] is assigned: it prints the error,
    removes the temporary file when [temp_file] is assigned and the file
    exists, and returns [False]; when the removal is refused, the exception
    of [os.remove] leaves the block. *)
Lemma update_repository_except_bound e f s nm :
  f !! "repo_name" = Some nm ->
  update_repository_except e f s =
  match f !! "temp_file" with
  | Some tmp =>
      if bool_decide (is_Some (fs s !! tmp))
      then
        if remove_fails tmp
        then (Raise (OSError tmp), f, logged s [Print (MsgRepoError nm e)])
        else
          (Ok false, f,
           {| fs := delete tmp (fs s);
              trace := (trace s ++ [Print (MsgRepoError nm e); Remove tmp])%list |})
      else (Ok false, f, logged s [Print (MsgRepoError nm e)])
  | None => (Ok false, f, logged s [Print (MsgRepoError nm e)])
  end.
Proof.
  intros Hnm.
  unfold update_repository_except, bind, load, print, emit, in_locals,
    path_exists, os_remove, ret, logged. rewrite Hnm. simpl.
  destruct (f !! "temp_file") as [tmp|] eqn:Ht; simpl.
  - rewrite Ht. simpl.
    case_bool_decide as Hex; simpl.
    + destruct Hex as [c Hc]. rewrite Hc.
      destruct (remove_fails tmp); [done|]. by rewrite <- app_assoc.
    + done.
  - done.
Qed.

(** Before [repo_name] is assigned the [except] block itself raises. *)
Lemma update_repository_except_unbound e f s :
  f !! "repo_name" = None ->
  update_repository_except e f s = (Raise (NameError "repo_name"), f, s).
Proof.
  intros Hnm. unfold update_repository_except, bind, load. by rewrite Hnm.
Qed.

End StepFacts.

(** ** The Orchestrator, path by path *)

Section OrchestratorFacts.

Context `{Env}.

Local Arguments Version.parse : simpl never.
Local Arguments Version.le : simpl never.
Local Arguments OsPath.basename : simpl never.
Local Arguments api_url : simpl never.
Local Arguments remote_version_string : simpl never.
Local Arguments String.append : simpl never.
Local Arguments update_repository_except : simpl never.

Variable cfg : gmap string string.
Variables repo local_file version_pattern repo_name : string.
Hypothesis Hrepo : cfg !! "github_repo" = Some repo.
Hypothesis Hfile : cfg !! "local_file" = Some local_file.
Hypothesis Hpattern : cfg !! "version_pattern" = Some version_pattern.
Hypothesis Hname : cfg !! "name" = Some repo_name.

(** No usable local version: the turn fails before anything is fetched. *)
Lemma update_repository_no_local_version s o f :
  fst (run (get_local_version local_file version_pattern) s) = Ok o ->
  o = None \/ o = Some "" ->
  update_repository cfg f s =
  (Ok false, f,
   logged s [Enter (F_update_repository cfg);
             Print (MsgChecking repo_name);
             Enter (F_get_local_version local_file version_pattern);
             Print (MsgNoLocalVersion local_file)]).
Proof.
  unfold run. rewrite get_local_version_eq. simpl. intros Hlocal Ho.
  unfold update_repository, call, try_except, update_repository_try.
  unfold bind, getitem. rewrite Hrepo, Hfile, Hpattern, Hname. simpl.
  rewrite get_local_version_eq. simpl. rewrite Hlocal. unfold logged. simpl.
  destruct Ho as [-> | ->]; simpl; by rewrite <- !app_assoc.
Qed.

(** A turn that extracts the local version and fetches the release reaches
    the comparison; it is over there when the remote version is not
    greater, and goes on to lines 81 to 99 when it is. *)
Lemma update_repository_compared s v local_ver rel remote_ver f :
  fst (run (get_local_version local_file version_pattern) s) = Ok (Some v) ->
  v <> "" ->
  Version.parse v = Some local_ver ->
  fst (run (get_latest_release repo) s) = Ok rel ->
  Version.parse (remote_version_string rel) = Some remote_ver ->
  let s1 := logged s (compared_events cfg repo local_file version_pattern
                        repo_name local_ver remote_ver) in
  update_repository cfg f s =
  if Version.le remote_ver local_ver
  then (Ok true, f, logged s1 [Print MsgUpToDate])
  else
    match
      try_except
        (download_and_replace rel
           (default version_pattern (cfg !! "asset_pattern"))
           local_file repo_name)
        update_repository_except {["repo_name" := repo_name]} s1
    with
    | (r, _, s') => (r, f, s')
    end.
Proof.
  unfold run. rewrite get_local_version_eq. simpl.
  destruct (get_latest_release_eq repo) as [outcome Hget].
  rewrite Hget. simpl. intros Hlocal Hv Hlv -> Hrv.
  unfold update_repository, call, try_except, update_repository_try.
  unfold bind, getitem. rewrite Hrepo, Hfile, Hpattern, Hname. simpl.
  rewrite get_local_version_eq. simpl. rewrite Hlocal.
  destruct v as [|c v]; [done|]. simpl.
  unfold version_parse. rewrite Hlv. simpl.
  rewrite Hget. simpl. rewrite Hrv. simpl.
  unfold logged, compared_events. simpl. rewrite <- !app_assoc. simpl.
  destruct (Version.le remote_ver local_ver); simpl.
  - by rewrite <- !app_assoc.
  - reflexivity.
Qed.

Ltac enter_try :=
  unfold update_repository, call, try_except, update_repository_try;
  unfold bind, getitem; rewrite Hrepo, Hfile, Hpattern, Hname; simpl;
  rewrite get_local_version_eq; simpl.

Ltac leave_except :=
  simpl;
  rewrite (update_repository_except_bound _ _ _ repo_name)
    by apply lookup_insert_eq;
  rewrite lookup_insert_ne by done; rewrite lookup_empty;
  unfold logged; simpl; by rewrite <- !app_assoc.

(** The extractor raises (the pattern is not a regular expression, or has
    no group): the turn fails. *)
Lemma update_repository_extractor_raises s e f :
  fst (run (get_local_version local_file version_pattern) s) = Raise e ->
  update_repository cfg f s =
  (Ok false, f,
   logged s [Enter (F_update_repository cfg);
             Print (MsgChecking repo_name);
             Enter (F_get_local_version local_file version_pattern);
             Print (MsgRepoError repo_name e)]).
Proof.
  unfold run. rewrite get_local_version_eq. simpl. intros Hlocal.
  enter_try. rewrite Hlocal. leave_except.
Qed.

(** The local version is not a version: the turn fails. *)
Lemma update_repository_local_invalid s v f :
  fst (run (get_local_version local_file version_pattern) s) = Ok (Some v) ->
  v <> "" ->
  Version.parse v = None ->
  update_repository cfg f s =
  (Ok false, f,
   logged s [Enter (F_update_repository cfg);
             Print (MsgChecking repo_name);
             Enter (F_get_local_version local_file version_pattern);
             Print (MsgRepoError repo_name (InvalidVersion v))]).
Proof.
  unfold run. rewrite get_local_version_eq. simpl. intros Hlocal Hv Hlv.
  enter_try. rewrite Hlocal. destruct v as [|c v]; [done|]. simpl.
  unfold version_parse. rewrite Hlv. leave_except.
Qed.

(** The release cannot be fetched: the turn fails. *)
Lemma update_repository_fetch_fails s v local_ver e f :
  fst (run (get_local_version local_file version_pattern) s) = Ok (Some v) ->
  v <> "" ->
  Version.parse v = Some local_ver ->
  fst (run (get_latest_release repo) s) = Raise e ->
  update_repository cfg f s =
  (Ok false, f,
   logged s [Enter (F_update_repository cfg);
             Print (MsgChecking repo_name);
             Enter (F_get_local_version local_file version_pattern);
             Print (MsgLocalVersion local_ver);
             Print MsgCheckingLatest;
             Enter (F_get_latest_release repo);
             HttpGet (api_url repo);
             Print (MsgRepoError repo_name e)]).
Proof.
  unfold run. rewrite get_local_version_eq. simpl.
  destruct (get_latest_release_eq repo) as [outcome Hget].
  rewrite Hget. simpl. intros Hlocal Hv Hlv ->.
  enter_try. rewrite Hlocal. destruct v as [|c v]; [done|]. simpl.
  unfold version_parse. rewrite Hlv. simpl. rewrite Hget. leave_except.
Qed.

(** The tag of the release is not a version: the turn fails. *)
Lemma update_repository_remote_invalid s v local_ver rel f :
  fst (run (get_local_version local_file version_pattern) s) = Ok (Some v) ->
  v <> "" ->
  Version.parse v = Some local_ver ->
  fst (run (get_latest_release repo) s) = Ok rel ->
  Version.parse (remote_version_string rel) = None ->
  update_repository cfg f s =
  (Ok false, f,
   logged s [Enter (F_update_repository cfg);
             Print (MsgChecking repo_name);
             Enter (F_get_local_version local_file version_pattern);
             Print (MsgLocalVersion local_ver);
             Print MsgCheckingLatest;
             Enter (F_get_latest_release repo);
             HttpGet (api_url repo);
             Print (MsgRepoError repo_name
                      (InvalidVersion (remote_version_string rel)))]).
Proof.
  unfold run. rewrite get_local_version_eq. simpl.
  destruct (get_latest_release_eq repo) as [outcome Hget].
  rewrite Hget. simpl. intros Hlocal Hv Hlv -> Hrv.
  enter_try. rewrite Hlocal. destruct v as [|c v]; [done|]. simpl.
  unfold version_parse. rewrite Hlv. simpl. rewrite Hget. simpl.
  rewrite Hrv. leave_except.
Qed.

End OrchestratorFacts.

(** ** Lines 81 to 99: resolve, download, replace *)

Section ReplaceFacts.

Context `{Env}.

Local Arguments String.append : simpl never.
Local Arguments update_repository_except : simpl never.

Lemma filter_longer {A : Type} (p : A -> bool) x l : List.filter p l <> x :: l.
Proof.
  intros E. pose proof (List.filter_length_le p l) as Hlen.
  rewrite E in Hlen. simpl in Hlen. lia.
Qed.

Lemma file_ops_only l :
  file_ops l = l ->
  invoked l = [] /\ requested l = [] /\ resolved l = [] /\
  downloads l = [] /\ errors l = [].
Proof.
  induction l as [|e l IH]; [done|]. unfold file_ops. simpl.
  destruct e; simpl; intros E;
    try (by apply filter_longer in E);
    injection E as E; by apply IH.
Qed.

Lemma file_ops_chunks path cs :
  file_ops (map (WriteChunk path) cs) = map (WriteChunk path) cs.
Proof. induction cs as [|c cs IH]; [done|]. unfold file_ops in *. simpl. by rewrite IH. Qed.

Variables (rel : release) (asset_pattern local_file repo_name : string).

Lemma replace_no_asset o f s :
  find_first_asset (assets rel) asset_pattern = Ok o ->
  o = None \/ o = Some "" ->
  try_except (download_and_replace rel asset_pattern local_file repo_name)
    update_repository_except f s =
  (Ok false, f, logged s [Enter (F_find_asset_url asset_pattern); Print MsgNoAsset]).
Proof.
  intros Hfind Ho. unfold try_except, download_and_replace, bind.
  rewrite find_asset_url_eq, Hfind. unfold logged.
  destruct Ho as [-> | ->]; simpl; by rewrite <- !app_assoc.
Qed.

Lemma replace_resolver_raises e f s :
  find_first_asset (assets rel) asset_pattern = Raise e ->
  f !! "repo_name" = Some repo_name ->
  f !! "temp_file" = None ->
  try_except (download_and_replace rel asset_pattern local_file repo_name)
    update_repository_except f s =
  (Ok false, f,
   logged s [Enter (F_find_asset_url asset_pattern);
             Print (MsgRepoError repo_name e)]).
Proof.
  intros Hfind Hn Ht. unfold try_except, download_and_replace, bind.
  rewrite find_asset_url_eq, Hfind.
  rewrite (update_repository_except_bound _ _ _ repo_name Hn), Ht.
  by rewrite logged_logged.
Qed.

(** A failed download: the [except] block removes the temporary file when
    the system lets it, and no other file has changed. *)
Lemma replace_download_fails url e f s :
  find_first_asset (assets rel) asset_pattern = Ok (Some url) ->
  url <> "" ->
  f !! "repo_name" = Some repo_name ->
  remove_fails (local_file +:+ ".tmp") = false ->
  fst (run (download_file url (local_file +:+ ".tmp")) s) = Raise e ->
  exists ops1 ops2,
    try_except (download_and_replace rel asset_pattern local_file repo_name)
      update_repository_except f s =
    (Ok false, <["temp_file" := local_file +:+ ".tmp"]> f,
     {| fs := delete (local_file +:+ ".tmp") (fs s);
        trace := (trace s ++
                  [Enter (F_find_asset_url asset_pattern);
                   Print (MsgDownloading url);
                   Enter (F_download_file url (local_file +:+ ".tmp"));
                   HttpGet url] ++ ops1 ++
                  [Print (MsgRepoError repo_name e)] ++ ops2)%list |}) /\
    file_ops ops1 = ops1 /\ file_ops ops2 = ops2.
Proof.
  intros Hfind Hurl Hn Hrm.
  destruct (download_file_spec url (local_file +:+ ".tmp"))
    as (outcome & written & ops & Hdl & Hops & _).
  unfold run. rewrite Hdl. simpl. intros ->.
  assert (Hn' : <["temp_file" := local_file +:+ ".tmp"]> f !! "repo_name"
                = Some repo_name) by (by rewrite lookup_insert_ne).
  assert (Hstep :
    try_except (download_and_replace rel asset_pattern local_file repo_name)
      update_repository_except f s =
    update_repository_except e (<["temp_file" := local_file +:+ ".tmp"]> f)
      {| fs := match written with
               | Some content => <[local_file +:+ ".tmp" := content]> (fs s)
               | None => fs s
               end;
         trace := (trace s ++
                   [Enter (F_find_asset_url asset_pattern);
                    Print (MsgDownloading url);
                    Enter (F_download_file url (local_file +:+ ".tmp"));
                    HttpGet url] ++ ops)%list |}).
  { unfold try_except, download_and_replace, bind.
    rewrite find_asset_url_eq, Hfind. unfold logged.
    destruct url as [|c url]; [done|]. simpl.
    unfold assign. rewrite Hdl. simpl. by rewrite <- !app_assoc. }
  rewrite Hstep.
  rewrite (update_repository_except_bound _ _ _ repo_name Hn').
  rewrite lookup_insert_eq, Hrm. simpl.
  destruct written as [content|].
  - rewrite lookup_insert_eq. rewrite bool_decide_eq_true_2 by (by eexists).
    exists ops, [Remove (local_file +:+ ".tmp")]. split; [|split; [|done]].
    + rewrite delete_insert_eq. by rewrite <- !app_assoc.
    + destruct Hops as (r & k & _ & ->). unfold file_ops. simpl.
      f_equal. apply file_ops_chunks.
  - subst ops. case_bool_decide as Hex.
    + exists [], [Remove (local_file +:+ ".tmp")]. split; [|done].
      simpl. by rewrite <- !app_assoc.
    + exists [], []. split; [|done]. unfold logged. simpl.
      rewrite delete_id.
      * by rewrite <- !app_assoc.
      * destruct (fs s !! (local_file +:+ ".tmp")) eqn:E; [|done].
        exfalso. apply Hex. by eexists.
Qed.

(** A successful download, the system refusing neither the removal of the
    old file nor the renaming: the old file is removed when there is one
    and the temporary file is renamed over it. *)
Lemma replace_download_ok url x f s :
  find_first_asset (assets rel) asset_pattern = Ok (Some url) ->
  url <> "" ->
  remove_fails local_file = false ->
  rename_fails (local_file +:+ ".tmp") local_file = false ->
  fst (run (download_file url (local_file +:+ ".tmp")) s) = Ok x ->
  exists r,
    net url = Response r /\
    try_except (download_and_replace rel asset_pattern local_file repo_name)
      update_repository_except f s =
    (Ok true, <["temp_file" := local_file +:+ ".tmp"]> f,
     {| fs := <[local_file := concat (chunks r)]>
                (delete (local_file +:+ ".tmp") (fs s));
        trace := (trace s ++
                  [Enter (F_find_asset_url asset_pattern);
                   Print (MsgDownloading url);
                   Enter (F_download_file url (local_file +:+ ".tmp"));
                   HttpGet url;
                   OpenW (local_file +:+ ".tmp")] ++
                  map (WriteChunk (local_file +:+ ".tmp")) (chunks r) ++
                  [Print (MsgUpdating local_file)] ++
                  (if bool_decide (is_Some (fs s !! local_file))
                   then [Remove local_file] else []) ++
                  [Rename (local_file +:+ ".tmp") local_file;
                   Print (MsgDone repo_name)])%list |}).
Proof.
  intros Hfind Hurl Hrm Hrn.
  destruct (download_file_spec url (local_file +:+ ".tmp"))
    as (outcome & written & ops & Hdl & _ & Hok).
  unfold run. rewrite Hdl. simpl. intros ->.
  destruct (Hok x eq_refl) as (_ & r & Hnet & -> & ->).
  exists r. split; [done|].
  pose proof (StrFacts.tmp_suffix_ne local_file) as Hne.
  unfold try_except, download_and_replace, bind.
  rewrite find_asset_url_eq, Hfind. unfold logged.
  destruct url as [|c url]; [done|]. simpl.
  unfold assign. rewrite Hdl. simpl.
  rewrite lookup_insert_ne by done.
  case_bool_decide as Hex; simpl.
  - destruct Hex as [old Hold]. unfold os_remove, os_rename. simpl.
    rewrite lookup_insert_ne by done. rewrite Hold, Hrm. simpl.
    rewrite lookup_delete_ne by done. rewrite lookup_insert_eq, Hrn. simpl.
    f_equal. f_equal.
    + apply map_eq. intros i.
      destruct (decide (i = local_file)) as [->|Hi1].
      { by rewrite !lookup_insert_eq. }
      rewrite !lookup_insert_ne by done.
      destruct (decide (i = local_file +:+ ".tmp")) as [->|Hi2].
      { by rewrite !lookup_delete_eq. }
      rewrite !lookup_delete_ne by done. by rewrite lookup_insert_ne.
    + by rewrite <- !app_assoc.
  - unfold os_rename. simpl. rewrite lookup_insert_eq, Hrn. simpl.
    f_equal. f_equal.
    + by rewrite delete_insert_eq.
    + by rewrite <- !app_assoc.
Qed.

(** The [except] block when [temp_file] is assigned: only the temporary
    file can change, and the block raises only when the file is there and
    its removal is refused. *)
Lemma except_with_temp e f s tmp :
  f !! "repo_name" = Some repo_name ->
  f !! "temp_file" = Some tmp ->
  exists res fs' ops,
    update_repository_except e f s =
    (res, f, {| fs := fs'; trace := (trace s ++ ops)%list |}) /\
    (invoked ops = [] /\ requested ops = [] /\ resolved ops = [] /\
     downloads ops = []) /\
    (forall p, p <> tmp -> fs' !! p = fs s !! p) /\
    (remove_fails tmp = false -> res = Ok false /\ fs' !! tmp = None) /\
    (forall e', res = Raise e' ->
       e' = OSError tmp /\ remove_fails tmp = true /\ fs' !! tmp = fs s !! tmp /\
       is_Some (fs' !! tmp)).
Proof.
  intros Hn Ht. rewrite (update_repository_except_bound _ _ _ repo_name Hn), Ht.
  case_bool_decide as Hex; [destruct (remove_fails tmp) eqn:Hrm|].
  - exists (Raise (OSError tmp)), (fs s), [Print (MsgRepoError repo_name e)].
    repeat apply conj; try done. by intros e' [= <-].
  - exists (Ok false), (delete tmp (fs s)),
      [Print (MsgRepoError repo_name e); Remove tmp].
    repeat apply conj; try done.
    + intros p Hp. by rewrite lookup_delete_ne.
    + intros _. split; [done|]. apply lookup_delete_eq.
  - exists (Ok false), (fs s), [Print (MsgRepoError repo_name e)].
    repeat apply conj; try done.
    intros _. split; [done|]. by apply eq_None_not_Some.
Qed.

(** The state after the download step, whatever its outcome, and what runs
    next: the [except] block when the download raised, the replacement of
    the old file under the [except] block when it returned. *)
Lemma download_step url f s :
  find_first_asset (assets rel) asset_pattern = Ok (Some url) ->
  url <> "" ->
  exists outcome written ops,
    (forall s0,
       fst (run (download_file url (local_file +:+ ".tmp")) s0) = outcome) /\
    file_ops ops = ops /\
    (forall x, outcome = Ok x -> is_Some written) /\
    try_except (download_and_replace rel asset_pattern local_file repo_name)
      update_repository_except f s =
    match outcome with
    | Raise e =>
        update_repository_except e
          (<["temp_file" := local_file +:+ ".tmp"]> f)
          {| fs := match written with
                   | Some content => <[local_file +:+ ".tmp" := content]> (fs s)
                   | None => fs s
                   end;
             trace := (trace s ++
                       [Enter (F_find_asset_url asset_pattern);
                        Print (MsgDownloading url);
                        Enter (F_download_file url (local_file +:+ ".tmp"));
                        HttpGet url] ++ ops)%list |}
    | Ok _ =>
        try_except
          (bind (path_exists local_file) (fun e =>
           bind (if e then os_remove local_file else ret tt) (fun _ =>
           bind (os_rename (local_file +:+ ".tmp") local_file) (fun _ =>
           bind (print (MsgDone repo_name)) (fun _ => ret true)))))
          update_repository_except
          (<["temp_file" := local_file +:+ ".tmp"]> f)
          {| fs := match written with
                   | Some content => <[local_file +:+ ".tmp" := content]> (fs s)
                   | None => fs s
                   end;
             trace := (trace s ++
                       [Enter (F_find_asset_url asset_pattern);
                        Print (MsgDownloading url);
                        Enter (F_download_file url (local_file +:+ ".tmp"));
                        HttpGet url] ++ ops ++
                       [Print (MsgUpdating local_file)])%list |}
    end.
Proof.
  intros Hfind Hurl.
  destruct (download_file_spec url (local_file +:+ ".tmp"))
    as (outcome & written & ops & Hdl & Hops & Hok).
  exists outcome, written, ops. repeat apply conj.
  - intros s0. unfold run. by rewrite Hdl.
  - destruct written as [content|].
    + destruct Hops as (r & k & _ & ->). unfold file_ops. simpl.
      f_equal. apply file_ops_chunks.
    + by subst ops.
  - intros x Hx. destruct (Hok x Hx) as (_ & r & _ & -> & _). eauto.
  - unfold try_except, download_and_replace, bind.
    rewrite find_asset_url_eq, Hfind. unfold logged.
    destruct url as [|c url]; [done|]. simpl.
    unfold assign. rewrite Hdl. simpl. rewrite <- !app_assoc. simpl.
    destruct outcome; [|done].
    unfold print, emit, path_exists. simpl. by rewrite <- ?app_assoc.
Qed.

Ltac same_trace := simpl; repeat (rewrite <- app_assoc; simpl); reflexivity.

(** Whatever happens once the resolver has returned a URL: the download is
    started; only the local file and the temporary file can change; and an
    exception comes out only when the system refuses to remove the
    temporary file, which is then still there. *)
Lemma replace_with_url url f s :
  find_first_asset (assets rel) asset_pattern = Ok (Some url) ->
  url <> "" ->
  f !! "repo_name" = Some repo_name ->
  exists res fs' ops,
    try_except (download_and_replace rel asset_pattern local_file repo_name)
      update_repository_except f s =
    (res, <["temp_file" := local_file +:+ ".tmp"]> f,
     {| fs := fs';
        trace := (trace s ++
                  [Enter (F_find_asset_url asset_pattern);
                   Print (MsgDownloading url);
                   Enter (F_download_file url (local_file +:+ ".tmp"));
                   HttpGet url] ++ ops)%list |}) /\
    (invoked ops = [] /\ requested ops = [] /\ resolved ops = [] /\
     downloads ops = []) /\
    (forall p,
       p <> local_file -> p <> local_file +:+ ".tmp" -> fs' !! p = fs s !! p) /\
    (remove_fails (local_file +:+ ".tmp") = false -> exists b, res = Ok b) /\
    (forall e, res = Raise e ->
       e = OSError (local_file +:+ ".tmp") /\
       remove_fails (local_file +:+ ".tmp") = true /\
       is_Some (fs' !! (local_file +:+ ".tmp"))).
Proof.
  intros Hfind Hurl Hn.
  pose proof (StrFacts.tmp_suffix_ne local_file) as Hne.
  assert (Hn1 : <["temp_file" := local_file +:+ ".tmp"]> f !! "repo_name"
                = Some repo_name) by (by rewrite lookup_insert_ne).
  assert (Ht1 : <["temp_file" := local_file +:+ ".tmp"]> f !! "temp_file"
                = Some (local_file +:+ ".tmp")) by apply lookup_insert_eq.
  destruct (download_step url f s Hfind Hurl)
    as (outcome & written & ops0 & _ & Hops0 & Hwritten & ->).
  destruct (file_ops_only _ Hops0) as (Hi0 & Hq0 & Hr0 & Hd0 & _).
  (* the [except] block entered in a state [s1] whose trace extends that of
     [s] by the four events and [mid] *)
  assert (Hhandler : forall e s1 mid,
    trace s1 = (trace s ++
                [Enter (F_find_asset_url asset_pattern);
                 Print (MsgDownloading url);
                 Enter (F_download_file url (local_file +:+ ".tmp"));
                 HttpGet url] ++ mid)%list ->
    invoked mid = [] /\ requested mid = [] /\ resolved mid = [] /\
    downloads mid = [] ->
    (forall p, p <> local_file -> p <> local_file +:+ ".tmp" ->
       fs s1 !! p = fs s !! p) ->
    exists res fs' ops,
      update_repository_except e (<["temp_file" := local_file +:+ ".tmp"]> f) s1 =
      (res, <["temp_file" := local_file +:+ ".tmp"]> f,
       {| fs := fs';
          trace := (trace s ++
                    [Enter (F_find_asset_url asset_pattern);
                     Print (MsgDownloading url);
                     Enter (F_download_file url (local_file +:+ ".tmp"));
                     HttpGet url] ++ ops)%list |}) /\
      (invoked ops = [] /\ requested ops = [] /\ resolved ops = [] /\
       downloads ops = []) /\
      (forall p,
         p <> local_file -> p <> local_file +:+ ".tmp" -> fs' !! p = fs s !! p) /\
      (remove_fails (local_file +:+ ".tmp") = false -> exists b, res = Ok b) /\
      (forall e', res = Raise e' ->
         e' = OSError (local_file +:+ ".tmp") /\
         remove_fails (local_file +:+ ".tmp") = true /\
         is_Some (fs' !! (local_file +:+ ".tmp")))).
  { intros e s1 mid Htr (Hi & Hq & Hr & Hd) Hfs.
    destruct (except_with_temp e _ s1 _ Hn1 Ht1)
      as (res & fs' & ops & -> & (Hi' & Hq' & Hr' & Hd') & Hfr & Hgood & Hbad).
    exists res, fs', (mid ++ ops)%list. repeat apply conj.
    - rewrite Htr. f_equal. f_equal. same_trace.
    - split_trace. by rewrite Hi, Hi'.
    - split_trace. by rewrite Hq, Hq'.
    - split_trace. by rewrite Hr, Hr'.
    - split_trace. by rewrite Hd, Hd'.
    - intros p Hp1 Hp2. rewrite Hfr by done. by apply Hfs.
    - intros Hrm. destruct (Hgood Hrm) as [-> _]. eauto.
    - intros e' He'. destruct (Hbad e' He') as (-> & Hrm & _ & Hex). done. }
  destruct outcome as [x|e].
  - destruct (Hwritten x eq_refl) as [content ->].
    unfold try_except at 1. unfold bind at 1. unfold path_exists at 1. simpl.
    rewrite lookup_insert_ne by done.
    case_bool_decide as Hex.
    + destruct Hex as [old Hold].
      unfold bind at 1. unfold os_remove at 1. simpl.
      rewrite lookup_insert_ne by done. rewrite Hold.
      destruct (remove_fails local_file) eqn:Hrm.
      * apply (Hhandler _ _ (ops0 ++ [Print (MsgUpdating local_file)])%list).
        -- same_trace.
        -- repeat apply conj; split_trace; simpl;
             by rewrite ?Hi0, ?Hq0, ?Hr0, ?Hd0.
        -- intros p Hp1 Hp2. simpl. by rewrite lookup_insert_ne.
      * unfold bind at 1. unfold os_rename at 1. simpl.
        rewrite lookup_delete_ne by done. rewrite lookup_insert_eq.
        destruct (rename_fails (local_file +:+ ".tmp") local_file) eqn:Hrn.
        -- apply (Hhandler _ _ (ops0 ++ [Print (MsgUpdating local_file);
                                         Remove local_file])%list).
           ++ same_trace.
           ++ repeat apply conj; split_trace; simpl;
                by rewrite ?Hi0, ?Hq0, ?Hr0, ?Hd0.
           ++ intros p Hp1 Hp2. simpl. rewrite lookup_delete_ne by done.
              by rewrite lookup_insert_ne.
        -- unfold bind, print, emit, ret. simpl.
           exists (Ok true),
             (<[local_file := content]>
                (delete (local_file +:+ ".tmp")
                   (delete local_file
                      (<[local_file +:+ ".tmp" := content]> (fs s))))),
             (ops0 ++ [Print (MsgUpdating local_file); Remove local_file;
                       Rename (local_file +:+ ".tmp") local_file;
                       Print (MsgDone repo_name)])%list.
           repeat apply conj.
           ++ f_equal. f_equal. same_trace.
           ++ split_trace. simpl. by rewrite Hi0.
           ++ split_trace. simpl. by rewrite Hq0.
           ++ split_trace. simpl. by rewrite Hr0.
           ++ split_trace. simpl. by rewrite Hd0.
           ++ intros p Hp1 Hp2.
              by repeat first [ rewrite lookup_insert_ne by done
                              | rewrite lookup_delete_ne by done ].
           ++ eauto.
           ++ done.
    + unfold bind at 1. unfold ret at 1.
      unfold bind at 1. unfold os_rename at 1. simpl.
      rewrite lookup_insert_eq.
      destruct (rename_fails (local_file +:+ ".tmp") local_file) eqn:Hrn.
      * apply (Hhandler _ _ (ops0 ++ [Print (MsgUpdating local_file)])%list).
        -- same_trace.
        -- repeat apply conj; split_trace; simpl;
             by rewrite ?Hi0, ?Hq0, ?Hr0, ?Hd0.
        -- intros p Hp1 Hp2. simpl. by rewrite lookup_insert_ne.
      * unfold bind, print, emit, ret. simpl.
        exists (Ok true),
          (<[local_file := content]>
             (delete (local_file +:+ ".tmp")
                (<[local_file +:+ ".tmp" := content]> (fs s)))),
          (ops0 ++ [Print (MsgUpdating local_file);
                    Rename (local_file +:+ ".tmp") local_file;
                    Print (MsgDone repo_name)])%list.
        repeat apply conj.
        -- f_equal. f_equal. same_trace.
        -- split_trace. simpl. by rewrite Hi0.
        -- split_trace. simpl. by rewrite Hq0.
        -- split_trace. simpl. by rewrite Hr0.
        -- split_trace. simpl. by rewrite Hd0.
        -- intros p Hp1 Hp2.
           by repeat first [ rewrite lookup_insert_ne by done
                           | rewrite lookup_delete_ne by done ].
        -- eauto.
        -- done.
  - apply (Hhandler _ _ ops0).
    + done.
    + done.
    + intros p Hp1 Hp2. simpl. destruct written; [|done].
      by rewrite lookup_insert_ne.
Qed.

(** A download that returned, followed by a replacement the system
    refuses: the removal of the old file, or the renaming once the old file
    is removed.  The [except] block removes the temporary file. *)
Lemma replace_refused url x old f s :
  find_first_asset (assets rel) asset_pattern = Ok (Some url) ->
  url <> "" ->
  f !! "repo_name" = Some repo_name ->
  fs s !! local_file = Some old ->
  fst (run (download_file url (local_file +:+ ".tmp")) s) = Ok x ->
  remove_fails (local_file +:+ ".tmp") = false ->
  exists ops0,
    file_ops ops0 = ops0 /\
    (remove_fails local_file = true ->
     try_except (download_and_replace rel asset_pattern local_file repo_name)
       update_repository_except f s =
     (Ok false, <["temp_file" := local_file +:+ ".tmp"]> f,
      {| fs := delete (local_file +:+ ".tmp") (fs s);
         trace := (trace s ++
                   [Enter (F_find_asset_url asset_pattern);
                    Print (MsgDownloading url);
                    Enter (F_download_file url (local_file +:+ ".tmp"));
                    HttpGet url] ++ ops0 ++
                   [Print (MsgUpdating local_file);
                    Print (MsgRepoError repo_name (OSError local_file));
                    Remove (local_file +:+ ".tmp")])%list |})) /\
    (remove_fails local_file = false ->
     rename_fails (local_file +:+ ".tmp") local_file = true ->
     try_except (download_and_replace rel asset_pattern local_file repo_name)
       update_repository_except f s =
     (Ok false, <["temp_file" := local_file +:+ ".tmp"]> f,
      {| fs := delete (local_file +:+ ".tmp") (delete local_file (fs s));
         trace := (trace s ++
                   [Enter (F_find_asset_url asset_pattern);
                    Print (MsgDownloading url);
                    Enter (F_download_file url (local_file +:+ ".tmp"));
                    HttpGet url] ++ ops0 ++
                   [Print (MsgUpdating local_file);
                    Remove local_file;
                    Print (MsgRepoError repo_name
                             (OSError (local_file +:+ ".tmp")));
                    Remove (local_file +:+ ".tmp")])%list |})).
Proof.
  intros Hfind Hurl Hn Hold Hdl Hrt.
  pose proof (StrFacts.tmp_suffix_ne local_file) as Hne.
  assert (Hn1 : <["temp_file" := local_file +:+ ".tmp"]> f !! "repo_name"
                = Some repo_name) by (by rewrite lookup_insert_ne).
  destruct (download_step url f s Hfind Hurl)
    as (outcome & written & ops0 & Hout & Hops0 & Hwritten & ->).
  rewrite (Hout s) in Hdl. subst outcome.
  destruct (Hwritten x eq_refl) as [content ->].
  exists ops0. split; [done|].
  assert (Hgo :
    try_except
      (bind (path_exists local_file) (fun e =>
       bind (if e then os_remove local_file else ret tt) (fun _ =>
       bind (os_rename (local_file +:+ ".tmp") local_file) (fun _ =>
       bind (print (MsgDone repo_name)) (fun _ => ret true)))))
      update_repository_except
      (<["temp_file" := local_file +:+ ".tmp"]> f)
      {| fs := <[local_file +:+ ".tmp" := content]> (fs s);
         trace := (trace s ++
                   [Enter (F_find_asset_url asset_pattern);
                    Print (MsgDownloading url);
                    Enter (F_download_file url (local_file +:+ ".tmp"));
                    HttpGet url] ++ ops0 ++
                   [Print (MsgUpdating local_file)])%list |} =
    try_except
      (bind (os_remove local_file) (fun _ =>
       bind (os_rename (local_file +:+ ".tmp") local_file) (fun _ =>
       bind (print (MsgDone repo_name)) (fun _ => ret true))))
      update_repository_except
      (<["temp_file" := local_file +:+ ".tmp"]> f)
      {| fs := <[local_file +:+ ".tmp" := content]> (fs s);
         trace := (trace s ++
                   [Enter (F_find_asset_url asset_pattern);
                    Print (MsgDownloading url);
                    Enter (F_download_file url (local_file +:+ ".tmp"));
                    HttpGet url] ++ ops0 ++
                   [Print (MsgUpdating local_file)])%list |}).
  { unfold try_except. unfold bind at 1. unfold path_exists. simpl.
    rewrite lookup_insert_ne by done.
    by rewrite (bool_decide_eq_true_2 (is_Some (fs s !! local_file)))
      by (by eexists). }
  rewrite Hgo. clear Hgo.
  split.
  - intros Hrm. unfold try_except. unfold bind at 1. unfold os_remove. simpl.
    rewrite lookup_insert_ne by done. rewrite Hold, Hrm.
    rewrite (update_repository_except_bound _ _ _ repo_name Hn1).
    rewrite lookup_insert_eq. simpl. rewrite lookup_insert_eq.
    rewrite bool_decide_eq_true_2 by (by eexists). rewrite Hrt.
    rewrite delete_insert_eq. f_equal. f_equal. same_trace.
  - intros Hrm Hrn. unfold try_except. unfold bind at 1. unfold os_remove.
    simpl. rewrite lookup_insert_ne by done. rewrite Hold, Hrm.
    unfold bind at 1. unfold os_rename. simpl.
    rewrite lookup_delete_ne by done. rewrite lookup_insert_eq, Hrn.
    rewrite (update_repository_except_bound _ _ _ repo_name Hn1).
    rewrite lookup_insert_eq. simpl.
    rewrite lookup_delete_ne by done. rewrite lookup_insert_eq.
    rewrite bool_decide_eq_true_2 by (by eexists). rewrite Hrt.
    f_equal. f_equal.
    + apply map_eq. intros i.
      destruct (decide (i = local_file +:+ ".tmp")) as [->|Hi1].
      { by rewrite !lookup_delete_eq. }
      rewrite !lookup_delete_ne by done.
      destruct (decide (i = local_file)) as [->|Hi2].
      { by repeat first [ rewrite lookup_delete_eq
                        | rewrite lookup_delete_ne by done ]. }
      rewrite !lookup_delete_ne by done. by rewrite lookup_insert_ne.
    + same_trace.
Qed.

End ReplaceFacts.

(** ** The Batch Runner *)

Section BatchFacts.

Context `{Env}.

Local Arguments Version.parse : simpl never.
Local Arguments Version.le : simpl never.
Local Arguments String.append : simpl never.

(** An entry that lacks one of the keys read with [repo_config[...]]: the
    lookup raises before [repo_name] is assigned, so the [except] block
    raises in turn, and the exception leaves [update_repository]. *)
Lemma update_repository_missing_key cfg f s :
  ~ has_required_keys cfg ->
  update_repository cfg f s =
  (Raise (NameError "repo_name"), f, logged s [Enter (F_update_repository cfg)]).
Proof.
  intros Hkeys.
  unfold update_repository, call, try_except, update_repository_try.
  unfold bind, getitem.
  destruct (cfg !! "github_repo") as [repo|] eqn:E1; simpl;
    [|by rewrite update_repository_except_unbound].
  destruct (cfg !! "local_file") as [local_file|] eqn:E2; simpl;
    [|by rewrite update_repository_except_unbound].
  destruct (cfg !! "version_pattern") as [pat|] eqn:E3; simpl;
    [|by rewrite update_repository_except_unbound].
  destruct (cfg !! "name") as [nm|] eqn:E4; simpl;
    [|by rewrite update_repository_except_unbound].
  exfalso. apply Hkeys. unfold has_required_keys.
  rewrite E1, E2, E3, E4. eauto.
Qed.

(** A turn on an entry with its four keys: [update_repository] is entered
    once; only the local file and the temporary file can change; and it
    returns, unless its [except] block could not remove the temporary file
    of a download it had started. *)
Lemma update_repository_outcomes cfg local_file f s :
  has_required_keys cfg ->
  cfg !! "local_file" = Some local_file ->
  exists res fs' evs,
    update_repository cfg f s =
    (res, f,
     {| fs := fs';
        trace := (trace s ++ Enter (F_update_repository cfg) :: evs)%list |}) /\
    invoked evs = [] /\
    (forall p,
       p <> local_file -> p <> local_file +:+ ".tmp" -> fs' !! p = fs s !! p) /\
    (remove_fails (local_file +:+ ".tmp") = false -> exists b, res = Ok b) /\
    (forall e, res = Raise e ->
       e = OSError (local_file +:+ ".tmp") /\
       remove_fails (local_file +:+ ".tmp") = true /\
       is_Some (fs' !! (local_file +:+ ".tmp")) /\
       exists url, downloads evs = [(url, local_file +:+ ".tmp")]).
Proof.
  intros ([repo Hrepo] & [lf Hfile] & [pat Hpat] & [nm Hname]) Hlf.
  rewrite Hfile in Hlf. injection Hlf as ->.
  assert (Hplain : forall evs,
    exists res fs' evs',
      (Ok false, f, logged s (Enter (F_update_repository cfg) :: evs)) =
      (res, f,
       {| fs := fs';
          trace := (trace s ++ Enter (F_update_repository cfg) :: evs')%list |}) /\
      (invoked evs = [] -> invoked evs' = []) /\
      (forall p,
         p <> local_file -> p <> local_file +:+ ".tmp" -> fs' !! p = fs s !! p) /\
      (remove_fails (local_file +:+ ".tmp") = false -> exists b, res = Ok b) /\
      (forall e, res = Raise e ->
         e = OSError (local_file +:+ ".tmp") /\
         remove_fails (local_file +:+ ".tmp") = true /\
         is_Some (fs' !! (local_file +:+ ".tmp")) /\
         exists url, downloads evs' = [(url, local_file +:+ ".tmp")])).
  { intros evs. exists (Ok false), (fs s), evs.
    repeat apply conj; try done. eauto. }
  destruct (fst (run (get_local_version local_file pat) s))
    as [[v|]|e] eqn:Hlocal.
  2: { rewrite (update_repository_no_local_version _ _ _ _ _ Hrepo Hfile Hpat
                  Hname _ None) by auto.
       destruct (Hplain [Print (MsgChecking nm);
                         Enter (F_get_local_version local_file pat);
                         Print (MsgNoLocalVersion local_file)])
         as (res & fs' & evs' & E & Hi & Hrest).
       exists res, fs', evs'. split; [exact E|]. split; [by apply Hi | exact Hrest]. }
  2: { rewrite (update_repository_extractor_raises _ _ _ _ _ Hrepo Hfile Hpat
                  Hname _ e) by done.
       destruct (Hplain [Print (MsgChecking nm);
                         Enter (F_get_local_version local_file pat);
                         Print (MsgRepoError nm e)])
         as (res & fs' & evs' & E & Hi & Hrest).
       exists res, fs', evs'. split; [exact E|]. split; [by apply Hi | exact Hrest]. }
  destruct (decide (v = "")) as [->|Hv].
  { rewrite (update_repository_no_local_version _ _ _ _ _ Hrepo Hfile Hpat
               Hname _ (Some "")) by auto.
    destruct (Hplain [Print (MsgChecking nm);
                      Enter (F_get_local_version local_file pat);
                      Print (MsgNoLocalVersion local_file)])
      as (res & fs' & evs' & E & Hi & Hrest).
    exists res, fs', evs'. split; [exact E|]. split; [by apply Hi | exact Hrest]. }
  destruct (Version.parse v) as [lv|] eqn:Hlv.
  2: { rewrite (update_repository_local_invalid _ _ _ _ _ Hrepo Hfile Hpat
                  Hname _ v) by done.
       destruct (Hplain [Print (MsgChecking nm);
                         Enter (F_get_local_version local_file pat);
                         Print (MsgRepoError nm (InvalidVersion v))])
         as (res & fs' & evs' & E & Hi & Hrest).
       exists res, fs', evs'. split; [exact E|]. split; [by apply Hi | exact Hrest]. }
  destruct (fst (run (get_latest_release repo) s)) as [rel|e] eqn:Hrel.
  2: { rewrite (update_repository_fetch_fails _ _ _ _ _ Hrepo Hfile Hpat
                  Hname _ v lv e) by done.
       destruct (Hplain [Print (MsgChecking nm);
                         Enter (F_get_local_version local_file pat);
                         Print (MsgLocalVersion lv);
                         Print MsgCheckingLatest;
                         Enter (F_get_latest_release repo);
                         HttpGet (api_url repo);
                         Print (MsgRepoError nm e)])
         as (res & fs' & evs' & E & Hi & Hrest).
       exists res, fs', evs'. split; [exact E|]. split; [by apply Hi | exact Hrest]. }
  destruct (Version.parse (remote_version_string rel)) as [rv|] eqn:Hrv.
  2: { rewrite (update_repository_remote_invalid _ _ _ _ _ Hrepo Hfile Hpat
                  Hname _ v lv rel) by done.
       destruct (Hplain [Print (MsgChecking nm);
                         Enter (F_get_local_version local_file pat);
                         Print (MsgLocalVersion lv);
                         Print MsgCheckingLatest;
                         Enter (F_get_latest_release repo);
                         HttpGet (api_url repo);
                         Print (MsgRepoError nm
                                  (InvalidVersion (remote_version_string rel)))])
         as (res & fs' & evs' & E & Hi & Hrest).
       exists res, fs', evs'. split; [exact E|]. split; [by apply Hi | exact Hrest]. }
  rewrite (update_repository_compared _ _ _ _ _ Hrepo Hfile Hpat Hname
             _ v lv rel rv) by done.
  destruct (Version.le rv lv).
  { unfold logged, compared_events. simpl. rewrite <- !app_assoc. simpl.
    eexists (Ok true), (fs s), _. split; [reflexivity|].
    repeat apply conj; try done. eauto. }
  set (ap := default pat (cfg !! "asset_pattern")).
  set (s1 := logged s _).
  assert (Hs1 : trace s1 =
                (trace s ++ Enter (F_update_repository cfg) ::
                 tail (compared_events cfg repo local_file pat nm lv rv))%list)
    by done.
  assert (Hfs1 : fs s1 = fs s) by done.
  destruct (find_first_asset (assets rel) ap) as [[url|]|e] eqn:Hfind.
  2: { rewrite (replace_no_asset _ _ _ _ None) by auto.
       unfold logged. rewrite Hs1, Hfs1, <- app_assoc. simpl.
       eexists (Ok false), (fs s), _. split; [reflexivity|].
       repeat apply conj; try done. eauto. }
  2: { rewrite (replace_resolver_raises _ _ _ _ e) by done.
       unfold logged. rewrite Hs1, Hfs1, <- app_assoc. simpl.
       eexists (Ok false), (fs s), _. split; [reflexivity|].
       repeat apply conj; try done. eauto. }
  destruct (decide (url = "")) as [->|Hurl].
  { rewrite (replace_no_asset _ _ _ _ (Some "")) by auto.
    unfold logged. rewrite Hs1, Hfs1, <- app_assoc. simpl.
    eexists (Ok false), (fs s), _. split; [reflexivity|].
    repeat apply conj; try done. eauto. }
  destruct (replace_with_url rel ap local_file nm url {["repo_name" := nm]} s1
              Hfind Hurl ltac:(apply lookup_singleton_eq))
    as (res & fs' & ops & -> & (Hi & Hq & Hr & Hd) & Hframe & Hret & Hraise).
  rewrite Hs1, <- app_assoc. simpl.
  eexists res, fs', _. split; [reflexivity|]. repeat apply conj.
  - split_trace. by rewrite Hi.
  - intros p Hp1 Hp2. rewrite <- Hfs1. by apply Hframe.
  - exact Hret.
  - intros e He. destruct (Hraise e He) as (-> & Hrm & Hex).
    repeat apply conj; try done. exists url. split_trace. by rewrite Hd.
Qed.

(** An entry with the four keys whose temporary file the system lets go:
    whatever happens, [update_repository] returns, having been entered
    once. *)
Lemma update_repository_returns cfg f s :
  has_required_keys cfg ->
  cleanup_allowed cfg ->
  exists b fs' evs,
    update_repository cfg f s =
    (Ok b, f,
     {| fs := fs';
        trace := (trace s ++ Enter (F_update_repository cfg) :: evs)%list |}) /\
    invoked evs = [].
Proof.
  intros Hkeys Hclean. pose proof Hkeys as (_ & [local_file Hfile] & _).
  destruct (update_repository_outcomes cfg local_file f s Hkeys Hfile)
    as (res & fs' & evs & E & Hi & _ & Hret & _).
  destruct (Hret (Hclean local_file Hfile)) as [b ->]. by exists b, fs', evs.
Qed.

(** The body of the loop of [main]. *)
Let turn : gmap string string -> M unit :=
  fun repo => bind (update_repository repo) (fun _ => ret tt).


(** The loop ends at the first entry that lacks a key: the entries after
    it are never passed to the Orchestrator. *)
Lemma batch_stops_at_missing_key good bad rest :
  Forall has_required_keys good ->
  Forall cleanup_allowed good ->
  ~ has_required_keys bad ->
  forall f s, exists fs' evs,
    for_each (good ++ bad :: rest) turn f s =
    (Raise (NameError "repo_name"), f,
     {| fs := fs'; trace := (trace s ++ evs)%list |}) /\
    invoked evs = (good ++ [bad])%list.
Proof.
  intros Hgood Hclean Hbad. revert Hclean.
  induction Hgood as [|cfg good Hcfg _ IH]; intros Hclean f s.
  - simpl. unfold turn at 1. unfold bind at 1 2.
    rewrite (update_repository_missing_key bad f s Hbad). simpl.
    by exists (fs s), [Enter (F_update_repository bad)].
  - apply Forall_cons in Hclean as [Hc Hclean].
    destruct (update_repository_returns cfg f s Hcfg Hc)
      as (b & fs1 & evs1 & E1 & Hi1).
    simpl. unfold turn at 1. unfold bind at 1 2. rewrite E1. simpl.
    destruct (IH Hclean f
                {| fs := fs1;
                   trace := (trace s ++ Enter (F_update_repository cfg) :: evs1)%list |})
      as (fs2 & evs2 & E2 & Hi2).
    rewrite E2. simpl.
    exists fs2, (Enter (F_update_repository cfg) :: evs1 ++ evs2)%list. split.
    + by rewrite <- app_assoc.
    + split_trace. simpl. by rewrite Hi1, Hi2.
Qed.

(** The Config Loader. *)
Lemma load_repositories_eq config_path f s :
  load_repositories config_path f s =
  (match fs s !! config_path with
   | None => Raise (FileNotFoundError config_path)
   | Some content =>
       match json_loads content with
       | None => Raise JSONDecodeError
       | Some doc =>
           match doc !! "repositories" with
           | Some repositories => Ok repositories
           | None => Raise (KeyError "repositories")
           end
       end
   end, f, logged s [Enter (F_load_repositories config_path)]).
Proof.
  unfold load_repositories, call, bind, path_exists, read_file, getitem, logged.
  simpl. case_bool_decide as Hex; simpl.
  - destruct Hex as [content E]. rewrite E.
    destruct (json_loads content) as [doc|]; [|done].
    by destruct (doc !! "repositories").
  - destruct (fs s !! config_path) as [content|] eqn:E; [|done].
    exfalso. apply Hex. by eexists.
Qed.

(** A failure of the Config Loader ends the run before any repository is
    looked at; it is reported once. *)
Lemma main_config_failure s e :
  fst (run (load_repositories "repo.json") s) = Raise e ->
  run main s =
  (Ok tt, logged s [Enter F_main; Enter (F_load_repositories "repo.json");
                    Print (MsgProgramError e)]).
Proof.
  unfold run. rewrite load_repositories_eq. simpl. intros Hload.
  unfold main, call, try_except, bind. rewrite load_repositories_eq. simpl.
  rewrite Hload.
  unfold logged. simpl. by rewrite <- !app_assoc.
Qed.


Lemma main_stops_at_missing_key s good bad rest :
  fst (run (load_repositories "repo.json") s) = Ok (good ++ bad :: rest)%list ->
  Forall has_required_keys good ->
  Forall cleanup_allowed good ->
  ~ has_required_keys bad ->
  exists fs' evs,
    run main s = (Ok tt, {| fs := fs'; trace := (trace s ++ evs)%list |}) /\
    invoked evs = (good ++ [bad])%list /\
    last evs = Some (Print (MsgProgramError (NameError "repo_name"))).
Proof.
  unfold run. rewrite load_repositories_eq. simpl.
  intros Hload Hgood Hclean Hbad.
  unfold main, call, try_except, bind. rewrite load_repositories_eq. simpl.
  rewrite Hload.
  unfold logged. simpl.
  match goal with
  | |- context [for_each ?l ?body ?f ?s0] =>
      destruct (batch_stops_at_missing_key good bad rest Hgood Hclean Hbad f s0)
        as (fs' & evs & E & Hi);
      unfold turn, bind in E; rewrite E
  end.
  simpl.
  exists fs', ([Enter F_main; Enter (F_load_repositories "repo.json");
                Print (MsgFound (length (good ++ bad :: rest)))] ++ evs ++
               [Print (MsgProgramError (NameError "repo_name"))])%list.
  split; [|split].
  - by rewrite <- !app_assoc.
  - split_trace. simpl. rewrite Hi. by rewrite app_nil_r.
  - rewrite !last_app. done.
Qed.

End BatchFacts.

(** ** How a download fails *)

Section DownloadFacts.

Context `{Env}.

Lemma write_chunks_fault path n cs :
  disk path = WriteFails n ->
  forall i f s,
    (i <= n < i + length cs)%nat ->
    fst (fst (write_chunks path i cs f s)) = Raise (OSError path).
Proof.
  intros Hd. induction cs as [|c cs IH]; intros i f s Hn; simpl in *; [lia|].
  unfold file_write. rewrite Hd. destruct (Nat.eqb n i) eqn:E.
  - done.
  - apply Nat.eqb_neq in E. unfold bind. simpl. apply IH. lia.
Qed.

(** The ways a download fails: the host is unreachable, the status is an
    error, the destination cannot be opened, a write fails, or the stream
    breaks. *)
Lemma download_file_failure_modes url path s :
  (net url = Unreachable ->
   fst (run (download_file url path) s) = Raise (ConnectionError url)) /\
  (forall r,
     net url = Response r ->
     ((400 <=? status_code r) && (status_code r <? 600))%Z = true ->
     fst (run (download_file url path) s) = Raise (HTTPError (status_code r))) /\
  (forall r,
     net url = Response r ->
     ((400 <=? status_code r) && (status_code r <? 600))%Z = false ->
     (disk path = OpenFails \/
      exists n, disk path = WriteFails n /\ (n < length (chunks r))%nat) ->
     fst (run (download_file url path) s) = Raise (OSError path)) /\
  (forall r,
     net url = Response r ->
     ((400 <=? status_code r) && (status_code r <? 600))%Z = false ->
     disk path = NoFault ->
     interrupted r = true ->
     fst (run (download_file url path) s) = Raise (ChunkedEncodingError url)).
Proof.
  unfold run, download_file, call, bind, requests_get, emit, raise_for_status.
  simpl. repeat apply conj.
  - by intros ->.
  - intros r -> Hst. simpl. by rewrite Hst.
  - intros r -> Hst Hd. simpl. rewrite Hst. simpl. unfold open_wb.
    destruct Hd as [-> | (n & Hd & Hn)]; [done|]. rewrite Hd.
    match goal with
    | |- context [write_chunks path 0 (chunks r) ?f ?s0] =>
        pose proof (write_chunks_fault path n (chunks r) Hd 0%nat f s0
                      ltac:(lia)) as Hw;
        destruct (write_chunks path 0 (chunks r) f s0) as [[res f'] s']
    end.
    simpl in Hw. by subst res.
  - intros r -> Hst Hd Hint. simpl. rewrite Hst. simpl. unfold open_wb.
    rewrite Hd.
    destruct (write_chunks_spec path (chunks r) 0) as [k [Hk Hw]].
    rewrite (Hw _ _ []) by (simpl; apply lookup_insert_eq).
    assert (Hfault : forall cs i f0 s0,
              fst (fst (write_chunks path i cs f0 s0)) = Ok tt).
    { induction cs as [|c cs IH]; intros i f0 s0; [done|]. simpl.
      unfold file_write. rewrite Hd. unfold bind. apply IH. }
    match goal with
    | |- context [Nat.eqb k ?n] => destruct (Nat.eqb k n) eqn:Ek
    end.
    + by rewrite Hint.
    + exfalso.
      specialize (Hfault (chunks r) 0%nat ∅
        {| fs := <[path := []]> (fs s);
           trace := (((trace s ++ [Enter (F_download_file url path)]) ++
                      [HttpGet url]) ++ [OpenW path])%list |}).
      rewrite (Hw _ _ []) in Hfault by (simpl; apply lookup_insert_eq).
      simpl in Hfault. done.
Qed.

End DownloadFacts.

(** * The claims *)

Section Claims.

Context `{Env}.

Local Arguments Version.parse : simpl never.
Local Arguments Version.le : simpl never.
Local Arguments String.append : simpl never.
Local Arguments OsPath.basename : simpl never.

(** C5, in the form the code satisfies: the Local Version Extractor returns
    none when the file does not exist; otherwise it searches the pattern in
    the base name of the path, that is in what follows the last slash, and
    returns what group 1 of the match holds: its text when the group took
    part in the match, none when it took no part; without a match it
    returns none.  It changes nothing, and its result depends on the path
    through its base name and on the filesystem through the existence of
    the file only. *)
Theorem C5_local_version_extractor (file_path version_pattern : string)
    (s : state) :
  (fs s !! file_path = None ->
   fst (run (get_local_version file_path version_pattern) s) = Ok None) /\
  (forall name r,
     base_name_of file_path name ->
     is_Some (fs s !! file_path) ->
     re_compile version_pattern = Some r ->
     (forall groups text,
        regex_search r name = Some groups ->
        groups !! 1%nat = Some (Some text) ->
        fst (run (get_local_version file_path version_pattern) s)
        = Ok (Some text)) /\
     (forall groups,
        regex_search r name = Some groups ->
        groups !! 1%nat = Some None ->
        fst (run (get_local_version file_path version_pattern) s) = Ok None) /\
     (regex_search r name = None ->
      fst (run (get_local_version file_path version_pattern) s) = Ok None)) /\
  snd (run (get_local_version file_path version_pattern) s) =
    logged s [Enter (F_get_local_version file_path version_pattern)] /\
  (forall s' file_path' name,
     base_name_of file_path name ->
     base_name_of file_path' name ->
     (is_Some (fs s' !! file_path') <-> is_Some (fs s !! file_path)) ->
     fst (run (get_local_version file_path' version_pattern) s') =
     fst (run (get_local_version file_path version_pattern) s)).
Proof.
  unfold run. rewrite get_local_version_eq. simpl.
  split; [|split; [|split]].
  - intros E. rewrite bool_decide_eq_false_2; [done|].
    rewrite E. by intros [? ?].
  - intros name r Hbase Hex Hc.
    rewrite bool_decide_eq_true_2 by done.
    rewrite (StrFacts.basename_of _ _ Hbase).
    unfold re_search, group. rewrite Hc. split; [|split].
    + intros groups text Hs Hg. by rewrite Hs, Hg.
    + intros groups Hs Hg. by rewrite Hs, Hg.
    + intros Hs. by rewrite Hs.
  - done.
  - intros s' file_path' name Hbase Hbase' Hex.
    rewrite get_local_version_eq. simpl.
    rewrite (StrFacts.basename_of _ _ Hbase), (StrFacts.basename_of _ _ Hbase').
    by rewrite (bool_decide_ext _ _ Hex).
Qed.

Lemma find_first_asset_split r asset_pattern before x after :
  re_compile asset_pattern = Some r ->
  Forall (fun y => regex_search r (name y) = None) before ->
  find_first_asset (before ++ x :: after) asset_pattern =
  match regex_search r (name x) with
  | Some _ => Ok (Some (browser_download_url x))
  | None => find_first_asset after asset_pattern
  end.
Proof.
  intros Hc. induction 1 as [|y before Hy _ IH]; simpl.
  - unfold re_search. by rewrite Hc.
  - unfold re_search at 1. by rewrite Hc, Hy.
Qed.

(** C6: the Asset Resolver returns the download URL of the first asset, in
    listed order, whose name matches the pattern, whatever follows it, and
    none when no name matches or the list is empty. *)
Theorem C6_asset_resolver_first_match (rel : release)
    (asset_pattern : string) (s : state) :
  (forall r before x after,
     re_compile asset_pattern = Some r ->
     assets rel = (before ++ x :: after)%list ->
     Forall (fun y => regex_search r (name y) = None) before ->
     is_Some (regex_search r (name x)) ->
     fst (run (find_asset_url rel asset_pattern) s) =
     Ok (Some (browser_download_url x))) /\
  (forall r,
     re_compile asset_pattern = Some r ->
     Forall (fun y => regex_search r (name y) = None) (assets rel) ->
     fst (run (find_asset_url rel asset_pattern) s) = Ok None) /\
  (assets rel = [] ->
   fst (run (find_asset_url rel asset_pattern) s) = Ok None) /\
  snd (run (find_asset_url rel asset_pattern) s) =
    logged s [Enter (F_find_asset_url asset_pattern)].
Proof.
  unfold run. rewrite find_asset_url_eq. simpl. repeat apply conj.
  - intros r before x after Hc -> Hbefore [m Hm].
    by rewrite (find_first_asset_split r _ _ _ _ Hc Hbefore), Hm.
  - intros r Hc Hall.
    rewrite <- (app_nil_r (assets rel)).
    induction Hall as [|y l Hy _ IH]; [done|]. simpl.
    unfold re_search at 1. by rewrite Hc, Hy.
  - by intros ->.
  - done.
Qed.

(** C8: the Config Loader fails with the not-found error exactly when the
    path does not exist; otherwise it decodes the file and returns the
    value under ["repositories"]; and when it fails, whatever the failure,
    [main] stops there: no repository is processed and the error is
    reported once, at the top level. *)
Theorem C8_config_loader (config_path : string) (s : state) :
  (fst (run (load_repositories config_path) s)
     = Raise (FileNotFoundError config_path)
   <-> fs s !! config_path = None) /\
  (forall p,
     fst (run (load_repositories config_path) s) = Raise (FileNotFoundError p) ->
     fs s !! config_path = None) /\
  (forall content doc repositories,
     fs s !! config_path = Some content ->
     json_loads content = Some doc ->
     doc !! "repositories" = Some repositories ->
     fst (run (load_repositories config_path) s) = Ok repositories) /\
  snd (run (load_repositories config_path) s) =
    logged s [Enter (F_load_repositories config_path)] /\
  (forall e,
     fst (run (load_repositories "repo.json") s) = Raise e ->
     run main s =
     (Ok tt, logged s [Enter F_main; Enter (F_load_repositories "repo.json");
                       Print (MsgProgramError e)]) /\
     invoked (trace (snd (run main s))) = invoked (trace s) /\
     fs (snd (run main s)) = fs s).
Proof.
  split; [|split; [|split; [|split]]].
  - unfold run. rewrite load_repositories_eq. simpl.
    destruct (fs s !! config_path) as [content|]; [|done].
    destruct (json_loads content) as [doc|]; [|done].
    by destruct (doc !! "repositories").
  - intros p. unfold run. rewrite load_repositories_eq. simpl.
    destruct (fs s !! config_path) as [content|]; [|done].
    destruct (json_loads content) as [doc|]; [|done].
    by destruct (doc !! "repositories").
  - intros content doc repositories Hf Hj Hd.
    unfold run. rewrite load_repositories_eq. simpl. by rewrite Hf, Hj, Hd.
  - unfold run. by rewrite load_repositories_eq.
  - intros e He. rewrite (main_config_failure s e He). simpl.
    repeat apply conj; [done| |done].
    split_trace. simpl. by rewrite app_nil_r.
Qed.

Lemma extracted_exists local_file version_pattern s v :
  fst (run (get_local_version local_file version_pattern) s) = Ok (Some v) ->
  is_Some (fs s !! local_file).
Proof.
  unfold run. rewrite get_local_version_eq. simpl.
  case_bool_decide; [done|]. by intros [=].
Qed.

(** Lines 81 to 99 under the [except] block: the Asset Resolver is called
    once; a download starts exactly when it returns a non-empty URL. *)
Lemma replace_observed rel asset_pattern local_file repo_name f s :
  f !! "repo_name" = Some repo_name ->
  f !! "temp_file" = None ->
  exists b f' fs' evs,
    try_except (download_and_replace rel asset_pattern local_file repo_name)
      update_repository_except f s =
    (b, f', {| fs := fs'; trace := (trace s ++ evs)%list |}) /\
    resolved evs = [asset_pattern] /\
    (forall url,
       find_first_asset (assets rel) asset_pattern = Ok (Some url) ->
       url <> "" ->
       downloads evs = [(url, local_file +:+ ".tmp")]) /\
    (find_first_asset (assets rel) asset_pattern = Ok None \/
     find_first_asset (assets rel) asset_pattern = Ok (Some "") ->
     b = Ok false /\ fs' = fs s /\ downloads evs = [] /\ file_ops evs = []).
Proof.
  intros Hn Ht.
  destruct (find_first_asset (assets rel) asset_pattern) as [[url|]|e] eqn:Hfind.
  - destruct (decide (url = "")) as [->|Hurl].
    { rewrite (replace_no_asset _ _ _ _ (Some "")) by auto.
      eexists _, _, _, _. split; [reflexivity|].
      split; [done|]. split; [by intros url [= <-]|done]. }
    destruct (replace_with_url rel asset_pattern local_file repo_name url f s
                Hfind Hurl Hn)
      as (res & fs' & ops & -> & (_ & _ & Hres & Hdown) & _).
    eexists _, _, _, _. split; [reflexivity|]. split; [|split].
    + split_trace. by rewrite Hres.
    + intros url' [= <-] _. split_trace. by rewrite Hdown.
    + by intros [[=] | [= ->]].
  - rewrite (replace_no_asset _ _ _ _ None) by auto.
    eexists _, _, _, _. split; [reflexivity|].
    split; [done|]. split; [by intros url [=]|done].
  - rewrite (replace_resolver_raises _ _ _ _ e) by done.
    eexists _, _, _, _. split; [reflexivity|].
    split; [done|]. split; [by intros url [=]|]. by intros [[=] | [=]].
Qed.

(** C3, in the form the code satisfies: once the local version is extracted
    and the release fetched, a remote version that is not strictly greater
    ends the turn with success, nothing resolved, nothing downloaded, no file
    touched; a strictly greater one sends the turn to the Asset Resolver,
    and the download starts when the resolver returns a URL that is not the
    empty string: when it returns none, or the empty string, the turn fails
    without downloading and without touching a file. *)
Theorem C3_compare_then_resolve_then_download
    (cfg : gmap string string)
    (repo local_file version_pattern repo_name v : string)
    (local_ver remote_ver : Version.t) (rel : release) (s : state) :
  cfg !! "github_repo" = Some repo ->
  cfg !! "local_file" = Some local_file ->
  cfg !! "version_pattern" = Some version_pattern ->
  cfg !! "name" = Some repo_name ->
  fst (run (get_local_version local_file version_pattern) s) = Ok (Some v) ->
  v <> "" ->
  Version.parse v = Some local_ver ->
  fst (run (get_latest_release repo) s) = Ok rel ->
  Version.parse (remote_version_string rel) = Some remote_ver ->
  let asset_pattern := default version_pattern (cfg !! "asset_pattern") in
  let out := run (update_repository cfg) s in
  (Version.gt remote_ver local_ver = false ->
   fst out = Ok true /\
   fs (snd out) = fs s /\
   resolved (trace (snd out)) = resolved (trace s) /\
   downloads (trace (snd out)) = downloads (trace s) /\
   file_ops (trace (snd out)) = file_ops (trace s) /\
   requested (trace (snd out)) = (requested (trace s) ++ [api_url repo])%list) /\
  (Version.gt remote_ver local_ver = true ->
   resolved (trace (snd out)) = (resolved (trace s) ++ [asset_pattern])%list /\
   (forall url,
      find_first_asset (assets rel) asset_pattern = Ok (Some url) ->
      url <> "" ->
      downloads (trace (snd out)) =
      (downloads (trace s) ++ [(url, local_file +:+ ".tmp")])%list) /\
   (find_first_asset (assets rel) asset_pattern = Ok None \/
    find_first_asset (assets rel) asset_pattern = Ok (Some "") ->
    fst out = Ok false /\
    fs (snd out) = fs s /\
    downloads (trace (snd out)) = downloads (trace s) /\
    file_ops (trace (snd out)) = file_ops (trace s))).
Proof.
  intros Hrepo Hfile Hpat Hname Hlocal Hv Hlv Hrel Hrv asset_pattern out.
  subst out asset_pattern. unfold run.
  rewrite (update_repository_compared _ _ _ _ _ Hrepo Hfile Hpat Hname
             _ v local_ver rel remote_ver) by done.
  rewrite VersionFacts.gt_not_le.
  destruct (Version.le remote_ver local_ver).
  - split; [intros _|done]. simpl. unfold compared_events.
    repeat apply conj; try done.
    all: rewrite <- app_assoc; split_trace; simpl; by rewrite ?app_nil_r.
  - split; [done|intros _].
    destruct (replace_observed rel
                (default version_pattern (cfg !! "asset_pattern"))
                local_file repo_name
                {["repo_name" := repo_name]}
                (logged s (compared_events cfg repo local_file version_pattern
                             repo_name local_ver remote_ver))
                ltac:(apply lookup_singleton_eq) ltac:(done))
      as (b & f' & fs' & evs & -> & Hres & Hdown & Hnone).
    simpl. unfold compared_events. split; [|split].
    + rewrite <- app_assoc. split_trace. simpl. by rewrite Hres.
    + intros url Hfind Hurl. rewrite <- app_assoc. split_trace. simpl.
      by rewrite (Hdown url Hfind Hurl).
    + intros Hfind. destruct (Hnone Hfind) as (-> & -> & Hd & Hf).
      repeat apply conj; try done.
      all: rewrite <- app_assoc; split_trace; simpl.
      * by rewrite Hd, app_nil_r.
      * by rewrite Hf, app_nil_r.
Qed.

(** Whether a download succeeds does not depend on the state it starts
    from. *)
Lemma download_outcome_any_state url path s s' :
  fst (run (download_file url path) s) = fst (run (download_file url path) s').
Proof.
  destruct (download_file_spec url path) as (outcome & written & ops & Hdl & _).
  unfold run. by rewrite !Hdl.
Qed.

(** C4, in the form the code satisfies: when the download step fails and
    the system does not refuse to remove the temporary file, the
    Orchestrator returns failure (no exception leaves it, so the batch
    goes on), the temporary file [<local_file>.tmp] does not exist
    afterwards, and every other file, the local file among them, is as it
    was. *)
Theorem C4_failed_download_cleans_up
    (cfg : gmap string string)
    (repo local_file version_pattern repo_name v url : string)
    (local_ver remote_ver : Version.t) (rel : release) (e : exn)
    (s : state) :
  cfg !! "github_repo" = Some repo ->
  cfg !! "local_file" = Some local_file ->
  cfg !! "version_pattern" = Some version_pattern ->
  cfg !! "name" = Some repo_name ->
  fst (run (get_local_version local_file version_pattern) s) = Ok (Some v) ->
  v <> "" ->
  Version.parse v = Some local_ver ->
  fst (run (get_latest_release repo) s) = Ok rel ->
  Version.parse (remote_version_string rel) = Some remote_ver ->
  Version.gt remote_ver local_ver = true ->
  find_first_asset (assets rel)
    (default version_pattern (cfg !! "asset_pattern")) = Ok (Some url) ->
  url <> "" ->
  fst (run (download_file url (local_file +:+ ".tmp")) s) = Raise e ->
  remove_fails (local_file +:+ ".tmp") = false ->
  let out := run (update_repository cfg) s in
  fst out = Ok false /\
  fs (snd out) !! (local_file +:+ ".tmp") = None /\
  fs (snd out) !! local_file = fs s !! local_file /\
  (forall p, p <> local_file +:+ ".tmp" -> fs (snd out) !! p = fs s !! p) /\
  errors (trace (snd out)) = (errors (trace s) ++ [MsgRepoError repo_name e])%list /\
  invoked (trace (snd out)) = (invoked (trace s) ++ [cfg])%list.
Proof.
  intros Hrepo Hfile Hpat Hname Hlocal Hv Hlv Hrel Hrv Hgt Hfind Hurl Hdl Hrm
    out.
  subst out. unfold run.
  rewrite (update_repository_compared _ _ _ _ _ Hrepo Hfile Hpat Hname
             _ v local_ver rel remote_ver) by done.
  rewrite VersionFacts.gt_not_le in Hgt.
  destruct (Version.le remote_ver local_ver); [done|].
  destruct (replace_download_fails rel
              (default version_pattern (cfg !! "asset_pattern"))
              local_file repo_name url e
              {["repo_name" := repo_name]}
              (logged s (compared_events cfg repo local_file version_pattern
                           repo_name local_ver remote_ver))
              Hfind Hurl ltac:(apply lookup_singleton_eq) Hrm
              ltac:(by rewrite (download_outcome_any_state _ _ _ s)))
    as (ops1 & ops2 & -> & Hops1 & Hops2).
  destruct (file_ops_only _ Hops1) as (Hi1 & _ & _ & _ & He1).
  destruct (file_ops_only _ Hops2) as (Hi2 & _ & _ & _ & He2).
  simpl. unfold compared_events. repeat apply conj.
  - done.
  - apply lookup_delete_eq.
  - apply lookup_delete_ne. apply StrFacts.tmp_suffix_ne.
  - intros p Hp. by apply lookup_delete_ne.
  - rewrite <- app_assoc. split_trace. simpl. by rewrite He1, He2.
  - rewrite <- app_assoc. split_trace. simpl. by rewrite Hi1, Hi2.
Qed.

(** C7: on the successful update path (the download returns, and the
    system refuses neither the removal of the old file nor the renaming)
    the asset is written to [<local_file>.tmp], then the file at
    [local_file] is removed, then the temporary file is renamed to
    [local_file]; afterwards [local_file] holds the downloaded bytes, there
    is no [.tmp] file, and no other file has changed. *)
Theorem C7_replace_download_remove_rename
    (cfg : gmap string string)
    (repo local_file version_pattern repo_name v url x : string)
    (local_ver remote_ver : Version.t) (rel : release) (r : response)
    (s : state) :
  cfg !! "github_repo" = Some repo ->
  cfg !! "local_file" = Some local_file ->
  cfg !! "version_pattern" = Some version_pattern ->
  cfg !! "name" = Some repo_name ->
  fst (run (get_local_version local_file version_pattern) s) = Ok (Some v) ->
  v <> "" ->
  Version.parse v = Some local_ver ->
  fst (run (get_latest_release repo) s) = Ok rel ->
  Version.parse (remote_version_string rel) = Some remote_ver ->
  Version.gt remote_ver local_ver = true ->
  find_first_asset (assets rel)
    (default version_pattern (cfg !! "asset_pattern")) = Ok (Some url) ->
  url <> "" ->
  net url = Response r ->
  fst (run (download_file url (local_file +:+ ".tmp")) s) = Ok x ->
  remove_fails local_file = false ->
  rename_fails (local_file +:+ ".tmp") local_file = false ->
  let out := run (update_repository cfg) s in
  let temp_file := local_file +:+ ".tmp" in
  fst out = Ok true /\
  file_ops (trace (snd out)) =
    (file_ops (trace s) ++
     OpenW temp_file :: map (WriteChunk temp_file) (chunks r) ++
     [Remove local_file; Rename temp_file local_file])%list /\
  downloads (trace (snd out)) = (downloads (trace s) ++ [(url, temp_file)])%list /\
  fs (snd out) !! local_file = Some (concat (chunks r)) /\
  fs (snd out) !! temp_file = None /\
  fs (snd out) = <[local_file := concat (chunks r)]> (delete temp_file (fs s)).
Proof.
  intros Hrepo Hfile Hpat Hname Hlocal Hv Hlv Hrel Hrv Hgt Hfind Hurl Hnet Hdl
    Hrm Hrn out temp_file.
  subst out temp_file. unfold run.
  pose proof (extracted_exists _ _ _ _ Hlocal) as Hex.
  rewrite (update_repository_compared _ _ _ _ _ Hrepo Hfile Hpat Hname
             _ v local_ver rel remote_ver) by done.
  rewrite VersionFacts.gt_not_le in Hgt.
  destruct (Version.le remote_ver local_ver); [done|].
  destruct (replace_download_ok rel
              (default version_pattern (cfg !! "asset_pattern"))
              local_file repo_name url x
              {["repo_name" := repo_name]}
              (logged s (compared_events cfg repo local_file version_pattern
                           repo_name local_ver remote_ver))
              Hfind Hurl Hrm Hrn
              ltac:(by rewrite (download_outcome_any_state _ _ _ s)))
    as (r' & Hnet' & ->).
  rewrite Hnet in Hnet'. injection Hnet' as <-.
  pose proof (StrFacts.tmp_suffix_ne local_file) as Hne.
  pose proof (file_ops_chunks (local_file +:+ ".tmp") (chunks r)) as Hchunks.
  destruct (file_ops_only _ Hchunks) as (_ & _ & _ & Hdown & _).
  simpl. rewrite (bool_decide_eq_true_2 _ Hex).
  unfold compared_events. repeat apply conj.
  - done.
  - rewrite <- app_assoc. split_trace. simpl. by rewrite Hchunks.
  - rewrite <- app_assoc. split_trace. simpl. by rewrite Hdown.
  - apply lookup_insert_eq.
  - rewrite lookup_insert_ne by done. apply lookup_delete_eq.
  - done.
Qed.

(** C10: when the pattern matches the base name of the local file and
    group 1 captures the empty string, the Local Version Extractor returns
    that empty string, not none, and the Orchestrator does with it what it
    does with none: it fails the repository without asking for the
    release. *)
Theorem C10_empty_capture_fails_without_fetch
    (cfg : gmap string string)
    (repo local_file version_pattern repo_name : string)
    (r : regex) (groups : list (option string)) (s : state) :
  cfg !! "github_repo" = Some repo ->
  cfg !! "local_file" = Some local_file ->
  cfg !! "version_pattern" = Some version_pattern ->
  cfg !! "name" = Some repo_name ->
  is_Some (fs s !! local_file) ->
  re_compile version_pattern = Some r ->
  regex_search r (OsPath.basename local_file) = Some groups ->
  groups !! 1%nat = Some (Some "") ->
  let unresolved := [Enter (F_update_repository cfg);
                     Print (MsgChecking repo_name);
                     Enter (F_get_local_version local_file version_pattern);
                     Print (MsgNoLocalVersion local_file)] in
  fst (run (get_local_version local_file version_pattern) s) = Ok (Some "") /\
  run (update_repository cfg) s = (Ok false, logged s unresolved) /\
  requested (trace (snd (run (update_repository cfg) s))) = requested (trace s) /\
  (forall s0,
     fst (run (get_local_version local_file version_pattern) s0) = Ok None ->
     run (update_repository cfg) s0 = (Ok false, logged s0 unresolved)).
Proof.
  intros Hrepo Hfile Hpat Hname Hex Hc Hs Hg unresolved.
  assert (Hlocal : fst (run (get_local_version local_file version_pattern) s)
                   = Ok (Some "")).
  { unfold run. rewrite get_local_version_eq. simpl.
    rewrite bool_decide_eq_true_2 by done.
    unfold re_search, group. by rewrite Hc, Hs, Hg. }
  assert (Hrun : run (update_repository cfg) s = (Ok false, logged s unresolved)).
  { unfold run.
    by rewrite (update_repository_no_local_version _ _ _ _ _ Hrepo Hfile Hpat
                  Hname _ (Some "")) by auto. }
  split; [done|]. split; [done|]. split.
  - rewrite Hrun. simpl. split_trace. simpl. by rewrite app_nil_r.
  - intros s0 Hnone. unfold run.
    by rewrite (update_repository_no_local_version _ _ _ _ _ Hrepo Hfile Hpat
                  Hname _ None) by auto.
Qed.

End Claims.

(** ** The claims on the examples *)

(** Discharges a hypothesis of a claim on an example by evaluation. *)
Ltac by_evaluation :=
  first [ discriminate
        | vm_compute; reflexivity
        | eexists; vm_compute; reflexivity ].

(** C1: a configuration whose first entry lacks the key ["name"] and whose
    second entry is complete.  The lookup failure of the first entry leaves
    [update_repository] as a [NameError] raised by its own [except] block,
    [main] catches it outside the loop, and the second entry is never
    processed, although the same entry alone is processed and updated. *)
Theorem C1_missing_key_stops_the_batch :
  let out := run (@main Demo.env_newer) Demo.disk_nameless_tool in
  let alone := run (@main Demo.env_newer) Demo.disk_tool in
  fst out = Ok tt /\
  invoked (trace (snd out)) = [Demo.nameless] /\
  errors (trace (snd out)) = [MsgProgramError (NameError "repo_name")] /\
  fs (snd out) !! "tool-1.2.0.zip" = Some Demo.old_content /\
  invoked (trace (snd alone)) = [Demo.tool] /\
  errors (trace (snd alone)) = [] /\
  fs (snd alone) !! "tool-1.2.0.zip" = Some (concat Demo.new_chunks).
Proof. cbv zeta. repeat apply conj; vm_compute; reflexivity. Qed.

(** Three entries with their keys, the second of which fails at the fetch:
    the first and the third are processed all the same. *)
Example batch_continues_after_fetch_failure :
  let out := run (@main Demo.env_three) Demo.disk_three in
  invoked (trace (snd out)) = [Demo.tool; Demo.ghost; Demo.tool] /\
  errors (trace (snd out))
    = [MsgRepoError "ghost" (ConnectionError (api_url "acme/ghost"))] /\
  last (trace (snd out)) = Some (Print MsgAllDone).
Proof. cbv zeta. repeat apply conj; vm_compute; reflexivity. Qed.

(** C2: for the tag [vv1.2.0] the Orchestrator parses [1.2.0]: both leading
    [v]s are gone, where removing one gives [v1.2.0]; and for the tag
    [vvv1.2.0] it parses a version where the tag less one [v] is none. *)
Theorem C2_lstrip_removes_every_leading_v :
  remote_version_string {| tag_name := "vv1.2.0"; assets := [] |} = "1.2.0" /\
  Str.remove_one "v" "vv1.2.0" = "v1.2.0" /\
  Version.parse (remote_version_string {| tag_name := "vvv1.2.0"; assets := [] |})
    = Some Demo.version_1_2_0 /\
  Version.parse (Str.remove_one "v" "vvv1.2.0") = None.
Proof. repeat apply conj; vm_compute; reflexivity. Qed.

(** C3, as stated, fails: the local version 1.2.0 is extracted, the release
    v1.3.0 is fetched and is strictly greater, and the Orchestrator does not
    download anything, because no asset of the release matches. *)
Lemma C3_newer_release_without_matching_asset :
  let out := run (@update_repository Demo.env_tarball Demo.tool) Demo.disk_tool in
  fst (run (@get_local_version Demo.env_tarball "tool-1.2.0.zip" Demo.pattern)
         Demo.disk_tool) = Ok (Some "1.2.0") /\
  fst (run (@get_latest_release Demo.env_tarball "acme/tool") Demo.disk_tool)
    = Ok Demo.release_tarball /\
  Version.compare_str (remote_version_string Demo.release_tarball) "1.2.0"
    = Some Gt /\
  fst out = Ok false /\
  resolved (trace (snd out)) = [Demo.pattern] /\
  downloads (trace (snd out)) = [] /\
  requested (trace (snd out)) = [api_url "acme/tool"] /\
  file_ops (trace (snd out)) = [].
Proof. cbv zeta. repeat apply conj; vm_compute; reflexivity. Qed.

(** The other way a newer release is not downloaded: its matching asset
    has the empty string for download URL, which line 83 takes for no URL. *)
Example C3_matching_asset_with_empty_url :
  let out := run (@update_repository DemoMore.env_no_url Demo.tool)
               Demo.disk_tool in
  fst (run (@find_asset_url DemoMore.env_no_url DemoMore.release_no_url
              Demo.pattern) Demo.disk_tool) = Ok (Some "") /\
  fst out = Ok false /\
  resolved (trace (snd out)) = [Demo.pattern] /\
  downloads (trace (snd out)) = [] /\
  file_ops (trace (snd out)) = [].
Proof. cbv zeta. repeat apply conj; vm_compute; reflexivity. Qed.

(** C3 on the example: the release 1.3.0 is newer than the local 1.2.0 and
    has a matching asset, so its download starts. *)
Lemma C3_witness :
  downloads (trace (snd (run (@update_repository Demo.env_newer Demo.tool)
                           Demo.disk_tool)))
  = [(Demo.asset_url, "tool-1.2.0.zip.tmp")].
Proof.
  pose proof (C3_compare_then_resolve_then_download (H := Demo.env_newer)
                Demo.tool "acme/tool" "tool-1.2.0.zip" Demo.pattern "tool"
                "1.2.0" Demo.version_1_2_0 Demo.version_1_3_0
                Demo.release_1_3_0 Demo.disk_tool
                ltac:(by_evaluation) ltac:(by_evaluation) ltac:(by_evaluation)
                ltac:(by_evaluation) ltac:(by_evaluation) ltac:(by_evaluation)
                ltac:(by_evaluation) ltac:(by_evaluation) ltac:(by_evaluation))
    as Hthm.
  cbv zeta in Hthm. destruct Hthm as (_ & Hnewer).
  destruct Hnewer as (_ & Hdown & _); [by_evaluation|].
  apply (Hdown Demo.asset_url); by_evaluation.
Defined.

(** C3 on the other side: the latest release is the local 1.2.0; the turn
    succeeds and nothing is resolved or downloaded. *)
Example C3_up_to_date :
  let out := run (@update_repository Demo.env_current Demo.tool) Demo.disk_tool in
  fst out = Ok true /\
  resolved (trace (snd out)) = [] /\
  downloads (trace (snd out)) = [] /\
  file_ops (trace (snd out)) = [].
Proof. cbv zeta. repeat apply conj; vm_compute; reflexivity. Qed.

(** C4, as stated, fails: the path of the temporary file is taken by
    something that can neither be opened for writing nor removed.  The
    download step fails at [open]; the [except] block finds the path and
    calls [os.remove], which raises; the exception leaves
    [update_repository], the path is still there, and in a batch the entry
    after it is never processed. *)
Lemma C4_cleanup_refused :
  let out := run (@update_repository DemoMore.env_taken Demo.tool)
               DemoMore.disk_taken in
  let batch := run (@main DemoMore.env_taken) DemoMore.disk_taken in
  fst (run (@download_file DemoMore.env_taken Demo.asset_url "tool-1.2.0.zip.tmp")
         DemoMore.disk_taken) = Raise (OSError "tool-1.2.0.zip.tmp") /\
  fst out = Raise (OSError "tool-1.2.0.zip.tmp") /\
  fs (snd out) !! "tool-1.2.0.zip.tmp" = Some [] /\
  errors (trace (snd out))
    = [MsgRepoError "tool" (OSError "tool-1.2.0.zip.tmp")] /\
  fst (run (@load_repositories DemoMore.env_taken "repo.json") DemoMore.disk_taken)
    = Ok [Demo.tool; Demo.ghost] /\
  invoked (trace (snd batch)) = [Demo.tool] /\
  last (trace (snd batch))
    = Some (Print (MsgProgramError (OSError "tool-1.2.0.zip.tmp"))).
Proof. cbv zeta. repeat apply conj; vm_compute; reflexivity. Qed.

(** C4 on the example: the stream of the asset breaks after its first chunk;
    the turn fails, the temporary file is gone and the local file is the old
    one. *)
Lemma C4_witness :
  let out := run (@update_repository Demo.env_broken Demo.tool) Demo.disk_tool in
  fst out = Ok false /\
  fs (snd out) !! "tool-1.2.0.zip.tmp" = None /\
  fs (snd out) !! "tool-1.2.0.zip" = Some Demo.old_content.
Proof.
  pose proof (C4_failed_download_cleans_up (H := Demo.env_broken)
                Demo.tool "acme/tool" "tool-1.2.0.zip" Demo.pattern "tool"
                "1.2.0" Demo.asset_url Demo.version_1_2_0 Demo.version_1_3_0
                Demo.release_1_3_0 (ChunkedEncodingError Demo.asset_url)
                Demo.disk_tool
                ltac:(by_evaluation) ltac:(by_evaluation) ltac:(by_evaluation)
                ltac:(by_evaluation) ltac:(by_evaluation) ltac:(by_evaluation)
                ltac:(by_evaluation) ltac:(by_evaluation) ltac:(by_evaluation)
                ltac:(by_evaluation) ltac:(by_evaluation) ltac:(by_evaluation)
                ltac:(by_evaluation) ltac:(by_evaluation))
    as Hthm.
  cbv zeta in Hthm. destruct Hthm as (Hres & Htmp & Hlocal & _).
  split; [exact Hres|]. split; [exact Htmp|]. exact Hlocal.
Defined.

(** C7 on the example of the spec: local file [tool-1.2.0.zip], latest tag
    [v1.3.0] with the asset [tool-1.3.0.zip]. *)
Lemma C7_witness :
  let out := run (@update_repository Demo.env_newer Demo.tool) Demo.disk_tool in
  fst out = Ok true /\
  file_ops (trace (snd out)) =
    [OpenW "tool-1.2.0.zip.tmp";
     WriteChunk "tool-1.2.0.zip.tmp" [Byte.x01; Byte.x03];
     WriteChunk "tool-1.2.0.zip.tmp" [Byte.x00];
     Remove "tool-1.2.0.zip";
     Rename "tool-1.2.0.zip.tmp" "tool-1.2.0.zip"] /\
  fs (snd out) !! "tool-1.2.0.zip" = Some [Byte.x01; Byte.x03; Byte.x00] /\
  fs (snd out) !! "tool-1.2.0.zip.tmp" = None.
Proof.
  pose proof (C7_replace_download_remove_rename (H := Demo.env_newer)
                Demo.tool "acme/tool" "tool-1.2.0.zip" Demo.pattern "tool"
                "1.2.0" Demo.asset_url "tool-1.2.0.zip.tmp"
                Demo.version_1_2_0 Demo.version_1_3_0 Demo.release_1_3_0
                (Demo.file_response Demo.new_chunks false) Demo.disk_tool
                ltac:(by_evaluation) ltac:(by_evaluation) ltac:(by_evaluation)
                ltac:(by_evaluation) ltac:(by_evaluation) ltac:(by_evaluation)
                ltac:(by_evaluation) ltac:(by_evaluation) ltac:(by_evaluation)
                ltac:(by_evaluation) ltac:(by_evaluation) ltac:(by_evaluation)
                ltac:(by_evaluation) ltac:(by_evaluation) ltac:(by_evaluation)
                ltac:(by_evaluation))
    as Hthm.
  cbv zeta in Hthm. destruct Hthm as (Hres & Hops & _ & Hlocal & Htmp & _).
  split; [exact Hres|]. split; [exact Hops|]. split; [exact Hlocal|]. exact Htmp.
Defined.

(** C10 on an example: the name [blank-.zip] matches the pattern with an
    empty group 1; nothing is requested. *)
Lemma C10_witness :
  let out := run (@update_repository Demo.env_current Demo.blank) Demo.disk_blank in
  fst (run (@get_local_version Demo.env_current "dist/blank-.zip"
              "blank-(\d*)\.zip") Demo.disk_blank) = Ok (Some "") /\
  fst out = Ok false /\
  requested (trace (snd out)) = [].
Proof.
  pose proof (C10_empty_capture_fails_without_fetch (H := Demo.env_current)
                Demo.blank "acme/blank" "dist/blank-.zip" "blank-(\d*)\.zip"
                "blank"
                [MiniRe.One (MiniRe.Lit "b"); MiniRe.One (MiniRe.Lit "l");
                 MiniRe.One (MiniRe.Lit "a"); MiniRe.One (MiniRe.Lit "n");
                 MiniRe.One (MiniRe.Lit "k"); MiniRe.One (MiniRe.Lit "-");
                 MiniRe.Open; MiniRe.Many MiniRe.Digit 0; MiniRe.Close;
                 MiniRe.One (MiniRe.Lit "."); MiniRe.One (MiniRe.Lit "z");
                 MiniRe.One (MiniRe.Lit "i"); MiniRe.One (MiniRe.Lit "p")]
                [Some "blank-.zip"; Some ""] Demo.disk_blank
                ltac:(by_evaluation) ltac:(by_evaluation) ltac:(by_evaluation)
                ltac:(by_evaluation) ltac:(by_evaluation) ltac:(by_evaluation)
                ltac:(by_evaluation) ltac:(by_evaluation))
    as Hthm.
  cbv zeta in Hthm. destruct Hthm as (Hlocal & Hrun & Hreq & _).
  split; [exact Hlocal|]. split; [by rewrite Hrun | exact Hreq].
Defined.

(** C5, as stated, fails: the pattern matches the base name [tool.zip],
    its group taking no part in the match, and the Local Version Extractor
    returns none, not a text. *)
Lemma C5_group_that_took_no_part :
  option_map (fun r => MiniRe.search r "tool.zip")
    (MiniRe.compile DemoMore.optional_pattern)
  = Some (Some [Some "tool.zip"; None]) /\
  fst (run (@get_local_version Demo.env_newer "tool.zip" DemoMore.optional_pattern)
         DemoMore.disk_plain) = Ok None /\
  fst (run (@get_local_version Demo.env_newer "tool-12.zip"
              DemoMore.optional_pattern)
         {| fs := {[ "tool-12.zip" := Demo.old_content ]}; trace := [] |})
    = Ok (Some "-12").
Proof. repeat apply conj; vm_compute; reflexivity. Qed.

(** C5 on the examples: the version is read from the base name, whatever the
    directories are called; a directory whose name matches does not count;
    and a file that does not exist gives none. *)
Example C5_on_the_examples :
  fst (run (@get_local_version Demo.env_newer "dist/tool-1.2.0.zip" Demo.pattern)
         {| fs := {[ "dist/tool-1.2.0.zip" := Demo.old_content ]}; trace := [] |})
    = Ok (Some "1.2.0") /\
  fst (run (@get_local_version Demo.env_newer "tool-9.9.9.zip/tool-1.2.0.zip"
              Demo.pattern)
         {| fs := {[ "tool-9.9.9.zip/tool-1.2.0.zip" := Demo.old_content ]};
            trace := [] |})
    = Ok (Some "1.2.0") /\
  fst (run (@get_local_version Demo.env_newer "tool-1.2.0.zip/latest.bin"
              Demo.pattern)
         {| fs := {[ "tool-1.2.0.zip/latest.bin" := Demo.old_content ]};
            trace := [] |})
    = Ok None /\
  fst (run (@get_local_version Demo.env_newer "tool-1.2.0.zip" Demo.pattern)
         {| fs := ∅; trace := [] |})
    = Ok None.
Proof. repeat apply conj; vm_compute; reflexivity. Qed.

(** C6 and C8 on the examples. *)
Example C6_on_the_examples :
  let two :=
    {| tag_name := "v1.3.0";
       assets := [ {| name := "notes.txt"; browser_download_url := "u0" |};
                   {| name := "tool-1.3.0.zip"; browser_download_url := "u1" |};
                   {| name := "tool-1.3.1.zip"; browser_download_url := "u2" |} ] |} in
  fst (run (@find_asset_url Demo.env_newer two Demo.pattern) Demo.disk_tool)
    = Ok (Some "u1") /\
  fst (run (@find_asset_url Demo.env_newer Demo.release_tarball Demo.pattern)
         Demo.disk_tool) = Ok None.
Proof. cbv zeta. repeat apply conj; vm_compute; reflexivity. Qed.

Example C8_on_the_examples :
  fst (run (@load_repositories Demo.env_newer "repo.json") Demo.disk_tool)
    = Ok [Demo.tool] /\
  fst (run (@load_repositories Demo.env_newer "repo.json") Demo.disk_blank)
    = Raise (FileNotFoundError "repo.json") /\
  invoked (trace (snd (run (@main Demo.env_newer) Demo.disk_blank))) = [] /\
  errors (trace (snd (run (@main Demo.env_newer) Demo.disk_blank)))
    = [MsgProgramError (FileNotFoundError "repo.json")].
Proof. repeat apply conj; vm_compute; reflexivity. Qed.


(** * More of the program *)

Section Coverage.

Context `{Env}.

Local Arguments Version.parse : simpl never.
Local Arguments Version.le : simpl never.
Local Arguments String.append : simpl never.
Local Arguments OsPath.basename : simpl never.

(** X1: the Release Fetcher makes one request, to the address of the latest
    release of the repository, and touches no file; it raises when the host
    does not answer, when the status is an error (400 to 599), when the body
    is not JSON, and returns the decoded body otherwise. *)
Theorem release_fetcher_contract (repo : string) (s : state) :
  snd (run (get_latest_release repo) s) =
    logged s [Enter (F_get_latest_release repo); HttpGet (api_url repo)] /\
  (net (api_url repo) = Unreachable ->
   fst (run (get_latest_release repo) s)
   = Raise (ConnectionError (api_url repo))) /\
  (forall r,
     net (api_url repo) = Response r ->
     (400 <= status_code r < 600)%Z ->
     fst (run (get_latest_release repo) s) = Raise (HTTPError (status_code r))) /\
  (forall r,
     net (api_url repo) = Response r ->
     ~ (400 <= status_code r < 600)%Z ->
     json_body r = None ->
     fst (run (get_latest_release repo) s) = Raise JSONDecodeError) /\
  (forall r rel,
     net (api_url repo) = Response r ->
     ~ (400 <= status_code r < 600)%Z ->
     json_body r = Some rel ->
     fst (run (get_latest_release repo) s) = Ok rel).
Proof.
  assert (Hbad : forall r, (400 <= status_code r < 600)%Z ->
            ((400 <=? status_code r) && (status_code r <? 600))%Z = true).
  { intros r Hr. apply andb_true_iff. split; [apply Z.leb_le | apply Z.ltb_lt]; lia. }
  assert (Hgood : forall r, ~ (400 <= status_code r < 600)%Z ->
            ((400 <=? status_code r) && (status_code r <? 600))%Z = false).
  { intros r Hr. apply andb_false_iff.
    destruct (Z.leb_spec 400 (status_code r)); [right|by left].
    apply Z.ltb_ge. lia. }
  split; [|split; [|split; [|split]]].
  - destruct (get_latest_release_eq repo) as [outcome Hget].
    unfold run. by rewrite Hget.
  - intros Hnet. unfold run, get_latest_release, call, bind, requests_get, emit.
    simpl. by rewrite Hnet.
  - intros r Hnet Hr.
    unfold run, get_latest_release, call, bind, requests_get, emit,
      raise_for_status.
    simpl. rewrite Hnet. simpl. by rewrite (Hbad r Hr).
  - intros r Hnet Hr Hj.
    unfold run, get_latest_release, call, bind, requests_get, emit,
      raise_for_status, response_json.
    simpl. rewrite Hnet. simpl. rewrite (Hgood r Hr). simpl. by rewrite Hj.
  - intros r rel Hnet Hr Hj.
    unfold run, get_latest_release, call, bind, requests_get, emit,
      raise_for_status, response_json.
    simpl. rewrite Hnet. simpl. rewrite (Hgood r Hr). simpl. by rewrite Hj.
Qed.

(** Without a fault of the disk every chunk is written. *)
Lemma write_chunks_no_fault path cs :
  disk path = NoFault ->
  forall i f s c,
    fs s !! path = Some c ->
    write_chunks path i cs f s =
    (Ok tt, f,
     {| fs := <[path := (c ++ concat cs)%list]> (fs s);
        trace := (trace s ++ map (WriteChunk path) cs)%list |}).
Proof.
  intros Hd. induction cs as [|c1 cs IH]; intros i f s c Hc; simpl.
  - unfold ret. rewrite !app_nil_r. rewrite insert_id by done. by destruct s.
  - unfold file_write. rewrite Hd. unfold bind. rewrite Hc. simpl.
    rewrite (IH _ _ _ (c ++ c1)%list) by (simpl; apply lookup_insert_eq).
    simpl. rewrite insert_insert_eq. by rewrite <- !app_assoc.
Qed.

(** The two ways a download goes: it raises before the destination is
    opened, or the destination is opened and receives the first [k] chunks,
    all of them when the Downloader returns or when the disk has no fault. *)
Lemma download_file_cases url path :
  (exists e, forall f s,
     download_file url path f s =
     (Raise e, f, logged s [Enter (F_download_file url path); HttpGet url])) \/
  (exists r k outcome,
     net url = Response r /\
     (forall f s,
        download_file url path f s =
        (outcome, f,
         {| fs := <[path := concat (take k (chunks r))]> (fs s);
            trace := (trace s ++
                      Enter (F_download_file url path) :: HttpGet url ::
                      OpenW path ::
                      map (WriteChunk path) (take k (chunks r)))%list |})) /\
     (forall x, outcome = Ok x -> x = path /\ k = length (chunks r)) /\
     (disk path = NoFault ->
      k = length (chunks r) /\
      outcome = if interrupted r then Raise (ChunkedEncodingError url)
                else Ok path)).
Proof.
  destruct (net url) as [|r] eqn:Hnet.
  { left. exists (ConnectionError url). intros f s.
    unfold download_file, call, bind, requests_get, emit, logged; simpl.
    rewrite Hnet. simpl. by rewrite <- app_assoc. }
  destruct ((400 <=? status_code r) && (status_code r <? 600))%Z eqn:Hst.
  { left. exists (HTTPError (status_code r)). intros f s.
    unfold download_file, call, bind, requests_get, emit, raise_for_status,
      logged.
    simpl. rewrite Hnet. simpl. rewrite Hst. simpl. by rewrite <- app_assoc. }
  destruct (disk path) as [| |n] eqn:Hd.
  - right. exists r, (length (chunks r)),
      (if interrupted r then Raise (ChunkedEncodingError url) else Ok path).
    split; [done|]. split; [|split].
    + intros f s.
      unfold download_file, call, bind, requests_get, emit, raise_for_status,
        open_wb.
      simpl. rewrite Hnet. simpl. rewrite Hst. simpl. rewrite Hd.
      rewrite (write_chunks_no_fault path (chunks r) Hd _ _ _ [])
        by (simpl; apply lookup_insert_eq).
      simpl. rewrite insert_insert_eq, firstn_all. rewrite <- !app_assoc. simpl.
      by destruct (interrupted r).
    + intros x. destruct (interrupted r); [done|]. by intros [= <-].
    + done.
  - left. exists (OSError path). intros f s.
    unfold download_file, call, bind, requests_get, emit, raise_for_status,
      open_wb, logged.
    simpl. rewrite Hnet. simpl. rewrite Hst. simpl. rewrite Hd. simpl.
    by rewrite <- app_assoc.
  - right. destruct (write_chunks_spec path (chunks r) 0) as [k [Hk Hw]].
    exists r, k,
      (if Nat.eqb k (length (chunks r))
       then if interrupted r then Raise (ChunkedEncodingError url) else Ok path
       else Raise (OSError path)).
    split; [done|]. split; [|split].
    + intros f s.
      unfold download_file, call, bind, requests_get, emit, raise_for_status,
        open_wb.
      simpl. rewrite Hnet. simpl. rewrite Hst. simpl. rewrite Hd.
      rewrite (Hw _ _ []) by (simpl; apply lookup_insert_eq). simpl.
      rewrite insert_insert_eq. rewrite <- !app_assoc. simpl.
      destruct (Nat.eqb k (length (chunks r))); [|done].
      by destruct (interrupted r).
    + intros x. destruct (Nat.eqb k (length (chunks r))) eqn:Ek; [|done].
      apply Nat.eqb_eq in Ek. destruct (interrupted r); [done|].
      by intros [= <-].
    + done.
Qed.

(** X2: the Downloader changes no file but its destination; the destination
    is either as it was (nothing was opened) or holds the first chunks of the
    body, whatever it held before; when the Downloader returns, it returns
    the destination, which then holds the whole body; and it makes exactly
    one request. *)
Theorem downloader_contract (url path : string) (s : state) :
  let out := run (download_file url path) s in
  (forall p, p <> path -> fs (snd out) !! p = fs s !! p) /\
  (fs (snd out) !! path = fs s !! path \/
   exists r k, net url = Response r /\
               fs (snd out) !! path = Some (concat (take k (chunks r)))) /\
  (forall x,
     fst out = Ok x ->
     x = path /\
     exists r, net url = Response r /\
               fs (snd out) !! path = Some (concat (chunks r))) /\
  requested (trace (snd out)) = (requested (trace s) ++ [url])%list /\
  downloads (trace (snd out)) = (downloads (trace s) ++ [(url, path)])%list.
Proof.
  cbv zeta. unfold run.
  destruct (download_file_cases url path)
    as [[e Hdl] | (r & k & outcome & Hnet & Hdl & Hok & _)]; rewrite Hdl; simpl.
  - split; [done|]. split; [by left|]. split; [done|].
    split; split_trace; simpl; by rewrite ?app_nil_r.
  - destruct (file_ops_only _
                (file_ops_chunks path (take k (chunks r))))
      as (_ & Hreq & _ & Hdown & _).
    split; [|split; [|split; [|split]]].
    + intros p Hp. by rewrite lookup_insert_ne.
    + right. exists r, k. split; [done|]. apply lookup_insert_eq.
    + intros x Hx. destruct (Hok x Hx) as [-> ->]. split; [done|].
      exists r. split; [done|]. rewrite lookup_insert_eq. by rewrite firstn_all.
    + split_trace. simpl. by rewrite Hreq.
    + split_trace. simpl. by rewrite Hdown.
Qed.

(** X3: when the stream of the body breaks, the Downloader raises and leaves
    its destination on disk with the chunks that arrived: what the
    destination held before is lost, and the Downloader removes nothing. *)
Theorem broken_stream_leaves_partial_file (url path : string) (r : response)
    (s : state) :
  net url = Response r ->
  ((400 <=? status_code r) && (status_code r <? 600))%Z = false ->
  disk path = NoFault ->
  interrupted r = true ->
  let out := run (download_file url path) s in
  fst out = Raise (ChunkedEncodingError url) /\
  fs (snd out) !! path = Some (concat (chunks r)) /\
  file_ops (trace (snd out)) =
    (file_ops (trace s) ++ OpenW path :: map (WriteChunk path) (chunks r))%list.
Proof.
  intros Hnet Hst Hd Hint. cbv zeta. unfold run.
  destruct (download_file_cases url path)
    as [[e Hdl] | (r' & k & outcome & Hnet' & Hdl & _ & Hall)].
  - exfalso. specialize (Hdl ∅ s).
    unfold download_file, call, bind, requests_get, emit, raise_for_status,
      open_wb in Hdl.
    simpl in Hdl. rewrite Hnet in Hdl. simpl in Hdl. rewrite Hst in Hdl.
    simpl in Hdl. rewrite Hd in Hdl.
    rewrite (write_chunks_no_fault path (chunks r) Hd _ _ _ []) in Hdl
      by (simpl; apply lookup_insert_eq).
    simpl in Hdl. rewrite Hint in Hdl. simpl in Hdl. unfold raise, logged in Hdl.
    injection Hdl as _ _ Htr. apply (f_equal length) in Htr.
    rewrite !length_app in Htr. simpl in Htr. lia.
  - rewrite Hnet in Hnet'. injection Hnet' as <-.
    destruct (Hall Hd) as [-> ->]. rewrite Hdl, Hint. simpl.
    rewrite firstn_all. split; [done|]. split; [apply lookup_insert_eq|].
    split_trace. simpl. f_equal. f_equal. apply file_ops_chunks.
Qed.

Lemma find_first_asset_some l asset_pattern url :
  find_first_asset l asset_pattern = Ok (Some url) ->
  exists r x,
    re_compile asset_pattern = Some r /\
    In x l /\
    is_Some (regex_search r (name x)) /\
    browser_download_url x = url.
Proof.
  induction l as [|x l IH]; simpl; [done|].
  unfold re_search at 1.
  destruct (re_compile asset_pattern) as [r|] eqn:Hc; [|done].
  destruct (regex_search r (name x)) as [m|] eqn:Hm.
  - intros [= <-]. exists r, x. rewrite Hm. repeat split; eauto.
  - intros Hrest. destruct (IH Hrest) as (r' & y & Hr' & Hin & Hy & Hurl).
    exists r', y. repeat split; auto.
Qed.

Lemma find_first_asset_none l asset_pattern r :
  re_compile asset_pattern = Some r ->
  find_first_asset l asset_pattern = Ok None ->
  Forall (fun x => regex_search r (name x) = None) l.
Proof.
  intros Hc. induction l as [|x l IH]; simpl; [constructor|].
  unfold re_search at 1. rewrite Hc.
  destruct (regex_search r (name x)) eqn:Hm; [done|].
  intros Hrest. constructor; auto.
Qed.

(** X4: a URL the Asset Resolver returns is the URL of a listed asset whose
    name matches the pattern; when it returns none, no listed name matches;
    and a pattern that is not a regular expression makes it raise as soon as
    there is an asset to try it on, while an empty list gives none whatever
    the pattern. *)
Theorem asset_resolver_sound (rel : release) (asset_pattern : string)
    (s : state) :
  (forall url,
     fst (run (find_asset_url rel asset_pattern) s) = Ok (Some url) ->
     exists r x,
       re_compile asset_pattern = Some r /\
       In x (assets rel) /\
       is_Some (regex_search r (name x)) /\
       browser_download_url x = url) /\
  (forall r,
     re_compile asset_pattern = Some r ->
     fst (run (find_asset_url rel asset_pattern) s) = Ok None ->
     Forall (fun x => regex_search r (name x) = None) (assets rel)) /\
  (re_compile asset_pattern = None ->
   assets rel <> [] ->
   fst (run (find_asset_url rel asset_pattern) s)
   = Raise (ReError asset_pattern)) /\
  (re_compile asset_pattern = None ->
   assets rel = [] ->
   fst (run (find_asset_url rel asset_pattern) s) = Ok None).
Proof.
  unfold run. rewrite find_asset_url_eq. simpl.
  split; [|split; [|split]].
  - intros url. apply find_first_asset_some.
  - intros r. apply find_first_asset_none.
  - intros Hc Hne. destruct (assets rel) as [|x l]; [done|]. simpl.
    unfold re_search. by rewrite Hc.
  - by intros _ ->.
Qed.

Lemma required_keys_dec cfg : has_required_keys cfg \/ ~ has_required_keys cfg.
Proof.
  unfold has_required_keys.
  destruct (cfg !! "github_repo"); [|right; by intros ([? ?] & _)].
  destruct (cfg !! "local_file"); [|right; by intros (_ & [? ?] & _)].
  destruct (cfg !! "version_pattern"); [|right; by intros (_ & _ & [? ?] & _)].
  destruct (cfg !! "name"); [|right; by intros (_ & _ & _ & [? ?])].
  left. eauto.
Qed.



(** X7: whatever the outcome of a turn, raised exception included, the only
    files [update_repository] can change are the local file of the entry and
    its [.tmp] companion: every other path holds afterwards what it held
    before. *)
Theorem orchestrator_touches_only_its_files (cfg : gmap string string)
    (p : string) (s : state) :
  (forall local_file,
     cfg !! "local_file" = Some local_file ->
     p <> local_file /\ p <> local_file +:+ ".tmp") ->
  fs (snd (run (update_repository cfg) s)) !! p = fs s !! p.
Proof.
  intros Hp. unfold run.
  destruct (required_keys_dec cfg) as [Hk|Hk].
  - pose proof Hk as (_ & [local_file Hfile] & _).
    destruct (Hp local_file Hfile) as [Hp1 Hp2].
    destruct (update_repository_outcomes cfg local_file ∅ s Hk Hfile)
      as (res & fs' & evs & -> & _ & Hframe & _).
    simpl. by apply Hframe.
  - by rewrite (update_repository_missing_key cfg ∅ s Hk).
Qed.

(** X8: when the release cannot be fetched (no answer, error status, body
    that is not JSON) the turn fails for that repository only: it returns
    [False], one request has been made, nothing was resolved or downloaded,
    no file has changed, and the error is printed under the name of the
    repository. *)
Theorem fetch_failure_fails_the_repository
    (cfg : gmap string string)
    (repo local_file version_pattern repo_name v : string)
    (local_ver : Version.t) (e : exn) (s : state) :
  cfg !! "github_repo" = Some repo ->
  cfg !! "local_file" = Some local_file ->
  cfg !! "version_pattern" = Some version_pattern ->
  cfg !! "name" = Some repo_name ->
  fst (run (get_local_version local_file version_pattern) s) = Ok (Some v) ->
  v <> "" ->
  Version.parse v = Some local_ver ->
  fst (run (get_latest_release repo) s) = Raise e ->
  let out := run (update_repository cfg) s in
  fst out = Ok false /\
  fs (snd out) = fs s /\
  requested (trace (snd out)) = (requested (trace s) ++ [api_url repo])%list /\
  resolved (trace (snd out)) = resolved (trace s) /\
  downloads (trace (snd out)) = downloads (trace s) /\
  errors (trace (snd out)) = (errors (trace s) ++ [MsgRepoError repo_name e])%list.
Proof.
  intros Hrepo Hfile Hpat Hname Hlocal Hv Hlv Hrel out. subst out. unfold run.
  rewrite (update_repository_fetch_fails _ _ _ _ _ Hrepo Hfile Hpat Hname
             _ v local_ver e) by done.
  simpl. repeat apply conj; try done.
  all: split_trace; simpl; by rewrite ?app_nil_r.
Qed.

(** X9: a local version or a release tag that is not a version fails the
    repository: for the local one before any request is made, for the tag
    after the one request and before anything is resolved or downloaded; no
    file changes either way. *)
Theorem invalid_version_fails_the_repository
    (cfg : gmap string string)
    (repo local_file version_pattern repo_name v : string) (s : state) :
  cfg !! "github_repo" = Some repo ->
  cfg !! "local_file" = Some local_file ->
  cfg !! "version_pattern" = Some version_pattern ->
  cfg !! "name" = Some repo_name ->
  fst (run (get_local_version local_file version_pattern) s) = Ok (Some v) ->
  v <> "" ->
  let out := run (update_repository cfg) s in
  (Version.parse v = None ->
   fst out = Ok false /\
   fs (snd out) = fs s /\
   requested (trace (snd out)) = requested (trace s) /\
   errors (trace (snd out))
   = (errors (trace s) ++ [MsgRepoError repo_name (InvalidVersion v)])%list) /\
  (forall local_ver rel,
     Version.parse v = Some local_ver ->
     fst (run (get_latest_release repo) s) = Ok rel ->
     Version.parse (remote_version_string rel) = None ->
     fst out = Ok false /\
     fs (snd out) = fs s /\
     requested (trace (snd out)) = (requested (trace s) ++ [api_url repo])%list /\
     resolved (trace (snd out)) = resolved (trace s) /\
     downloads (trace (snd out)) = downloads (trace s) /\
     errors (trace (snd out))
     = (errors (trace s) ++
        [MsgRepoError repo_name (InvalidVersion (remote_version_string rel))])%list).
Proof.
  intros Hrepo Hfile Hpat Hname Hlocal Hv out. subst out. unfold run. split.
  - intros Hlv.
    rewrite (update_repository_local_invalid _ _ _ _ _ Hrepo Hfile Hpat Hname
               _ v) by done.
    simpl. repeat apply conj; try done.
    all: split_trace; simpl; by rewrite ?app_nil_r.
  - intros local_ver rel Hlv Hrel Hrv.
    rewrite (update_repository_remote_invalid _ _ _ _ _ Hrepo Hfile Hpat Hname
               _ v local_ver rel) by done.
    simpl. repeat apply conj; try done.
    all: split_trace; simpl; by rewrite ?app_nil_r.
Qed.

(** X10: a version pattern that matches the base name but has no group 1
    makes the Local Version Extractor raise [IndexError], and one that is
    not a regular expression makes it raise for an existing file; the
    Orchestrator turns either into a failure of that repository, with no
    request made and no file changed. *)
Theorem bad_pattern_fails_the_repository
    (cfg : gmap string string)
    (repo local_file version_pattern repo_name : string) (s : state) :
  cfg !! "github_repo" = Some repo ->
  cfg !! "local_file" = Some local_file ->
  cfg !! "version_pattern" = Some version_pattern ->
  cfg !! "name" = Some repo_name ->
  is_Some (fs s !! local_file) ->
  let out := run (update_repository cfg) s in
  let failed e :=
    fst (run (get_local_version local_file version_pattern) s) = Raise e /\
    fst out = Ok false /\
    fs (snd out) = fs s /\
    requested (trace (snd out)) = requested (trace s) /\
    errors (trace (snd out))
    = (errors (trace s) ++ [MsgRepoError repo_name e])%list in
  (forall r groups,
     re_compile version_pattern = Some r ->
     regex_search r (OsPath.basename local_file) = Some groups ->
     groups !! 1%nat = None ->
     failed IndexError) /\
  (re_compile version_pattern = None -> failed (ReError version_pattern)).
Proof.
  intros Hrepo Hfile Hpat Hname Hex out failed. subst out failed.
  assert (Hgo : forall e,
    fst (run (get_local_version local_file version_pattern) s) = Raise e ->
    fst (run (get_local_version local_file version_pattern) s) = Raise e /\
    fst (run (update_repository cfg) s) = Ok false /\
    fs (snd (run (update_repository cfg) s)) = fs s /\
    requested (trace (snd (run (update_repository cfg) s))) = requested (trace s) /\
    errors (trace (snd (run (update_repository cfg) s)))
    = (errors (trace s) ++ [MsgRepoError repo_name e])%list).
  { intros e He. split; [done|]. unfold run.
    rewrite (update_repository_extractor_raises _ _ _ _ _ Hrepo Hfile Hpat Hname
               _ e) by done.
    simpl. repeat apply conj; try done.
    all: split_trace; simpl; by rewrite ?app_nil_r. }
  split.
  - intros r groups Hc Hs Hg. apply Hgo.
    unfold run. rewrite get_local_version_eq. simpl.
    rewrite bool_decide_eq_true_2 by done.
    unfold re_search, group. by rewrite Hc, Hs, Hg.
  - intros Hc. apply Hgo.
    unfold run. rewrite get_local_version_eq. simpl.
    rewrite bool_decide_eq_true_2 by done.
    unfold re_search. by rewrite Hc.
Qed.

(** X11: a configuration file that exists but does not decode makes the
    Config Loader raise the decoder's error, and one that decodes to an
    object without the key ["repositories"] makes it raise [KeyError] for
    that key; the file is only read.  With an empty list under the key,
    [main] reports zero repositories and completes, having invoked the
    Orchestrator on nothing. *)
Theorem config_loader_errors (config_path : string) (s : state) :
  (forall content,
     fs s !! config_path = Some content ->
     json_loads content = None ->
     run (load_repositories config_path) s =
     (Raise JSONDecodeError, logged s [Enter (F_load_repositories config_path)])) /\
  (forall content doc,
     fs s !! config_path = Some content ->
     json_loads content = Some doc ->
     doc !! "repositories" = None ->
     run (load_repositories config_path) s =
     (Raise (KeyError "repositories"),
      logged s [Enter (F_load_repositories config_path)])) /\
  (fst (run (load_repositories "repo.json") s) = Ok [] ->
   run main s =
   (Ok tt, logged s [Enter F_main; Enter (F_load_repositories "repo.json");
                     Print (MsgFound 0); Print MsgAllDone])).
Proof.
  split; [|split].
  - intros content Hf Hj. unfold run. rewrite load_repositories_eq.
    by rewrite Hf, Hj.
  - intros content doc Hf Hj Hd. unfold run. rewrite load_repositories_eq.
    by rewrite Hf, Hj, Hd.
  - unfold run. rewrite load_repositories_eq. simpl. intros Hload.
    unfold main, call, try_except, bind. rewrite load_repositories_eq. simpl.
    rewrite Hload. unfold logged. simpl. by rewrite <- !app_assoc.
Qed.

(** A turn that downloads and replaces, as a whole. *)
Lemma update_repository_replaced
    (cfg : gmap string string)
    (repo local_file version_pattern repo_name v url x : string)
    (local_ver remote_ver : Version.t) (rel : release) (r : response)
    (f : frame) (s : state) :
  cfg !! "github_repo" = Some repo ->
  cfg !! "local_file" = Some local_file ->
  cfg !! "version_pattern" = Some version_pattern ->
  cfg !! "name" = Some repo_name ->
  fst (run (get_local_version local_file version_pattern) s) = Ok (Some v) ->
  v <> "" ->
  Version.parse v = Some local_ver ->
  fst (run (get_latest_release repo) s) = Ok rel ->
  Version.parse (remote_version_string rel) = Some remote_ver ->
  Version.gt remote_ver local_ver = true ->
  find_first_asset (assets rel)
    (default version_pattern (cfg !! "asset_pattern")) = Ok (Some url) ->
  url <> "" ->
  net url = Response r ->
  fst (run (download_file url (local_file +:+ ".tmp")) s) = Ok x ->
  remove_fails local_file = false ->
  rename_fails (local_file +:+ ".tmp") local_file = false ->
  exists evs,
    update_repository cfg f s =
    (Ok true, f,
     {| fs := <[local_file := concat (chunks r)]>
                (delete (local_file +:+ ".tmp") (fs s));
        trace := (trace s ++ evs)%list |}) /\
    downloads evs = [(url, local_file +:+ ".tmp")] /\
    requested evs = [api_url repo; url].
Proof.
  intros Hrepo Hfile Hpat Hname Hlocal Hv Hlv Hrel Hrv Hgt Hfind Hurl Hnet Hdl
    Hrm Hrn.
  rewrite (update_repository_compared _ _ _ _ _ Hrepo Hfile Hpat Hname
             _ v local_ver rel remote_ver) by done.
  rewrite VersionFacts.gt_not_le in Hgt.
  destruct (Version.le remote_ver local_ver); [done|].
  destruct (replace_download_ok rel
              (default version_pattern (cfg !! "asset_pattern"))
              local_file repo_name url x
              {["repo_name" := repo_name]}
              (logged s (compared_events cfg repo local_file version_pattern
                           repo_name local_ver remote_ver))
              Hfind Hurl Hrm Hrn
              ltac:(by rewrite (download_outcome_any_state _ _ _ s)))
    as (r' & Hnet' & ->).
  rewrite Hnet in Hnet'. injection Hnet' as <-.
  destruct (file_ops_only _
              (file_ops_chunks (local_file +:+ ".tmp") (chunks r)))
    as (_ & Hreq & _ & Hdown & _).
  simpl. rewrite <- app_assoc.
  eexists. split; [reflexivity|]. unfold compared_events. split.
  - split_trace. simpl. rewrite Hdown. by case_bool_decide.
  - split_trace. simpl. rewrite Hreq. by case_bool_decide.
Qed.

(** X12: the downloaded file takes the name of the old one, so the version
    read from the file name does not change with an update: after a turn
    that has replaced the local file (the download returned, and the system
    refused neither the removal of the old file nor the renaming), the
    Local Version Extractor still returns the old version, and a second
    turn in the same environment downloads the same asset again and leaves
    the same files. *)
Theorem update_does_not_record_the_new_version
    (cfg : gmap string string)
    (repo local_file version_pattern repo_name v url x : string)
    (local_ver remote_ver : Version.t) (rel : release) (r : response)
    (s : state) :
  cfg !! "github_repo" = Some repo ->
  cfg !! "local_file" = Some local_file ->
  cfg !! "version_pattern" = Some version_pattern ->
  cfg !! "name" = Some repo_name ->
  fst (run (get_local_version local_file version_pattern) s) = Ok (Some v) ->
  v <> "" ->
  Version.parse v = Some local_ver ->
  fst (run (get_latest_release repo) s) = Ok rel ->
  Version.parse (remote_version_string rel) = Some remote_ver ->
  Version.gt remote_ver local_ver = true ->
  find_first_asset (assets rel)
    (default version_pattern (cfg !! "asset_pattern")) = Ok (Some url) ->
  url <> "" ->
  net url = Response r ->
  fst (run (download_file url (local_file +:+ ".tmp")) s) = Ok x ->
  remove_fails local_file = false ->
  rename_fails (local_file +:+ ".tmp") local_file = false ->
  let once := snd (run (update_repository cfg) s) in
  let twice := run (update_repository cfg) once in
  fst (run (get_local_version local_file version_pattern) once) = Ok (Some v) /\
  fst twice = Ok true /\
  downloads (trace (snd twice)) =
    (downloads (trace s) ++
     [(url, local_file +:+ ".tmp"); (url, local_file +:+ ".tmp")])%list /\
  fs (snd twice) = fs once.
Proof.
  intros Hrepo Hfile Hpat Hname Hlocal Hv Hlv Hrel Hrv Hgt Hfind Hurl Hnet Hdl
    Hrm Hrn once twice.
  destruct (update_repository_replaced cfg repo local_file version_pattern
              repo_name v url x local_ver remote_ver rel r ∅ s)
    as (evs1 & E1 & Hd1 & _); try done.
  assert (Honce : once =
            {| fs := <[local_file := concat (chunks r)]>
                       (delete (local_file +:+ ".tmp") (fs s));
               trace := (trace s ++ evs1)%list |}).
  { subst once. unfold run. by rewrite E1. }
  assert (Hlocal' :
    fst (run (get_local_version local_file version_pattern) once)
    = Ok (Some v)).
  { revert Hlocal. unfold run. rewrite !get_local_version_eq. simpl.
    rewrite Honce. simpl. rewrite lookup_insert_eq.
    rewrite (bool_decide_eq_true_2 (is_Some (Some _))) by eauto.
    case_bool_decide; [done|]. by intros [=]. }
  assert (Hrel' : fst (run (get_latest_release repo) once) = Ok rel).
  { revert Hrel. destruct (get_latest_release_eq repo) as [outcome Hget].
    unfold run. by rewrite !Hget. }
  destruct (update_repository_replaced cfg repo local_file version_pattern
              repo_name v url x local_ver remote_ver rel r ∅ once)
    as (evs2 & E2 & Hd2 & _); try done.
  { by rewrite (download_outcome_any_state _ _ _ s). }
  split; [done|]. subst twice. unfold run. rewrite E2. simpl.
  split; [done|]. split.
  - rewrite Honce. simpl. split_trace. rewrite Hd1, Hd2.
    by rewrite <- app_assoc.
  - rewrite Honce. simpl.
    pose proof (StrFacts.tmp_suffix_ne local_file) as Hne.
    apply map_eq. intros i.
    destruct (decide (i = local_file)) as [->|Hi1].
    { by rewrite !lookup_insert_eq. }
    rewrite !lookup_insert_ne by done.
    destruct (decide (i = local_file +:+ ".tmp")) as [->|Hi2].
    { by rewrite !lookup_delete_eq. }
    by repeat first [ rewrite lookup_insert_ne by done
                    | rewrite lookup_delete_ne by done ].
Qed.

(** X16: the replacement is not atomic.  When the new version has been
    downloaded and the system refuses to remove the old file, the turn
    fails with the old file in place and the temporary file removed.  When
    the old file has been removed and the system refuses the renaming, the
    turn fails as well, the [except] block removes the temporary file, and
    neither the old nor the new version is on disk afterwards. *)
Theorem refused_replacement_fails_the_repository
    (cfg : gmap string string)
    (repo local_file version_pattern repo_name v url x : string)
    (local_ver remote_ver : Version.t) (rel : release) (s : state) :
  cfg !! "github_repo" = Some repo ->
  cfg !! "local_file" = Some local_file ->
  cfg !! "version_pattern" = Some version_pattern ->
  cfg !! "name" = Some repo_name ->
  fst (run (get_local_version local_file version_pattern) s) = Ok (Some v) ->
  v <> "" ->
  Version.parse v = Some local_ver ->
  fst (run (get_latest_release repo) s) = Ok rel ->
  Version.parse (remote_version_string rel) = Some remote_ver ->
  Version.gt remote_ver local_ver = true ->
  find_first_asset (assets rel)
    (default version_pattern (cfg !! "asset_pattern")) = Ok (Some url) ->
  url <> "" ->
  fst (run (download_file url (local_file +:+ ".tmp")) s) = Ok x ->
  remove_fails (local_file +:+ ".tmp") = false ->
  let out := run (update_repository cfg) s in
  let temp_file := local_file +:+ ".tmp" in
  (remove_fails local_file = true ->
   fst out = Ok false /\
   fs (snd out) = delete temp_file (fs s) /\
   fs (snd out) !! local_file = fs s !! local_file /\
   errors (trace (snd out))
   = (errors (trace s) ++ [MsgRepoError repo_name (OSError local_file)])%list) /\
  (remove_fails local_file = false ->
   rename_fails temp_file local_file = true ->
   fst out = Ok false /\
   fs (snd out) = delete temp_file (delete local_file (fs s)) /\
   fs (snd out) !! local_file = None /\
   fs (snd out) !! temp_file = None /\
   errors (trace (snd out))
   = (errors (trace s) ++ [MsgRepoError repo_name (OSError temp_file)])%list).
Proof.
  intros Hrepo Hfile Hpat Hname Hlocal Hv Hlv Hrel Hrv Hgt Hfind Hurl Hdl Hrt
    out temp_file.
  subst out temp_file. unfold run.
  destruct (extracted_exists _ _ _ _ Hlocal) as [old Hold].
  pose proof (StrFacts.tmp_suffix_ne local_file) as Hne.
  rewrite (update_repository_compared _ _ _ _ _ Hrepo Hfile Hpat Hname
             _ v local_ver rel remote_ver) by done.
  rewrite VersionFacts.gt_not_le in Hgt.
  destruct (Version.le remote_ver local_ver); [done|].
  destruct (replace_refused rel
              (default version_pattern (cfg !! "asset_pattern"))
              local_file repo_name url x old
              {["repo_name" := repo_name]}
              (logged s (compared_events cfg repo local_file version_pattern
                           repo_name local_ver remote_ver))
              Hfind Hurl ltac:(apply lookup_singleton_eq) Hold
              ltac:(by rewrite (download_outcome_any_state _ _ _ s)) Hrt)
    as (ops0 & Hops0 & Hkept & Hlost).
  destruct (file_ops_only _ Hops0) as (_ & _ & _ & _ & He0).
  split.
  - intros Hrm. rewrite (Hkept Hrm). simpl. repeat apply conj; try done.
    + by rewrite lookup_delete_ne.
    + unfold compared_events. rewrite <- app_assoc.
      split_trace. simpl. by rewrite He0.
  - intros Hrm Hrn. rewrite (Hlost Hrm Hrn). simpl.
    repeat apply conj; try done.
    + rewrite lookup_delete_ne by done. apply lookup_delete_eq.
    + apply lookup_delete_eq.
    + unfold compared_events. rewrite <- app_assoc.
      split_trace. simpl. by rewrite He0.
Qed.

(** X13: the version string taken from a tag is the tag without its whole
    run of leading [v]s: it never starts with [v], the tag is that run
    followed by it, and a tag that starts with no [v], or with one [v] only,
    loses at most that one character. *)
Theorem remote_version_string_strips_the_run (rel : release) :
  (exists n,
     tag_name rel = Str.replicate n "v" +:+ remote_version_string rel) /\
  Str.startswith "v" (remote_version_string rel) = false /\
  (Str.startswith "vv" (tag_name rel) = false ->
   remote_version_string rel = Str.remove_one "v" (tag_name rel)) /\
  (Str.startswith "v" (tag_name rel) = false ->
   remote_version_string rel = tag_name rel).
Proof.
  unfold remote_version_string.
  destruct (StrFacts.lstrip_v_spec (tag_name rel)) as (n & E1 & E2).
  split; [by exists n|]. split; [done|]. split.
  - apply StrFacts.lstrip_v_single.
  - destruct (tag_name rel) as [|c t]; [done|].
    rewrite StrFacts.lstrip_v_unfold.
    change (Str.startswith "v" (String c t)) with (Ascii.eqb "v" c && true).
    rewrite andb_true_r, Ascii.eqb_sym. by intros ->.
Qed.


(** X15: when an entry lacks one of the four keys, and the turns of the
    entries before it have returned (they have their keys, and the system
    refuses the removal of none of their temporary files), [main] has
    invoked the Orchestrator on the entries before it and on it, on none of
    the entries after it, and ends with the top-level error message for
    [repo_name] instead of the completion message. *)
Theorem batch_runner_stops_at_entry_without_key
    (good rest : list (gmap string string)) (bad : gmap string string)
    (s : state) :
  fst (run (load_repositories "repo.json") s) = Ok (good ++ bad :: rest)%list ->
  Forall has_required_keys good ->
  Forall cleanup_allowed good ->
  ~ has_required_keys bad ->
  let out := run main s in
  fst out = Ok tt /\
  invoked (trace (snd out)) = (invoked (trace s) ++ good ++ [bad])%list /\
  last (trace (snd out))
  = Some (Print (MsgProgramError (NameError "repo_name"))).
Proof.
  intros Hload Hgood Hclean Hbad out. subst out.
  destruct (main_stops_at_missing_key s good bad rest Hload Hgood Hclean Hbad)
    as (fs' & evs & -> & Hi & Hl).
  simpl. split; [done|]. split.
  - split_trace. by rewrite Hi.
  - destruct evs as [|e evs]; [done|]. by rewrite last_app, Hl.
Qed.

End Coverage.

(** ** More of the program, on the examples *)

(** X3 on the example: downloading straight onto the local file while the
    stream breaks leaves the first chunk there in place of the old
    content. *)
Lemma broken_stream_witness :
  let out := run (@download_file Demo.env_broken Demo.asset_url "tool-1.2.0.zip")
               Demo.disk_tool in
  fst out = Raise (ChunkedEncodingError Demo.asset_url) /\
  fs (snd out) !! "tool-1.2.0.zip" = Some [Byte.x01; Byte.x03].
Proof.
  pose proof (broken_stream_leaves_partial_file (H := Demo.env_broken)
                Demo.asset_url "tool-1.2.0.zip"
                (Demo.file_response [[Byte.x01; Byte.x03]] true) Demo.disk_tool
                ltac:(by_evaluation) ltac:(by_evaluation) ltac:(by_evaluation)
                ltac:(by_evaluation))
    as Hthm.
  cbv zeta in Hthm. destruct Hthm as (Hres & Hfile & _).
  split; [exact Hres | exact Hfile].
Defined.

(** X7 on the example: the configuration file is as it was after an
    update. *)
Lemma touches_only_its_files_witness :
  fs (snd (run (@update_repository Demo.env_newer Demo.tool) Demo.disk_tool))
    !! "repo.json" = Some Demo.config_tool.
Proof.
  rewrite (orchestrator_touches_only_its_files (H := Demo.env_newer)
             Demo.tool "repo.json" Demo.disk_tool).
  - vm_compute. reflexivity.
  - intros local_file Hfile. vm_compute in Hfile. injection Hfile as <-.
    split; discriminate.
Defined.

(** X8 on the example: the release API does not answer for [ghost]. *)
Lemma fetch_failure_witness :
  let out := run (@update_repository Demo.env_three Demo.ghost) Demo.disk_three in
  fst out = Ok false /\
  requested (trace (snd out)) = [api_url "acme/ghost"] /\
  errors (trace (snd out))
  = [MsgRepoError "ghost" (ConnectionError (api_url "acme/ghost"))].
Proof.
  pose proof (fetch_failure_fails_the_repository (H := Demo.env_three)
                Demo.ghost "acme/ghost" "ghost-0.1.0.zip"
                "ghost-(\d+\.\d+\.\d+)\.zip" "ghost" "0.1.0"
                (Version.mk 0 [0; 1; 0] None None None None)
                (ConnectionError (api_url "acme/ghost")) Demo.disk_three
                ltac:(by_evaluation) ltac:(by_evaluation) ltac:(by_evaluation)
                ltac:(by_evaluation) ltac:(by_evaluation) ltac:(by_evaluation)
                ltac:(by_evaluation) ltac:(by_evaluation))
    as Hthm.
  cbv zeta in Hthm. destruct Hthm as (Hres & _ & Hreq & _ & _ & Herr).
  split; [exact Hres|]. split; [exact Hreq | exact Herr].
Defined.

(** X9 on the example: the file [tool-latest.zip] gives the version
    [latest], which is none. *)
Lemma invalid_version_witness :
  let out := run (@update_repository Demo.env_newer DemoMore.loose)
               DemoMore.disk_loose in
  fst out = Ok false /\
  requested (trace (snd out)) = [] /\
  errors (trace (snd out)) = [MsgRepoError "tool" (InvalidVersion "latest")].
Proof.
  pose proof (invalid_version_fails_the_repository (H := Demo.env_newer)
                DemoMore.loose "acme/tool" "tool-latest.zip" "tool-(.+)\.zip"
                "tool" "latest" DemoMore.disk_loose
                ltac:(by_evaluation) ltac:(by_evaluation) ltac:(by_evaluation)
                ltac:(by_evaluation) ltac:(by_evaluation) ltac:(by_evaluation))
    as Hthm.
  cbv zeta in Hthm. destruct Hthm as (Hlocal & _).
  destruct (Hlocal ltac:(by_evaluation)) as (Hres & _ & Hreq & Herr).
  split; [exact Hres|]. split; [exact Hreq | exact Herr].
Defined.

(** X9, the other side: the tag [nightly] is not a version. *)
Example nightly_tag_fails_the_repository :
  let out := run (@update_repository DemoMore.env_nightly Demo.tool)
               Demo.disk_tool in
  fst out = Ok false /\
  downloads (trace (snd out)) = [] /\
  errors (trace (snd out)) = [MsgRepoError "tool" (InvalidVersion "nightly")].
Proof. cbv zeta. repeat apply conj; vm_compute; reflexivity. Qed.

(** X10 on the example: the pattern of [tool] without its group. *)
Lemma bad_pattern_witness :
  let out := run (@update_repository Demo.env_newer DemoMore.groupless)
               Demo.disk_tool in
  fst out = Ok false /\
  requested (trace (snd out)) = [] /\
  errors (trace (snd out)) = [MsgRepoError "tool" IndexError].
Proof.
  pose proof (bad_pattern_fails_the_repository (H := Demo.env_newer)
                DemoMore.groupless "acme/tool" "tool-1.2.0.zip"
                "tool-\d+\.\d+\.\d+\.zip" "tool" Demo.disk_tool
                ltac:(by_evaluation) ltac:(by_evaluation) ltac:(by_evaluation)
                ltac:(by_evaluation) ltac:(by_evaluation))
    as Hthm.
  cbv zeta in Hthm. destruct Hthm as (Hgroup & _).
  destruct (Hgroup
              [MiniRe.One (MiniRe.Lit "t"); MiniRe.One (MiniRe.Lit "o");
               MiniRe.One (MiniRe.Lit "o"); MiniRe.One (MiniRe.Lit "l");
               MiniRe.One (MiniRe.Lit "-"); MiniRe.Many MiniRe.Digit 1;
               MiniRe.One (MiniRe.Lit "."); MiniRe.Many MiniRe.Digit 1;
               MiniRe.One (MiniRe.Lit "."); MiniRe.Many MiniRe.Digit 1;
               MiniRe.One (MiniRe.Lit "."); MiniRe.One (MiniRe.Lit "z");
               MiniRe.One (MiniRe.Lit "i"); MiniRe.One (MiniRe.Lit "p")]
              [Some "tool-1.2.0.zip"]
              ltac:(by_evaluation) ltac:(by_evaluation) ltac:(by_evaluation))
    as (_ & Hres & _ & Hreq & Herr).
  split; [exact Hres|]. split; [exact Hreq | exact Herr].
Defined.

(** X12 on the example of the spec: after the update the file is still
    named [tool-1.2.0.zip], and the next turn downloads 1.3.0 again. *)
Lemma second_turn_witness :
  let once := snd (run (@update_repository Demo.env_newer Demo.tool)
                     Demo.disk_tool) in
  let twice := run (@update_repository Demo.env_newer Demo.tool) once in
  fst (run (@get_local_version Demo.env_newer "tool-1.2.0.zip" Demo.pattern)
         once) = Ok (Some "1.2.0") /\
  fst twice = Ok true /\
  downloads (trace (snd twice))
  = [(Demo.asset_url, "tool-1.2.0.zip.tmp");
     (Demo.asset_url, "tool-1.2.0.zip.tmp")].
Proof.
  pose proof (update_does_not_record_the_new_version (H := Demo.env_newer)
                Demo.tool "acme/tool" "tool-1.2.0.zip" Demo.pattern "tool"
                "1.2.0" Demo.asset_url "tool-1.2.0.zip.tmp"
                Demo.version_1_2_0 Demo.version_1_3_0 Demo.release_1_3_0
                (Demo.file_response Demo.new_chunks false) Demo.disk_tool
                ltac:(by_evaluation) ltac:(by_evaluation) ltac:(by_evaluation)
                ltac:(by_evaluation) ltac:(by_evaluation) ltac:(by_evaluation)
                ltac:(by_evaluation) ltac:(by_evaluation) ltac:(by_evaluation)
                ltac:(by_evaluation) ltac:(by_evaluation) ltac:(by_evaluation)
                ltac:(by_evaluation) ltac:(by_evaluation) ltac:(by_evaluation)
                ltac:(by_evaluation))
    as Hthm.
  cbv zeta in Hthm. destruct Hthm as (Hlocal & Hres & Hdown & _).
  split; [exact Hlocal|]. split; [exact Hres | exact Hdown].
Defined.


(** What the three turns of that run print as errors. *)
Example every_entry_fails_on_its_own :
  errors (trace (snd (run (@main DemoMore.env_three_broken) Demo.disk_three)))
  = [MsgRepoError "tool" (ChunkedEncodingError Demo.asset_url);
     MsgRepoError "ghost" (ConnectionError (api_url "acme/ghost"));
     MsgRepoError "tool" (ChunkedEncodingError Demo.asset_url)].
Proof. vm_compute. reflexivity. Qed.

(** X15 on the example: the entry without ["name"] stands between two
    complete entries; the first is processed, the third is not. *)
Lemma entry_without_key_witness :
  let out := run (@main DemoMore.env_middle_nameless)
               DemoMore.disk_middle_nameless in
  fst out = Ok tt /\
  invoked (trace (snd out)) = [Demo.tool; Demo.nameless] /\
  last (trace (snd out))
  = Some (Print (MsgProgramError (NameError "repo_name"))).
Proof.
  pose proof (batch_runner_stops_at_entry_without_key
                (H := DemoMore.env_middle_nameless)
                [Demo.tool] [Demo.ghost] Demo.nameless
                DemoMore.disk_middle_nameless
                ltac:(by_evaluation)
                ltac:(repeat constructor; eexists; vm_compute; reflexivity)
                ltac:(repeat constructor; intros local_file _; reflexivity)
                ltac:(intros (_ & _ & _ & [x Hx]); vm_compute in Hx;
                      discriminate))
    as Hthm.
  exact Hthm.
Defined.

(** X16 on the examples: the old file of [tool] cannot be removed, and it
    stays; the temporary file of [tool] cannot be renamed, and the turn
    leaves neither file. *)
Lemma refused_replacement_witness :
  let kept := run (@update_repository DemoMore.env_old_file_stuck Demo.tool)
                Demo.disk_tool in
  let lost := run (@update_repository DemoMore.env_pinned Demo.tool)
                Demo.disk_tool in
  (fst kept = Ok false /\
   fs (snd kept) !! "tool-1.2.0.zip" = Some Demo.old_content) /\
  (fst lost = Ok false /\
   fs (snd lost) !! "tool-1.2.0.zip" = None /\
   fs (snd lost) !! "tool-1.2.0.zip.tmp" = None).
Proof.
  split.
  - pose proof (refused_replacement_fails_the_repository
                  (H := DemoMore.env_old_file_stuck)
                  Demo.tool "acme/tool" "tool-1.2.0.zip" Demo.pattern "tool"
                  "1.2.0" Demo.asset_url "tool-1.2.0.zip.tmp"
                  Demo.version_1_2_0 Demo.version_1_3_0 Demo.release_1_3_0
                  Demo.disk_tool
                  ltac:(by_evaluation) ltac:(by_evaluation) ltac:(by_evaluation)
                  ltac:(by_evaluation) ltac:(by_evaluation) ltac:(by_evaluation)
                  ltac:(by_evaluation) ltac:(by_evaluation) ltac:(by_evaluation)
                  ltac:(by_evaluation) ltac:(by_evaluation) ltac:(by_evaluation)
                  ltac:(by_evaluation) ltac:(by_evaluation))
      as Hthm.
    cbv zeta in Hthm. destruct Hthm as (Hkept & _).
    destruct (Hkept ltac:(by_evaluation)) as (Hres & _ & Hlocal & _).
    split; [exact Hres|]. rewrite Hlocal. vm_compute. reflexivity.
  - pose proof (refused_replacement_fails_the_repository
                  (H := DemoMore.env_pinned)
                  Demo.tool "acme/tool" "tool-1.2.0.zip" Demo.pattern "tool"
                  "1.2.0" Demo.asset_url "tool-1.2.0.zip.tmp"
                  Demo.version_1_2_0 Demo.version_1_3_0 Demo.release_1_3_0
                  Demo.disk_tool
                  ltac:(by_evaluation) ltac:(by_evaluation) ltac:(by_evaluation)
                  ltac:(by_evaluation) ltac:(by_evaluation) ltac:(by_evaluation)
                  ltac:(by_evaluation) ltac:(by_evaluation) ltac:(by_evaluation)
                  ltac:(by_evaluation) ltac:(by_evaluation) ltac:(by_evaluation)
                  ltac:(by_evaluation) ltac:(by_evaluation))
      as Hthm.
    cbv zeta in Hthm. destruct Hthm as (_ & Hlost).
    destruct (Hlost ltac:(by_evaluation) ltac:(by_evaluation))
      as (Hres & _ & Hlocal & Htmp & _).
    split; [exact Hres|]. split; [exact Hlocal | exact Htmp].
Defined.

(** X5 on an example: the stream breaks, the system refuses to remove the
    partial temporary file, and the exception of [os.remove] leaves
    [update_repository]. *)
Example cleanup_refused_after_broken_stream :
  let env :=
    faulty_env Demo.docs
      [ (api_url "acme/tool", Demo.json_response Demo.release_1_3_0);
        (Demo.asset_url, Demo.file_response [[Byte.x01; Byte.x03]] true) ]
      Demo.no_fault ["tool-1.2.0.zip.tmp"] [] in
  let out := run (@update_repository env Demo.tool) Demo.disk_tool in
  fst out = Raise (OSError "tool-1.2.0.zip.tmp") /\
  fs (snd out) !! "tool-1.2.0.zip.tmp" = Some [Byte.x01; Byte.x03] /\
  fs (snd out) !! "tool-1.2.0.zip" = Some Demo.old_content /\
  downloads (trace (snd out)) = [(Demo.asset_url, "tool-1.2.0.zip.tmp")].
Proof. cbv zeta. repeat apply conj; vm_compute; reflexivity. Qed.
